(** * form2mail: a contact-form endpoint relaying submissions over SMTP

    Shallow embedding of the Go sources
      - internal/config   (Config, Load, getEnv)
      - internal/email    (Sender, Send, SendContactNotification,
                           SendConfirmation), in its two revisions: the one
                           that drives the SMTP session itself (sender.go)
                           and the one on smtp.SendMail
      - internal/handler  (ContactForm, ContactHandler, ServeHTTP)
      - cmd/server        (main)
    and the properties of the request-handling and mail-dispatch sequence.

    Go strings are byte strings: [string].  Go maps are [gmap].  An [error]
    is [option string] ([None] is [nil], [Some e] carries [e.Error()]).
    Effects (the response writer, the SMTP wire, the log) are threaded
    through a state monad whose state also records every effect, in order,
    in a trace.  What the mail server answers is a parameter ([Network]).

    Of the standard library, the handler is given the two readers it calls
    as parameters: how the first JSON value of a body reads, and what
    [Request.ParseForm] returns; the properties of the handler hold for any
    two.  Models of the readers themselves ([encoding/json]'s decoder,
    [net/url]'s query parser and [net/http]'s [ParseForm]) are given beside,
    to run the handler on bodies of bytes. *)

From Stdlib Require Import Ascii String List Bool Arith Lia.
From stdpp Require Import base option gmap strings list fin_maps.

Local Open Scope string_scope.
Local Open Scope list_scope.

(** ** Strings: the pieces of [strings] and [fmt] the program calls *)

Definition LF : string := String (ascii_of_nat 10) EmptyString.
Definition CR : string := String (ascii_of_nat 13) EmptyString.
Definition TAB : string := String (ascii_of_nat 9) EmptyString.
Definition CRLF : string := CR +:+ LF.

(** [strings.HasPrefix s p]. *)
Fixpoint HasPrefix (s p : string) {struct p} : bool :=
  match p, s with
  | EmptyString, _ => true
  | String b p', String a s' => if Ascii.eqb a b then HasPrefix s' p' else false
  | String _ _, EmptyString => false
  end.

(** The slice [s[n:]]. *)
Fixpoint dropBytes (n : nat) (s : string) : string :=
  match n, s with
  | S k, String _ s' => dropBytes k s'
  | _, _ => s
  end.

(** [strings.Contains s substr]. *)
Fixpoint Contains (s substr : string) : bool :=
  HasPrefix s substr ||
  match s with
  | EmptyString => false
  | String _ s' => Contains s' substr
  end.

(** [strings.ReplaceAll s old new] for a non-empty [old]: the
    non-overlapping occurrences of [old] are replaced from left to right.
    [skip] counts the bytes of a matched [old] still to be dropped. *)
Fixpoint replaceFrom (old new : string) (skip : nat) (s : string) : string :=
  match s with
  | EmptyString => EmptyString
  | String c s' =>
      match skip with
      | S k => replaceFrom old new k s'
      | O =>
          if HasPrefix s old
          then new +:+ replaceFrom old new (String.length old - 1) s'
          else String c (replaceFrom old new 0 s')
      end
  end.

Definition ReplaceAll (s old new : string) : string := replaceFrom old new 0 s.

(** [fmt.Sprintf format args...] for string and error operands: the verbs
    [%s] and [%v] print the next operand as it is (an error by its text),
    [%w] (in [fmt.Errorf]) prints the wrapped error's text, [%%] prints a
    percent sign.  A verb with no operand left
    prints [%!s(MISSING)]; operands left over are reported at the end. *)
Fixpoint extraArgs (args : list string) : string :=
  match args with
  | [] => EmptyString
  | [a] => "string=" +:+ a
  | a :: rest => "string=" +:+ a +:+ ", " +:+ extraArgs rest
  end.

Fixpoint Sprintf (format : string) (args : list string) : string :=
  match format with
  | EmptyString =>
      match args with
      | [] => EmptyString
      | _ => "%!(EXTRA " +:+ extraArgs args +:+ ")"
      end
  | String "%" (String c rest as tl) =>
      if Ascii.eqb c "s" || Ascii.eqb c "v" || Ascii.eqb c "w" then
        match args with
        | a :: args' => a +:+ Sprintf rest args'
        | [] => "%!" +:+ String c "(MISSING)" +:+ Sprintf rest []
        end
      else if Ascii.eqb c "%" then String "%" (Sprintf rest args)
      else String "%" (Sprintf tl args)
  | String c rest => String c (Sprintf rest args)
  end.

(** Go's [error]: [nil] or a value with a message. *)
Definition error : Type := option string.

Definition Errorf (format : string) (args : list string) : error :=
  Some (Sprintf format args).

(** ** internal/config *)

Module config.

Record Config : Type := mkConfig {
  SMTPHost : string;
  SMTPPort : string;
  SMTPUser : string;
  SMTPPassword : string;
  RecipientEmail : string;
  FromEmail : string;
  ServerPort : string;
  CORSOrigin : string
}.

(** The process environment; [os.Getenv] gives the empty string for a
    variable that is not set. *)
Definition Getenv (env : gmap string string) (key : string) : string :=
  default EmptyString (env !! key).

Definition getEnv (env : gmap string string) (key defaultValue : string) : string :=
  let value := Getenv env key in
  if String.eqb value EmptyString then defaultValue else value.

Definition Load (env : gmap string string) : Config :=
  {| SMTPHost := getEnv env "SMTP_HOST" "smtp.gmail.com";
     SMTPPort := getEnv env "SMTP_PORT" "587";
     SMTPUser := getEnv env "SMTP_USER" EmptyString;
     SMTPPassword := getEnv env "SMTP_PASSWORD" EmptyString;
     RecipientEmail := getEnv env "RECIPIENT_EMAIL" EmptyString;
     FromEmail := getEnv env "FROM_EMAIL" EmptyString;
     ServerPort := getEnv env "SERVER_PORT" "8080";
     CORSOrigin := getEnv env "CORS_ORIGIN" "*" |}.

End config.

Import config.


(** ** Effects

    The program's effects are operations on the response writer, SMTP client
    calls and log lines.  Each one is recorded as an [Event], in order. *)

(** [smtp.PlainAuth(identity, username, password, host)]. *)
Record Auth : Type := PlainAuth {
  identity : string;
  username : string;
  password : string;
  host : string
}.

(** The calls of [net/smtp] made by the two revisions of [Sender.Send]. *)
Inductive smtp_op : Type :=
| smtp_Dial (addr : string)
| client_Hello (localName : string)
| client_StartTLS (serverName : string)
| client_Auth (a : Auth)
| client_Mail (from : string)
| client_Rcpt (to : string)
| client_Data
| data_Write (msg : string)
| data_Close
| client_Quit
| client_Close
| smtp_SendMail (addr : string) (a : Auth) (from : string) (to : list string) (msg : string).

(** The two dispatch methods of [Sender], with their arguments. *)
Inductive Dispatch : Type :=
| Notification (name email subject message : string)
| Confirmation (name email message : string).

(** What is written to the response body: [fmt.Fprintln(w, s)] writes the
    line [s]; [json.NewEncoder(w).Encode(m)] writes the JSON object [m] as
    one line. *)
Inductive Chunk : Type :=
| Println (s : string)
| JSONLine (m : gmap string string).

(** The events of a run.  [EvSetHeader], [EvDelHeader], [EvWriteHeader] and
    [EvWrite] are the operations on the response writer; [EvLog] is a line
    of [log.Printf]; [EvExtension] and [EvSmtp] are the calls of the SMTP
    client, with what they returned.  Four events mark points of the program
    rather than effects: [EvDecodeJSON] and [EvParseForm] the reader the
    handler hands the body to, [EvDispatch] the entry of one of [Sender]'s
    two dispatch methods and [EvDispatchDone] its return. *)
Inductive Event : Type :=
| EvSetHeader (key value : string)
| EvDelHeader (key : string)
| EvWriteHeader (code : nat)
| EvWrite (c : Chunk)
| EvDecodeJSON
| EvParseForm
| EvLog (line : string)
| EvDispatch (d : Dispatch)
| EvDispatchDone (d : Dispatch) (err : error)
| EvExtension (ext : string) (ok : bool)
| EvSmtp (op : smtp_op) (err : error).

(** [http.Header]: a map from header names, in their canonical spelling, to
    their values; [Get] gives the first value or the empty string, [Set]
    replaces the values by one. *)
Definition Header_Get (h : gmap string (list string)) (key : string) : string :=
  match h !! key with
  | Some (v :: _) => v
  | _ => EmptyString
  end.

Definition Header_Set (h : gmap string (list string)) (key value : string)
  : gmap string (list string) := <[key := [value]]> h.

Definition Header_Del (h : gmap string (list string)) (key : string)
  : gmap string (list string) := delete key h.

(** [http.ResponseWriter]: the header map, the status line once it is
    written, and the body written so far. *)
Record ResponseWriter : Type := mkResponseWriter {
  header : gmap string (list string);
  status : option nat;
  body : list Chunk
}.

Record World : Type := mkWorld {
  resp : ResponseWriter;
  trace : list Event
}.

(** The mail server and the network between: what each client call returns,
    given everything that happened before. *)
Record Network : Type := mkNetwork {
  reply : list Event -> smtp_op -> error;
  extension : list Event -> string -> bool
}.

Definition IO (A : Type) : Type := World -> A * World.

Definition ret {A} (a : A) : IO A := fun w => (a, w).

Definition bind {A B} (c : IO A) (k : A -> IO B) : IO B :=
  fun w => let (a, w') := c w in k a w'.

Declare Scope io_scope.
Delimit Scope io_scope with io.
Notation "x <- c ;; k" := (bind c (fun x => k))
  (at level 100, c at next level, right associativity) : io_scope.
Notation "c ;; k" := (bind c (fun _ => k))
  (at level 100, right associativity) : io_scope.
Local Open Scope io_scope.

Definition emit (e : Event) : IO unit :=
  fun w => (tt, {| resp := resp w; trace := trace w ++ [e] |}).

Definition observe {A} (f : list Event -> A) (ev : A -> Event) : IO A :=
  fun w => let a := f (trace w) in
           (a, {| resp := resp w; trace := trace w ++ [ev a] |}).

(** A deferred call runs when the function returns, after the result has
    been computed; what the deferred call returns is dropped. *)
Definition defer {A B} (cleanup : IO B) (body : IO A) : IO A :=
  a <- body ;; cleanup ;; ret a.

(** [if err := c; err != nil { return fmt.Errorf(format, err) }], then [k]. *)
Definition orReturn (c : IO error) (format : string) (k : IO error) : IO error :=
  err <- c ;;
  match err with
  | Some e => ret (Errorf format [e])
  | None => k
  end.

Notation "'try' c 'or' wrap ;; k" := (orReturn c wrap k)
  (at level 100, c at next level, wrap at next level, right associativity) : io_scope.

Definition log_Printf (format : string) (args : list string) : IO unit :=
  emit (EvLog (Sprintf format args)).

(** ** internal/email, the revision with an explicit SMTP session
    (internal/email/sender.go) *)

Module email.
Section WithNetwork.
Variable net : Network.

Record Sender : Type := mkSender { config : Config }.

Definition NewSender (cfg : Config) : Sender := {| config := cfg |}.

Definition smtp (op : smtp_op) : IO error :=
  observe (fun t => reply net t op) (EvSmtp op).

Definition Extension (ext : string) : IO bool :=
  observe (fun t => extension net t ext) (EvExtension ext).

Definition msg (s : Sender) (to subject body : string) : string :=
  Sprintf ("From: %s" +:+ CRLF +:+
           "To: %s" +:+ CRLF +:+
           "Subject: %s" +:+ CRLF +:+
           "MIME-Version: 1.0" +:+ CRLF +:+
           "Content-Type: text/html; charset=UTF-8" +:+ CRLF +:+
           CRLF +:+
           "%s" +:+ CRLF)
          [FromEmail (config s); to; subject; body].

Definition Send (s : Sender) (to subject body : string) : IO error :=
  let addr := Sprintf "%s:%s" [SMTPHost (config s); SMTPPort (config s)] in
  err <- smtp (smtp_Dial addr) ;;
  match err with
  | Some e => ret (Errorf "failed to connect to SMTP server: %w" [e])
  | None =>
    defer (smtp client_Close)
     (try smtp (client_Hello (SMTPHost (config s))) or "failed to send HELLO: %w" ;;
      ok <- Extension "STARTTLS" ;;
      try (if ok : bool then smtp (client_StartTLS (SMTPHost (config s))) else ret None)
        or "failed to start TLS: %w" ;;
      let auth := PlainAuth EmptyString (SMTPUser (config s))
                            (SMTPPassword (config s)) (SMTPHost (config s)) in
      try smtp (client_Auth auth) or "authentication failed: %w" ;;
      try smtp (client_Mail (FromEmail (config s))) or "failed to set sender: %w" ;;
      try smtp (client_Rcpt to) or "failed to set recipient: %w" ;;
      try smtp client_Data or "failed to open data writer: %w" ;;
      try smtp (data_Write (msg s to subject body)) or "failed to write message: %w" ;;
      try smtp data_Close or "failed to close data writer: %w" ;;
      smtp client_Quit)
  end.

Definition notificationFormat : string :=
  LF +:+
  TAB +:+ TAB +:+ "<html>" +:+ LF +:+
  TAB +:+ TAB +:+ "<body>" +:+ LF +:+
  TAB +:+ TAB +:+ TAB +:+ "<h2>New Contact Form Submission</h2>" +:+ LF +:+
  TAB +:+ TAB +:+ TAB +:+ "<p><strong>Name:</strong> %s</p>" +:+ LF +:+
  TAB +:+ TAB +:+ TAB +:+ "<p><strong>Email:</strong> %s</p>" +:+ LF +:+
  TAB +:+ TAB +:+ TAB +:+ "<p><strong>Subject:</strong> %s</p>" +:+ LF +:+
  TAB +:+ TAB +:+ TAB +:+ "<p><strong>Message:</strong></p>" +:+ LF +:+
  TAB +:+ TAB +:+ TAB +:+ "<p>%s</p>" +:+ LF +:+
  TAB +:+ TAB +:+ "</body>" +:+ LF +:+
  TAB +:+ TAB +:+ "</html>" +:+ LF +:+
  TAB.

Definition recipientSubject (subject : string) : string :=
  Sprintf "New Contact Form Submission: %s" [subject].

Definition recipientBody (name email subject message : string) : string :=
  Sprintf notificationFormat [name; email; subject; ReplaceAll message LF "<br>"].

Definition SendContactNotification (s : Sender) (name email subject message : string)
  : IO error :=
  emit (EvDispatch (Notification name email subject message)) ;;
  err <- Send s (RecipientEmail (config s)) (recipientSubject subject)
              (recipientBody name email subject message) ;;
  emit (EvDispatchDone (Notification name email subject message) err) ;;
  ret err.

Definition confirmationFormat : string :=
  LF +:+
  TAB +:+ TAB +:+ "<html>" +:+ LF +:+
  TAB +:+ TAB +:+ "<body>" +:+ LF +:+
  TAB +:+ TAB +:+ TAB +:+ "<h2>Thank you for your message, %s!</h2>" +:+ LF +:+
  TAB +:+ TAB +:+ TAB +:+ "<p>We have received your contact form submission and will get back to you as soon as possible.</p>" +:+ LF +:+
  TAB +:+ TAB +:+ TAB +:+ "<hr>" +:+ LF +:+
  TAB +:+ TAB +:+ TAB +:+ "<p><strong>Your message:</strong></p>" +:+ LF +:+
  TAB +:+ TAB +:+ TAB +:+ "<p>%s</p>" +:+ LF +:+
  TAB +:+ TAB +:+ TAB +:+ "<hr>" +:+ LF +:+
  TAB +:+ TAB +:+ TAB +:+ "<p>Best regards</p>" +:+ LF +:+
  TAB +:+ TAB +:+ "</body>" +:+ LF +:+
  TAB +:+ TAB +:+ "</html>" +:+ LF +:+
  TAB.

Definition confirmationSubject : string := "Thank you for contacting us".

Definition confirmationBody (name message : string) : string :=
  Sprintf confirmationFormat [name; ReplaceAll message LF "<br>"].

Definition SendConfirmation (s : Sender) (name email message : string) : IO error :=
  emit (EvDispatch (Confirmation name email message)) ;;
  err <- Send s email confirmationSubject (confirmationBody name message) ;;
  emit (EvDispatchDone (Confirmation name email message) err) ;;
  ret err.

End WithNetwork.
End email.

(** ** internal/email, the revision on [smtp.SendMail]

    The same package with [Send] as one call of [smtp.SendMail]; the two
    dispatch methods are those of the other revision. *)

Module email_sendmail.
Section WithNetwork.
Variable net : Network.

Record Sender : Type := mkSender { config : Config }.

Definition NewSender (cfg : Config) : Sender := {| config := cfg |}.

Definition smtp (op : smtp_op) : IO error :=
  observe (fun t => reply net t op) (EvSmtp op).

Definition msg (s : Sender) (to subject body : string) : string :=
  Sprintf ("From: %s" +:+ CRLF +:+
           "To: %s" +:+ CRLF +:+
           "Subject: %s" +:+ CRLF +:+
           "MIME-Version: 1.0" +:+ CRLF +:+
           "Content-Type: text/html; charset=UTF-8" +:+ CRLF +:+
           CRLF +:+
           "%s" +:+ CRLF)
          [FromEmail (config s); to; subject; body].

Definition Send (s : Sender) (to subject body : string) : IO error :=
  let auth := PlainAuth EmptyString (SMTPUser (config s))
                        (SMTPPassword (config s)) (SMTPHost (config s)) in
  let addr := Sprintf "%s:%s" [SMTPHost (config s); SMTPPort (config s)] in
  smtp (smtp_SendMail addr auth (FromEmail (config s)) [to] (msg s to subject body)).

Definition notificationFormat : string :=
  LF +:+
  TAB +:+ TAB +:+ "<html>" +:+ LF +:+
  TAB +:+ TAB +:+ "<body>" +:+ LF +:+
  TAB +:+ TAB +:+ TAB +:+ "<h2>New Contact Form Submission</h2>" +:+ LF +:+
  TAB +:+ TAB +:+ TAB +:+ "<p><strong>Name:</strong> %s</p>" +:+ LF +:+
  TAB +:+ TAB +:+ TAB +:+ "<p><strong>Email:</strong> %s</p>" +:+ LF +:+
  TAB +:+ TAB +:+ TAB +:+ "<p><strong>Subject:</strong> %s</p>" +:+ LF +:+
  TAB +:+ TAB +:+ TAB +:+ "<p><strong>Message:</strong></p>" +:+ LF +:+
  TAB +:+ TAB +:+ TAB +:+ "<p>%s</p>" +:+ LF +:+
  TAB +:+ TAB +:+ "</body>" +:+ LF +:+
  TAB +:+ TAB +:+ "</html>" +:+ LF +:+
  TAB.

Definition recipientSubject (subject : string) : string :=
  Sprintf "New Contact Form Submission: %s" [subject].

Definition recipientBody (name email subject message : string) : string :=
  Sprintf notificationFormat [name; email; subject; ReplaceAll message LF "<br>"].

Definition SendContactNotification (s : Sender) (name email subject message : string)
  : IO error :=
  emit (EvDispatch (Notification name email subject message)) ;;
  err <- Send s (RecipientEmail (config s)) (recipientSubject subject)
              (recipientBody name email subject message) ;;
  emit (EvDispatchDone (Notification name email subject message) err) ;;
  ret err.

Definition confirmationFormat : string :=
  LF +:+
  TAB +:+ TAB +:+ "<html>" +:+ LF +:+
  TAB +:+ TAB +:+ "<body>" +:+ LF +:+
  TAB +:+ TAB +:+ TAB +:+ "<h2>Thank you for your message, %s!</h2>" +:+ LF +:+
  TAB +:+ TAB +:+ TAB +:+ "<p>We have received your contact form submission and will get back to you as soon as possible.</p>" +:+ LF +:+
  TAB +:+ TAB +:+ TAB +:+ "<hr>" +:+ LF +:+
  TAB +:+ TAB +:+ TAB +:+ "<p><strong>Your message:</strong></p>" +:+ LF +:+
  TAB +:+ TAB +:+ TAB +:+ "<p>%s</p>" +:+ LF +:+
  TAB +:+ TAB +:+ TAB +:+ "<hr>" +:+ LF +:+
  TAB +:+ TAB +:+ TAB +:+ "<p>Best regards</p>" +:+ LF +:+
  TAB +:+ TAB +:+ "</body>" +:+ LF +:+
  TAB +:+ TAB +:+ "</html>" +:+ LF +:+
  TAB.

Definition confirmationSubject : string := "Thank you for contacting us".

Definition confirmationBody (name message : string) : string :=
  Sprintf confirmationFormat [name; ReplaceAll message LF "<br>"].

Definition SendConfirmation (s : Sender) (name email message : string) : IO error :=
  emit (EvDispatch (Confirmation name email message)) ;;
  err <- Send s email confirmationSubject (confirmationBody name message) ;;
  emit (EvDispatchDone (Confirmation name email message) err) ;;
  ret err.

End WithNetwork.
End email_sendmail.

(** ** encoding/json, as far as [Decoder.Decode] into a struct of string
    fields goes

    [Decode] reads the first JSON value of the body and stores it into the
    struct: an object's members are matched to the fields by their [json]
    tags (exactly, else without regard to case), a string is stored, [null]
    leaves the field as it is, any other value is a type error (decoding
    goes on, and the first such error is returned at the end); members with
    other keys are skipped.  What follows the first value is not read. *)

Module json.

#[warnings="-register-all"]
Inductive Value : Type :=
| JNull
| JBool (b : bool)
| JNumber (literal : string)
| JString (s : string)
| JArray (elems : list Value)
| JObject (members : list (string * Value)).

Definition kind (v : Value) : string :=
  match v with
  | JNull => "null"
  | JBool _ => "bool"
  | JNumber _ => "number"
  | JString _ => "string"
  | JArray _ => "array"
  | JObject _ => "object"
  end.

(** *** Bytes and runes *)

Definition byte (n : N) : ascii := ascii_of_N n.
Definition code (c : ascii) : N := N_of_ascii c.
Definition between (lo hi : N) (c : ascii) : bool :=
  ((lo <=? code c) && (code c <=? hi))%N.

Definition quote : ascii := byte 34.
Definition backslash : ascii := byte 92.

Definition str1 (c : ascii) : string := String c EmptyString.

(** U+FFFD in UTF-8. *)
Definition replacementChar : string :=
  String (byte 239) (String (byte 191) (String (byte 189) EmptyString)).

(** A continuation byte with the low six bits of [n]. *)
Definition cont (n : N) : ascii := byte (N.lor 128 (N.land n 63)).

(** [utf8.EncodeRune]; a surrogate or a rune past U+10FFFF is written as
    U+FFFD. *)
Definition EncodeRune (r : N) : string :=
  if (r <? 128)%N then str1 (byte r)
  else if (r <? 2048)%N then
    String (byte (N.lor 192 (N.shiftr r 6))) (str1 (cont r))
  else if ((55296 <=? r) && (r <? 57344) || (1114111 <? r))%N then replacementChar
  else if (r <? 65536)%N then
    String (byte (N.lor 224 (N.shiftr r 12)))
      (String (cont (N.shiftr r 6)) (str1 (cont r)))
  else
    String (byte (N.lor 240 (N.shiftr r 18)))
      (String (cont (N.shiftr r 12))
         (String (cont (N.shiftr r 6)) (str1 (cont r)))).

(** A continuation byte. *)
Definition isCont (c : ascii) : bool := between 128 191 c.

(** For the first byte [c] of a sequence of several bytes: the range of the
    second byte, and the number of bytes that follow [c]. *)
Definition second (c : ascii) : option (N * N * nat) :=
  if between 194 223 c then Some (128%N, 191%N, 1)
  else if between 224 224 c then Some (160%N, 191%N, 2)
  else if between 225 236 c then Some (128%N, 191%N, 2)
  else if between 237 237 c then Some (128%N, 159%N, 2)
  else if between 238 239 c then Some (128%N, 191%N, 2)
  else if between 240 240 c then Some (144%N, 191%N, 3)
  else if between 241 243 c then Some (128%N, 191%N, 3)
  else if between 244 244 c then Some (128%N, 143%N, 3)
  else None.

(** The bytes that follow the first byte [c] of a well-formed UTF-8
    sequence at the head of [String c rest], as [utf8.DecodeRune] accepts
    them: [Some k] for a sequence of [k+1] bytes, [None] when the bytes are
    not well-formed (the decoder then reads one byte as U+FFFD). *)
Definition runeTail (c : ascii) (rest : string) : option nat :=
  match second c with
  | None => None
  | Some (lo, hi, k) =>
      match rest with
      | String c1 rest1 =>
          if between lo hi c1 then
            match k, rest1 with
            | 1, _ => Some 1
            | 2, String c2 _ => if isCont c2 then Some 2 else None
            | 3, String c2 (String c3 _) =>
                if isCont c2 && isCont c3 then Some 3 else None
            | _, _ => None
            end
          else None
      | EmptyString => None
      end
  end.

(** The value of a hexadecimal digit. *)
Definition hexval (c : ascii) : option N :=
  if between 48 57 c then Some (code c - 48)%N
  else if between 97 102 c then Some (code c - 87)%N
  else if between 65 70 c then Some (code c - 55)%N
  else None.

(** [getu4]: the value of four hexadecimal digits. *)
Definition getu4 (h1 h2 h3 h4 : ascii) : option N :=
  match hexval h1, hexval h2, hexval h3, hexval h4 with
  | Some a, Some b, Some c, Some d => Some (a * 4096 + b * 256 + c * 16 + d)%N
  | _, _, _, _ => None
  end.

Definition isSurrogate (r : N) : bool := ((55296 <=? r) && (r <? 57344))%N.

(** [utf16.DecodeRune]: the rune of a surrogate pair, U+FFFD otherwise. *)
Definition utf16_DecodeRune (r1 r2 : N) : N :=
  if ((55296 <=? r1) && (r1 <? 56320) && (56320 <=? r2) && (r2 <? 57344))%N
  then ((r1 - 55296) * 1024 + (r2 - 56320) + 65536)%N
  else 65533%N.

Definition prepend (p : string) (r : option (string * string)) : option (string * string) :=
  match r with
  | Some (s, rest) => Some (p +:+ s, rest)
  | None => None
  end.

(** A string literal, read from just after its opening quote: the decoded
    text and what follows the closing quote.  [copy] counts the bytes of a
    well-formed multi-byte rune still to be copied. *)
Fixpoint scanString (copy : nat) (s : string) : option (string * string) :=
  match s with
  | EmptyString => None
  | String c rest =>
    match copy with
    | S k => prepend (str1 c) (scanString k rest)
    | O =>
      if Ascii.eqb c quote then Some (EmptyString, rest)
      else if Ascii.eqb c backslash then
        match rest with
        | String e rest2 =>
          if Ascii.eqb e quote || Ascii.eqb e backslash || Ascii.eqb e "/"
          then prepend (str1 e) (scanString 0 rest2)
          else if Ascii.eqb e "b" then prepend (str1 (byte 8)) (scanString 0 rest2)
          else if Ascii.eqb e "f" then prepend (str1 (byte 12)) (scanString 0 rest2)
          else if Ascii.eqb e "n" then prepend (str1 (byte 10)) (scanString 0 rest2)
          else if Ascii.eqb e "r" then prepend (str1 (byte 13)) (scanString 0 rest2)
          else if Ascii.eqb e "t" then prepend (str1 (byte 9)) (scanString 0 rest2)
          else if Ascii.eqb e "u" then
            match rest2 with
            | String h1 (String h2 (String h3 (String h4 rest6))) =>
              match getu4 h1 h2 h3 h4 with
              | None => None
              | Some rr =>
                if isSurrogate rr then
                  match rest6 with
                  | String b1 (String u1 (String g1 (String g2 (String g3 (String g4 rest12))))) =>
                    match (if Ascii.eqb b1 backslash && Ascii.eqb u1 "u"
                           then getu4 g1 g2 g3 g4 else None) with
                    | Some rr1 =>
                        if (utf16_DecodeRune rr rr1 =? 65533)%N
                        then prepend replacementChar (scanString 0 rest6)
                        else prepend (EncodeRune (utf16_DecodeRune rr rr1))
                                     (scanString 0 rest12)
                    | None => prepend replacementChar (scanString 0 rest6)
                    end
                  | _ => prepend replacementChar (scanString 0 rest6)
                  end
                else prepend (EncodeRune rr) (scanString 0 rest6)
              end
            | _ => None
            end
          else None
        | EmptyString => None
        end
      else if (code c <? 32)%N then None
      else if (code c <? 128)%N then prepend (str1 c) (scanString 0 rest)
      else
        match runeTail c rest with
        | Some k => prepend (str1 c) (scanString k rest)
        | None => prepend replacementChar (scanString 0 rest)
        end
    end
  end.

Definition isSpace (c : ascii) : bool :=
  Ascii.eqb c " " || Ascii.eqb c (byte 9) || Ascii.eqb c (byte 13) || Ascii.eqb c (byte 10).

Fixpoint skipSpace (s : string) : string :=
  match s with
  | String c rest => if isSpace c then skipSpace rest else s
  | EmptyString => s
  end.

Definition isDigit (c : ascii) : bool := between 48 57 c.

(** The digits at the head of [s], and what follows them. *)
Fixpoint digits (s : string) : string * string :=
  match s with
  | String c rest =>
      if isDigit c then let (d, r) := digits rest in (String c d, r)
      else (EmptyString, s)
  | EmptyString => (EmptyString, s)
  end.

(** A number literal: an optional minus sign; a zero, or a digit from 1
    to 9 and then digits; optionally a point and digits; optionally an
    exponent ([e] or [E], an optional sign, digits). *)
Definition scanInt (s : string) : option (string * string) :=
  match s with
  | String c rest =>
      if Ascii.eqb c "0" then Some (str1 c, rest)
      else if between 49 57 c then let (d, r) := digits rest in Some (String c d, r)
      else None
  | EmptyString => None
  end.

Definition scanFrac (s : string) : option (string * string) :=
  match s with
  | String "." rest =>
      match digits rest with
      | (EmptyString, _) => None
      | (d, r) => Some (String "." d, r)
      end
  | _ => Some (EmptyString, s)
  end.

Definition scanExp (s : string) : option (string * string) :=
  match s with
  | String e rest =>
      if Ascii.eqb e "e" || Ascii.eqb e "E" then
        let (sign, rest1) :=
          match rest with
          | String g rest1 =>
              if Ascii.eqb g "+" || Ascii.eqb g "-" then (str1 g, rest1)
              else (EmptyString, rest)
          | EmptyString => (EmptyString, rest)
          end in
        match digits rest1 with
        | (EmptyString, _) => None
        | (d, r) => Some (String e (sign +:+ d), r)
        end
      else Some (EmptyString, s)
  | EmptyString => Some (EmptyString, s)
  end.

Definition scanNumber (s : string) : option (string * string) :=
  let (sign, s1) :=
    match s with
    | String "-" rest => ("-", rest)
    | _ => (EmptyString, s)
    end in
  match scanInt s1 with
  | None => None
  | Some (i, s2) =>
    match scanFrac s2 with
    | None => None
    | Some (f, s3) =>
      match scanExp s3 with
      | None => None
      | Some (e, s4) => Some (sign +:+ i +:+ f +:+ e, s4)
      end
    end
  end.

(** Arrays and objects nest at most this deep. *)
Definition maxNestingDepth : N := 10000.

(** One JSON value at the head of [s] (after white space) and the rest of
    the input; [None] for a syntax error or an incomplete value.  [depth]
    counts the arrays and objects that are open.  [fuel] bounds the depth of
    the calls; the input's length plus one is enough
    ([json_fuel.readValue_fuel] below). *)
Fixpoint scanValue (fuel : nat) (depth : N) (s : string) : option (Value * string) :=
  match fuel with
  | O => None
  | S fuel' =>
    match skipSpace s with
    | String c rest =>
      if Ascii.eqb c "{" then
        if (maxNestingDepth <=? depth)%N then None else
        match skipSpace rest with
        | String "}" rest' => Some (JObject [], rest')
        | _ =>
          match scanMembers fuel' (depth + 1) rest with
          | Some (ms, rest') => Some (JObject ms, rest')
          | None => None
          end
        end
      else if Ascii.eqb c "[" then
        if (maxNestingDepth <=? depth)%N then None else
        match skipSpace rest with
        | String "]" rest' => Some (JArray [], rest')
        | _ =>
          match scanElements fuel' (depth + 1) rest with
          | Some (vs, rest') => Some (JArray vs, rest')
          | None => None
          end
        end
      else if Ascii.eqb c quote then
        match scanString 0 rest with
        | Some (str, rest') => Some (JString str, rest')
        | None => None
        end
      else if HasPrefix (String c rest) "true" then
        Some (JBool true, dropBytes 4 (String c rest))
      else if HasPrefix (String c rest) "false" then
        Some (JBool false, dropBytes 5 (String c rest))
      else if HasPrefix (String c rest) "null" then
        Some (JNull, dropBytes 4 (String c rest))
      else
        match scanNumber (String c rest) with
        | Some (lit, rest') => Some (JNumber lit, rest')
        | None => None
        end
    | EmptyString => None
    end
  end
with scanMembers (fuel : nat) (depth : N) (s : string)
  : option (list (string * Value) * string) :=
  match fuel with
  | O => None
  | S fuel' =>
    match skipSpace s with
    | String c rest =>
      if Ascii.eqb c quote then
        match scanString 0 rest with
        | Some (key, rest1) =>
          match skipSpace rest1 with
          | String ":" rest2 =>
            match scanValue fuel' depth rest2 with
            | Some (v, rest3) =>
              match skipSpace rest3 with
              | String "," rest4 =>
                  match scanMembers fuel' depth rest4 with
                  | Some (ms, rest5) => Some ((key, v) :: ms, rest5)
                  | None => None
                  end
              | String "}" rest4 => Some ([(key, v)], rest4)
              | _ => None
              end
            | None => None
            end
          | _ => None
          end
        | None => None
        end
      else None
    | EmptyString => None
    end
  end
with scanElements (fuel : nat) (depth : N) (s : string) : option (list Value * string) :=
  match fuel with
  | O => None
  | S fuel' =>
    match scanValue fuel' depth s with
    | Some (v, rest1) =>
      match skipSpace rest1 with
      | String "," rest2 =>
          match scanElements fuel' depth rest2 with
          | Some (vs, rest3) => Some (v :: vs, rest3)
          | None => None
          end
      | String "]" rest2 => Some ([v], rest2)
      | _ => None
      end
    | None => None
    end
  end.

(** The first value of the input, as [Decoder.Decode] reads it. *)
Definition readValue (input : string) : Value + string :=
  match scanValue (S (String.length input)) 0 input with
  | Some (v, _) => inl v
  | None => inr "invalid or incomplete JSON value"
  end.

(** *** Storing a value into a struct of string fields *)

(** [foldName], up to what decides whether a key equals an ASCII field
    name: ASCII letters in upper case, and the two runes outside ASCII that
    fold to an ASCII letter (U+017F to S, U+212A to K). *)
Fixpoint foldName (s : string) : string :=
  match s with
  | EmptyString => EmptyString
  | String c rest =>
    if between 97 122 c then String (byte (code c - 32)) (foldName rest)
    else
      match rest with
      | String c1 rest1 =>
        if Ascii.eqb c (byte 197) && Ascii.eqb c1 (byte 191)
        then String "S" (foldName rest1)
        else
          match rest1 with
          | String c2 rest2 =>
            if Ascii.eqb c (byte 226) && Ascii.eqb c1 (byte 132) && Ascii.eqb c2 (byte 170)
            then String "K" (foldName rest2)
            else String c (foldName rest)
          | EmptyString => String c (foldName rest)
          end
      | EmptyString => String c (foldName rest)
      end
  end.

Section Struct.
Context {T : Type}.
(** The struct's fields: the name in the [json] tag and the assignment
    to the field. *)
Variable fields : list (string * (T -> string -> T)).

Definition byExactName (key : string) : option (T -> string -> T) :=
  snd <$> List.find (fun f => String.eqb (fst f) key) fields.

Definition byFoldedName (key : string) : option (T -> string -> T) :=
  snd <$> List.find (fun f => String.eqb (foldName (fst f)) (foldName key)) fields.

Definition findField (key : string) : option (T -> string -> T) :=
  match byExactName key with
  | Some f => Some f
  | None => byFoldedName key
  end.

Definition saveError (saved : error) (e : string) : error :=
  match saved with
  | Some e0 => Some e0
  | None => Some e
  end.

Fixpoint object (members : list (string * Value)) (v : T) (saved : error) : T * error :=
  match members with
  | [] => (v, saved)
  | (key, val) :: rest =>
    match findField key with
    | None => object rest v saved
    | Some set =>
      match val with
      | JString str => object rest (set v str) saved
      | JNull => object rest v saved
      | _ => object rest v
               (saveError saved
                  (Sprintf "json: cannot unmarshal %s into Go struct field %s of type string"
                           [kind val; key]))
      end
    end
  end.

Definition unmarshal (val : Value) (v : T) : T * error :=
  match val with
  | JObject members => object members v None
  | JNull => (v, None)
  | _ => (v, Some (Sprintf "json: cannot unmarshal %s into Go value of struct type" [kind val]))
  end.

(** [json.NewDecoder(body).Decode(&v)], given how the first value of the
    body reads. *)
Definition Decode (read : string -> Value + string) (input : string) (v : T) : T * error :=
  match read input with
  | inr e => (v, Some e)
  | inl val => unmarshal val v
  end.
End Struct.

End json.

(** ** internal/handler *)

Module handler.

Record ContactForm : Type := mkContactForm {
  Name : string;
  Email : string;
  Subject : string;
  Message : string
}.

(** The [json] tags of the struct's fields. *)
Definition jsonFields : list (string * (ContactForm -> string -> ContactForm)) :=
  [("name", fun f v => {| Name := v; Email := Email f;
                          Subject := Subject f; Message := Message f |});
   ("email", fun f v => {| Name := Name f; Email := v;
                           Subject := Subject f; Message := Message f |});
   ("subject", fun f v => {| Name := Name f; Email := Email f;
                             Subject := v; Message := Message f |});
   ("message", fun f v => {| Name := Name f; Email := Email f;
                             Subject := Subject f; Message := v |})].

(** [var form ContactForm]: the zero value. *)
Definition zeroContactForm : ContactForm :=
  {| Name := EmptyString; Email := EmptyString;
     Subject := EmptyString; Message := EmptyString |}.

(** [http.Request], as far as the handler and the parsers it calls read it. *)
Record Request : Type := mkRequest {
  Method : string;
  Header : gmap string (list string);
  RawQuery : string;
  Body : string
}.

Definition MethodOptions : string := "OPTIONS".
Definition MethodPost : string := "POST".
Definition StatusOK : nat := 200.
Definition StatusBadRequest : nat := 400.
Definition StatusMethodNotAllowed : nat := 405.
Definition StatusInternalServerError : nat := 500.

(** [url.Values.Get], which [r.FormValue(key)] returns once the form is
    parsed: the first value of [key], or the empty string. *)
Definition FormValue (form : gmap string (list string)) (key : string) : string :=
  match form !! key with
  | Some (v :: _) => v
  | _ => EmptyString
  end.

(** Operations on the response writer. *)
Definition w_Header_Set (key value : string) : IO unit :=
  fun w =>
    (tt, {| resp := {| header := Header_Set (header (resp w)) key value;
                       status := status (resp w);
                       body := body (resp w) |};
            trace := trace w ++ [EvSetHeader key value] |}).

Definition w_Header_Del (key : string) : IO unit :=
  fun w =>
    (tt, {| resp := {| header := Header_Del (header (resp w)) key;
                       status := status (resp w);
                       body := body (resp w) |};
            trace := trace w ++ [EvDelHeader key] |}).

(** Only the first [WriteHeader] of a response takes effect. *)
Definition w_WriteHeader (code : nat) : IO unit :=
  fun w =>
    (tt, {| resp := {| header := header (resp w);
                       status := match status (resp w) with
                                 | Some c => Some c
                                 | None => Some code
                                 end;
                       body := body (resp w) |};
            trace := trace w ++ [EvWriteHeader code] |}).

(** A write before any [WriteHeader] sends status 200 first. *)
Definition w_Write (c : Chunk) : IO unit :=
  fun w =>
    (tt, {| resp := {| header := header (resp w);
                       status := match status (resp w) with
                                 | Some c => Some c
                                 | None => Some StatusOK
                                 end;
                       body := body (resp w) ++ [c] |};
            trace := trace w ++ [EvWrite c] |}).

(** [http.Error(w, error, code)]. *)
Definition http_Error (error : string) (code : nat) : IO unit :=
  w_Header_Del "Content-Length" ;;
  w_Header_Set "Content-Type" "text/plain; charset=utf-8" ;;
  w_Header_Set "X-Content-Type-Options" "nosniff" ;;
  w_WriteHeader code ;;
  w_Write (Println error).

(** [json.NewEncoder(w).Encode(v)]. *)
Definition Encode (v : gmap string string) : IO unit := w_Write (JSONLine v).

Section WithPlatform.
(** The mail server, and the two standard-library readers under the
    handler: how the first JSON value of a body reads (a value, or a
    syntax error), and what [r.ParseForm()] leaves in [r.Form] and
    returns. *)
Variable net : Network.
Variable readValue : string -> json.Value + string.
Variable ParseForm : Request -> gmap string (list string) * error.

Record ContactHandler : Type := mkContactHandler {
  emailSender : email.Sender;
  corsOrigin : string
}.

Definition NewContactHandler (emailSender : email.Sender) (corsOrigin : string)
  : ContactHandler :=
  {| emailSender := emailSender; corsOrigin := corsOrigin |}.

(** Lines 50-69: the submitted fields, or [None] when the handler has
    answered 400 and returned. *)
Definition parseBody (r : Request) : IO (option ContactForm) :=
  let form := zeroContactForm in
  let contentType := Header_Get (Header r) "Content-Type" in
  if Contains contentType "application/json" then
    emit EvDecodeJSON ;;
    let (form, err) := json.Decode jsonFields readValue (Body r) form in
    match err with
    | Some _ => http_Error "Invalid JSON format" StatusBadRequest ;; ret None
    | None => ret (Some form)
    end
  else
    emit EvParseForm ;;
    let (Form, err) := ParseForm r in
    match err with
    | Some _ => http_Error "Failed to parse form" StatusBadRequest ;; ret None
    | None =>
        ret (Some {| Name := FormValue Form "name";
                     Email := FormValue Form "email";
                     Subject := FormValue Form "subject";
                     Message := FormValue Form "message" |})
    end.

Definition successBody : gmap string string :=
  {[ "status" := "success";
     "message" := "Your message has been sent successfully" ]}.

Definition ServeHTTP (h : ContactHandler) (r : Request) : IO unit :=
  w_Header_Set "Access-Control-Allow-Origin" (corsOrigin h) ;;
  w_Header_Set "Access-Control-Allow-Methods" "POST, OPTIONS" ;;
  w_Header_Set "Access-Control-Allow-Headers" "Content-Type" ;;
  if String.eqb (Method r) MethodOptions then
    w_WriteHeader StatusOK
  else if negb (String.eqb (Method r) MethodPost) then
    http_Error "Method not allowed" StatusMethodNotAllowed
  else
    parsed <- parseBody r ;;
    match parsed with
    | None => ret tt
    | Some form =>
      if String.eqb (Name form) EmptyString
         || String.eqb (Email form) EmptyString
         || String.eqb (Message form) EmptyString
      then
        http_Error "Name, email, and message are required" StatusBadRequest
      else
        err <- email.SendContactNotification net (emailSender h)
                 (Name form) (Email form) (Subject form) (Message form) ;;
        match err with
        | Some e =>
            log_Printf "Failed to send email to recipient: %v" [e] ;;
            http_Error "Failed to send email" StatusInternalServerError
        | None =>
            err <- email.SendConfirmation net (emailSender h)
                     (Name form) (Email form) (Message form) ;;
            match err with
            | Some e =>
                log_Printf "Failed to send confirmation email to customer: %v" [e]
            | None => ret tt
            end ;;
            w_Header_Set "Content-Type" "application/json" ;;
            w_WriteHeader StatusOK ;;
            Encode successBody
        end
    end.

End WithPlatform.
End handler.

(** ** net/url and net/http, as far as [Request.ParseForm] goes *)

Module url.

Definition ishex (c : ascii) : bool :=
  json.between 48 57 c || json.between 97 102 c || json.between 65 70 c.

Definition unhex (c : ascii) : N :=
  if json.between 48 57 c then (json.code c - 48)%N
  else if json.between 97 102 c then (json.code c - 97 + 10)%N
  else if json.between 65 70 c then (json.code c - 65 + 10)%N
  else 0%N.

(** [url.QueryUnescape]: [%XX] is the byte [XX], [+] is a space; a [%]
    that two hexadecimal digits do not follow is an error. *)
Fixpoint QueryUnescape (s : string) : string + string :=
  match s with
  | EmptyString => inl EmptyString
  | String c rest =>
    if Ascii.eqb c "%" then
      match rest with
      | String a (String b rest') =>
        if ishex a && ishex b then
          match QueryUnescape rest' with
          | inl t => inl (String (json.byte (unhex a * 16 + unhex b)) t)
          | inr e => inr e
          end
        else inr "invalid URL escape"
      | _ => inr "invalid URL escape"
      end
    else
      match QueryUnescape rest with
      | inl t => inl (String (if Ascii.eqb c "+" then " "%char else c) t)
      | inr e => inr e
      end
  end.

(** [strings.Split(s, sep)] for a separator of one byte. *)
Fixpoint Split (s : string) (sep : ascii) : list string :=
  match s with
  | EmptyString => [EmptyString]
  | String c rest =>
    if Ascii.eqb c sep then EmptyString :: Split rest sep
    else
      match Split rest sep with
      | piece :: pieces => String c piece :: pieces
      | [] => [String c EmptyString]
      end
  end.

(** [strings.Cut(s, sep)] for a separator of one byte: what is before the
    first [sep] and what is after it. *)
Fixpoint Cut (s : string) (sep : ascii) : string * string :=
  match s with
  | EmptyString => (EmptyString, EmptyString)
  | String c rest =>
    if Ascii.eqb c sep then (EmptyString, rest)
    else let (before, after) := Cut rest sep in (String c before, after)
  end.

Definition firstError (err : error) (e : string) : error :=
  match err with
  | Some e0 => Some e0
  | None => Some e
  end.

(** One turn of the loop of [parseQuery], on the piece up to the next [&]. *)
Definition parsePair (acc : gmap string (list string) * error) (piece : string)
  : gmap string (list string) * error :=
  let (m, err) := acc in
  if Contains piece ";" then (m, Some "invalid semicolon separator in query")
  else if String.eqb piece EmptyString then (m, err)
  else
    let (key, value) := Cut piece "=" in
    match QueryUnescape key with
    | inr e => (m, firstError err e)
    | inl key =>
      match QueryUnescape value with
      | inr e => (m, firstError err e)
      | inl value => (<[key := default [] (m !! key) ++ [value]]> m, err)
      end
    end.

(** [url.ParseQuery]. *)
Definition ParseQuery (query : string) : gmap string (list string) * error :=
  fold_left parsePair (Split query "&") (∅, None).

End url.

Module http.
Import handler.

Fixpoint lengthN (s : string) : N :=
  match s with
  | EmptyString => 0%N
  | String _ rest => N.succ (lengthN rest)
  end.

(** [copyValues(dst, src)]: the values of [src] come after those of [dst]. *)
Definition copyValues (dst src : gmap string (list string)) : gmap string (list string) :=
  union_with (fun vs ws => Some (vs ++ ws)) dst src.

Section WithMime.
(** [mime.ParseMediaType], taken as given: the media type of a
    Content-Type value, in lower case and without its parameters, and the
    error of the parse. *)
Variable ParseMediaType : string -> string * error.

Definition parsePostForm (r : Request) : gmap string (list string) * error :=
  let ct := Header_Get (Header r) "Content-Type" in
  let ct := if String.eqb ct EmptyString then "application/octet-stream" else ct in
  let (ct, err) := ParseMediaType ct in
  if String.eqb ct "application/x-www-form-urlencoded" then
    if (10485760 <? lengthN (Body r))%N then (∅, Some "http: POST too large")
    else
      let (vs, e) := url.ParseQuery (Body r) in
      (vs, match err with Some _ => err | None => e end)
  else (∅, err).

(** [r.ParseForm()], on a request whose form has not been parsed yet: the
    values of the body come before those of the URL's query. *)
Definition ParseForm (r : Request) : gmap string (list string) * error :=
  let (PostForm, err) :=
    if String.eqb (Method r) "POST" || String.eqb (Method r) "PUT"
       || String.eqb (Method r) "PATCH"
    then parsePostForm r
    else (∅, None) in
  let (newValues, e) := url.ParseQuery (RawQuery r) in
  (copyValues PostForm newValues, match err with Some _ => err | None => e end).

End WithMime.
End http.

(** ** cmd/server *)

Module server.
Import handler.

(** How [main] ends: [log.Fatal] after the configuration check, [log.Fatal]
    with the error [http.ListenAndServe] returned, or the server listening
    on [addr] with its routes (and [ListenAndServe] not returning). *)
Inductive Process : Type :=
| FatalConfig (line : string)
| FatalListen (line : string)
| Serving (routes : gmap string ContactHandler) (addr : string).

Definition main (env : gmap string string) (ListenAndServe : string -> error)
  : Process :=
  let cfg := Load env in
  if String.eqb (SMTPUser cfg) EmptyString
     || String.eqb (SMTPPassword cfg) EmptyString
     || String.eqb (RecipientEmail cfg) EmptyString
  then FatalConfig "SMTP_USER, SMTP_PASSWORD, and RECIPIENT_EMAIL must be set"
  else
    let emailSender := email.NewSender cfg in
    let contactHandler := NewContactHandler emailSender (CORSOrigin cfg) in
    let routes : gmap string ContactHandler := {[ "/contact" := contactHandler ]} in
    match ListenAndServe (":" +:+ ServerPort cfg) with
    | Some err => FatalListen err
    | None => Serving routes (":" +:+ ServerPort cfg)
    end.

End server.

(** * Observations on a run

    What the properties below are stated with: a fresh response writer, the
    run of the handler on one request, and projections of its trace. *)

Import handler.

Definition newResponse : ResponseWriter :=
  {| header := ∅; status := None; body := [] |}.

Definition newWorld : World := {| resp := newResponse; trace := [] |}.

(** The world after [ServeHTTP] has handled [r] with a fresh response writer. *)
Definition run (net : Network) (readValue : string -> json.Value + string)
    (ParseForm : Request -> gmap string (list string) * error)
    (h : ContactHandler) (r : Request) : World :=
  snd (ServeHTTP net readValue ParseForm h r newWorld).

(** The fields a request parses to, if it parses. *)
Definition parsed (readValue : string -> json.Value + string)
    (ParseForm : Request -> gmap string (list string) * error)
    (r : Request) : option ContactForm :=
  fst (parseBody readValue ParseForm r newWorld).

(** Events on the SMTP wire, and events of the mail dispatcher at large
    (calls of the two dispatch methods, their returns, and the wire). *)
Definition isWire (e : Event) : bool :=
  match e with
  | EvSmtp _ _ | EvExtension _ _ => true
  | _ => false
  end.

Definition isMail (e : Event) : bool :=
  match e with
  | EvDispatch _ | EvDispatchDone _ _ | EvSmtp _ _ | EvExtension _ _ => true
  | _ => false
  end.

Definition mail (t : list Event) : list Event := List.filter isMail t.

(** The events of reading the body. *)
Definition isParse (e : Event) : bool :=
  match e with
  | EvDecodeJSON | EvParseForm => true
  | _ => false
  end.

Definition parses (t : list Event) : list Event := List.filter isParse t.

(** The three CORS headers are in a header map, with the configured origin. *)
Definition corsSet (origin : string) (hd : gmap string (list string)) : Prop :=
  hd !! "Access-Control-Allow-Origin" = Some [origin] /\
  hd !! "Access-Control-Allow-Methods" = Some ["POST, OPTIONS"] /\
  hd !! "Access-Control-Allow-Headers" = Some ["Content-Type"].

Definition corsEvents (origin : string) : list Event :=
  [EvSetHeader "Access-Control-Allow-Origin" origin;
   EvSetHeader "Access-Control-Allow-Methods" "POST, OPTIONS";
   EvSetHeader "Access-Control-Allow-Headers" "Content-Type"].

Definition corsHeader (origin : string) : gmap string (list string) :=
  Header_Set (Header_Set (Header_Set ∅
    "Access-Control-Allow-Origin" origin)
    "Access-Control-Allow-Methods" "POST, OPTIONS")
    "Access-Control-Allow-Headers" "Content-Type".

(** What [http.Error] does to the response of a handler that has only set
    the CORS headers. *)
Definition errorEvents (msg : string) (code : nat) : list Event :=
  [EvDelHeader "Content-Length";
   EvSetHeader "Content-Type" "text/plain; charset=utf-8";
   EvSetHeader "X-Content-Type-Options" "nosniff";
   EvWriteHeader code;
   EvWrite (Println msg)].

Definition errorResponse (origin msg : string) (code : nat) : ResponseWriter :=
  {| header := Header_Set (Header_Set (Header_Del (corsHeader origin) "Content-Length")
                 "Content-Type" "text/plain; charset=utf-8")
                 "X-Content-Type-Options" "nosniff";
     status := Some code;
     body := [Println msg] |}.

Definition successEvents : list Event :=
  [EvSetHeader "Content-Type" "application/json";
   EvWriteHeader 200;
   EvWrite (JSONLine successBody)].

Definition successResponse (origin : string) : ResponseWriter :=
  {| header := Header_Set (corsHeader origin) "Content-Type" "application/json";
     status := Some 200;
     body := [JSONLine successBody] |}.

Definition parseEvent (r : Request) : Event :=
  if Contains (Header_Get (Header r) "Content-Type") "application/json"
  then EvDecodeJSON else EvParseForm.

(** The message of the 400 answer to a body that does not parse. *)
Definition parseFailure (r : Request) : string :=
  if Contains (Header_Get (Header r) "Content-Type") "application/json"
  then "Invalid JSON format" else "Failed to parse form".

(** [Send], called when the trace is [t], returns [err] and adds [wire] to
    the trace. *)
Definition sends (net : Network) (s : email.Sender) (to subject body : string)
    (t : list Event) (err : error) (wire : list Event) : Prop :=
  forall rw, email.Send net s to subject body {| resp := rw; trace := t |}
             = (err, {| resp := rw; trace := t ++ wire |}).

(** The wire of a session that went through: every call returned [nil], but
    for the deferred [Close], whose result is dropped. *)
Definition sessionOK (s : email.Sender) (to subject body : string)
    (tls : bool) (closed : error) : list Event :=
  [EvSmtp (smtp_Dial (Sprintf "%s:%s" [SMTPHost (email.config s); SMTPPort (email.config s)])) None;
   EvSmtp (client_Hello (SMTPHost (email.config s))) None;
   EvExtension "STARTTLS" tls]
  ++ (if tls then [EvSmtp (client_StartTLS (SMTPHost (email.config s))) None] else [])
  ++ [EvSmtp (client_Auth (PlainAuth EmptyString (SMTPUser (email.config s))
                             (SMTPPassword (email.config s)) (SMTPHost (email.config s)))) None;
      EvSmtp (client_Mail (FromEmail (email.config s))) None;
      EvSmtp (client_Rcpt to) None;
      EvSmtp client_Data None;
      EvSmtp (data_Write (email.msg s to subject body)) None;
      EvSmtp data_Close None;
      EvSmtp client_Quit None;
      EvSmtp client_Close closed].

(** The envelope and the message a wire event carries are those of a mail
    from the configured sender to [to], with [subject] and [body]. *)
Definition envelopeOK (s : email.Sender) (to subject body : string) (e : Event) : bool :=
  match e with
  | EvSmtp (client_Mail from) _ => String.eqb from (FromEmail (email.config s))
  | EvSmtp (client_Rcpt to') _ => String.eqb to' to
  | EvSmtp (data_Write m) _ => String.eqb m (email.msg s to subject body)
  | EvSmtp (smtp_SendMail _ _ _ _ _) _ => false
  | _ => true
  end.

(** The mails a trace puts on the wire: envelope sender, recipients and
    data, for a session by the [Mail], [Rcpt] and [Write] calls that went
    through, for [smtp.SendMail] by its arguments. *)
Definition envelopeFrom (t : list Event) : list string :=
  flat_map (fun e => match e with
                     | EvSmtp (client_Mail from) None => [from]
                     | EvSmtp (smtp_SendMail _ _ from _ _) _ => [from]
                     | _ => []
                     end) t.

Definition envelopeTo (t : list Event) : list string :=
  flat_map (fun e => match e with
                     | EvSmtp (client_Rcpt to) None => [to]
                     | EvSmtp (smtp_SendMail _ _ _ to _) _ => to
                     | _ => []
                     end) t.

Definition dataSent (t : list Event) : list string :=
  flat_map (fun e => match e with
                     | EvSmtp (data_Write m) None => [m]
                     | EvSmtp (smtp_SendMail _ _ _ _ m) _ => [m]
                     | _ => []
                     end) t.

(** Every line feed of [s] replaced by [<br>]. *)
Fixpoint newlinesToBreaks (s : string) : string :=
  match s with
  | EmptyString => EmptyString
  | String c rest =>
      if Ascii.eqb c (ascii_of_nat 10) then "<br>" +:+ newlinesToBreaks rest
      else String c (newlinesToBreaks rest)
  end.

(** * A payload in the two encodings

    What a client sends for the payload [p]: the JSON object with the four
    members, strings quoted as [JSON.stringify] and [json.Marshal] do (the
    quote and the backslash escaped by a backslash, a control byte as a
    [\u00XX] escape, every other byte as it is); and the form body with the
    four fields, values escaped as [url.QueryEscape] does (letters, digits
    and [-_.~] as they are, a space as [+], any other byte as [%XX]). *)

Definition dq : string := json.str1 json.quote.

Definition hexLower (n : N) : ascii :=
  if (n <? 10)%N then json.byte (48 + n) else json.byte (87 + n).

Definition hexUpper (n : N) : ascii :=
  if (n <? 10)%N then json.byte (48 + n) else json.byte (55 + n).

Definition jsonEscapeByte (c : ascii) : string :=
  if Ascii.eqb c json.quote then String json.backslash (json.str1 json.quote)
  else if Ascii.eqb c json.backslash then String json.backslash (json.str1 json.backslash)
  else if (json.code c <? 32)%N then
    String json.backslash
      (String "u" (String "0" (String "0"
         (String (hexLower (json.code c / 16)) (json.str1 (hexLower (json.code c mod 16)))))))
  else json.str1 c.

Fixpoint jsonEscape (s : string) : string :=
  match s with
  | EmptyString => EmptyString
  | String c rest => jsonEscapeByte c +:+ jsonEscape rest
  end.

Definition jsonQuote (s : string) : string := dq +:+ jsonEscape s +:+ dq.

Definition jsonEncode (p : ContactForm) : string :=
  "{" +:+ jsonQuote "name" +:+ ":" +:+ jsonQuote (Name p) +:+ ","
  +:+ jsonQuote "email" +:+ ":" +:+ jsonQuote (Email p) +:+ ","
  +:+ jsonQuote "subject" +:+ ":" +:+ jsonQuote (Subject p) +:+ ","
  +:+ jsonQuote "message" +:+ ":" +:+ jsonQuote (Message p) +:+ "}".

Definition unreserved (c : ascii) : bool :=
  json.between 97 122 c || json.between 65 90 c || json.between 48 57 c
  || Ascii.eqb c "-" || Ascii.eqb c "_" || Ascii.eqb c "." || Ascii.eqb c "~".

Definition queryEscapeByte (c : ascii) : string :=
  if unreserved c then json.str1 c
  else if Ascii.eqb c " " then "+"
  else String "%" (String (hexUpper (json.code c / 16))
                     (json.str1 (hexUpper (json.code c mod 16)))).

Fixpoint QueryEscape (s : string) : string :=
  match s with
  | EmptyString => EmptyString
  | String c rest => queryEscapeByte c +:+ QueryEscape rest
  end.

Definition formEncode (p : ContactForm) : string :=
  "name=" +:+ QueryEscape (Name p)
  +:+ "&email=" +:+ QueryEscape (Email p)
  +:+ "&subject=" +:+ QueryEscape (Subject p)
  +:+ "&message=" +:+ QueryEscape (Message p).

(** Well-formed UTF-8, as [utf8.ValidString] has it; [pending] counts the
    continuation bytes the rune under way still needs. *)
Fixpoint wellFormed (pending : nat) (s : string) : bool :=
  match s with
  | EmptyString => match pending with O => true | S _ => false end
  | String c rest =>
    match pending with
    | S k => json.isCont c && wellFormed k rest
    | O =>
      if (json.code c <? 128)%N then wellFormed 0 rest
      else
        match json.runeTail c rest with
        | Some k => wellFormed k rest
        | None => false
        end
    end
  end.

Definition validUTF8 (s : string) : Prop := wellFormed 0 s = true.

(** The object and the form values that carry the payload [p]. *)
Definition payloadMembers (p : ContactForm) : list (string * json.Value) :=
  [("name", json.JString (Name p));
   ("email", json.JString (Email p));
   ("subject", json.JString (Subject p));
   ("message", json.JString (Message p))].

Definition payloadValues (p : ContactForm) : gmap string (list string) :=
  <["message" := [Message p]]>
    (<["subject" := [Subject p]]>
       (<["email" := [Email p]]>
          (<["name" := [Name p]]> ∅))).

(** [s] has no byte [x]. *)
Fixpoint lacks (x : ascii) (s : string) : bool :=
  match s with
  | EmptyString => true
  | String c rest => negb (Ascii.eqb c x) && lacks x rest
  end.

(** The field of a form that a [json] tag or a form key names. *)
Definition field (key : string) (f : ContactForm) : string :=
  if String.eqb key "name" then Name f
  else if String.eqb key "email" then Email f
  else if String.eqb key "subject" then Subject f
  else if String.eqb key "message" then Message f
  else EmptyString.

Definition tags : list string := ["name"; "email"; "subject"; "message"].

(** * Example data *)

Definition exampleConfig : Config :=
  {| SMTPHost := "smtp.example.com";
     SMTPPort := "587";
     SMTPUser := "mailer";
     SMTPPassword := "secret";
     RecipientEmail := "owner@example.com";
     FromEmail := "noreply@example.com";
     ServerPort := "8080";
     CORSOrigin := "*" |}.

Definition exampleHandler : ContactHandler :=
  NewContactHandler (email.NewSender exampleConfig) (CORSOrigin exampleConfig).

(** A mail server that accepts everything, one that cannot be reached, and
    one that refuses the submitter's address only. *)
Definition accepting : Network :=
  {| reply := fun _ _ => None; extension := fun _ _ => true |}.

Definition unreachable : Network :=
  {| reply := fun _ _ => Some "dial tcp: connection refused";
     extension := fun _ _ => false |}.

Definition bouncing : Network :=
  {| reply := fun _ op =>
       match op with
       | client_Rcpt to =>
           if String.eqb to "ada@example.com" then Some "550 no such user" else None
       | _ => None
       end;
     extension := fun _ _ => false |}.

(** A media type written in lower case and without parameters is what
    [mime.ParseMediaType] returns for it. *)
Definition plainMediaType (v : string) : string * error := (v, None).

Definition jsonRequest (body : string) : Request :=
  {| Method := "POST";
     Header := {[ "Content-Type" := ["application/json"] ]};
     RawQuery := EmptyString;
     Body := body |}.

Definition formRequest (body : string) : Request :=
  {| Method := "POST";
     Header := {[ "Content-Type" := ["application/x-www-form-urlencoded"] ]};
     RawQuery := EmptyString;
     Body := body |}.

(** The two bodies of the specification's examples: the JSON object with
    name Ada, email ada@example.com, subject Hi and a message of two lines,
    Hello and World (the line feed written as backslash n), and the form
    body with the message Hello; and the JSON counterpart of the latter. *)
Definition adaJSON : string :=
  "{" +:+ dq +:+ "name" +:+ dq +:+ ":" +:+ dq +:+ "Ada" +:+ dq +:+ ","
  +:+ dq +:+ "email" +:+ dq +:+ ":" +:+ dq +:+ "ada@example.com" +:+ dq +:+ ","
  +:+ dq +:+ "subject" +:+ dq +:+ ":" +:+ dq +:+ "Hi" +:+ dq +:+ ","
  +:+ dq +:+ "message" +:+ dq +:+ ":" +:+ dq +:+ "Hello" +:+ json.str1 json.backslash
  +:+ "nWorld" +:+ dq +:+ "}".

Definition adaForm : ContactForm :=
  {| Name := "Ada"; Email := "ada@example.com"; Subject := "Hi";
     Message := "Hello" +:+ LF +:+ "World" |}.

Definition helloFormBody : string :=
  "name=Ada&email=ada%40example.com&subject=Hi&message=Hello".

Definition helloJSON : string :=
  "{" +:+ dq +:+ "name" +:+ dq +:+ ":" +:+ dq +:+ "Ada" +:+ dq +:+ ","
  +:+ dq +:+ "email" +:+ dq +:+ ":" +:+ dq +:+ "ada@example.com" +:+ dq +:+ ","
  +:+ dq +:+ "subject" +:+ dq +:+ ":" +:+ dq +:+ "Hi" +:+ dq +:+ ","
  +:+ dq +:+ "message" +:+ dq +:+ ":" +:+ dq +:+ "Hello" +:+ dq +:+ "}".

Definition helloForm : ContactForm :=
  {| Name := "Ada"; Email := "ada@example.com"; Subject := "Hi"; Message := "Hello" |}.

(** A form body whose required fields are white space only, a JSON body
    with an empty name, and two bodies that do not parse. *)
Definition blankFormBody : string := "name=+&email=+&subject=&message=+".

Definition blankForm : ContactForm :=
  {| Name := " "; Email := " "; Subject := EmptyString; Message := " " |}.

Definition namelessJSON : string :=
  "{" +:+ dq +:+ "email" +:+ dq +:+ ":" +:+ dq +:+ "ada@example.com" +:+ dq +:+ ","
  +:+ dq +:+ "message" +:+ dq +:+ ":" +:+ dq +:+ "Hello" +:+ dq +:+ "}".

Definition namelessForm : ContactForm :=
  {| Name := EmptyString; Email := "ada@example.com"; Subject := EmptyString;
     Message := "Hello" |}.

Definition brokenJSON : string := "{name: Ada}".

Definition brokenFormBody : string := "name=%zz".

(** An environment with the three checked variables and no FROM_EMAIL, and a
    listener that comes up. *)
Definition exampleEnv : gmap string string :=
  {[ "SMTP_USER" := "mailer"; "SMTP_PASSWORD" := "secret";
     "RECIPIENT_EMAIL" := "owner@example.com" ]}.

Definition listening (addr : string) : error := None.

(** * Further observations

    What the properties of the second part are stated with: more
    projections of a trace, the shape of a run of the handler, and the
    script of an SMTP session. *)

(** The response to a preflight request. *)
Definition preflightResponse (origin : string) : ResponseWriter :=
  {| header := corsHeader origin; status := Some 200; body := [] |}.

(** The events that start the response (the status line, a write to the
    body), and the others. *)
Definition isResponseStart (e : Event) : bool :=
  match e with
  | EvWriteHeader _ | EvWrite _ => true
  | _ => false
  end.

Definition quiet (e : Event) : bool := negb (isResponseStart e).

(** The lines logged, and the dispatches that have returned with what they
    returned. *)
Definition logs (t : list Event) : list string :=
  flat_map (fun e => match e with EvLog line => [line] | _ => [] end) t.

Definition dones (t : list Event) : list (Dispatch * error) :=
  flat_map (fun e => match e with EvDispatchDone d err => [(d, err)] | _ => [] end) t.

(** The line the handler logs when the dispatch [d] has returned the
    error [e]. *)
Definition failureLine (d : Dispatch) (e : string) : string :=
  match d with
  | Notification _ _ _ _ => "Failed to send email to recipient: " +:+ e
  | Confirmation _ _ _ => "Failed to send confirmation email to customer: " +:+ e
  end.

(** The three fields the handler requires are not empty. *)
Definition required (form : ContactForm) : Prop :=
  Name form <> EmptyString /\ Email form <> EmptyString /\ Message form <> EmptyString.

(** The six ways a run of the handler goes, each with the response and the
    trace it leaves. *)
Inductive Outcome (net : Network) (readValue : string -> json.Value + string)
    (ParseForm : Request -> gmap string (list string) * error)
    (h : ContactHandler) (r : Request) : World -> Prop :=
| Preflight :
    Method r = "OPTIONS" ->
    Outcome net readValue ParseForm h r
      {| resp := preflightResponse (corsOrigin h);
         trace := corsEvents (corsOrigin h) ++ [EvWriteHeader 200] |}
| NotAllowed :
    Method r <> "OPTIONS" -> Method r <> "POST" ->
    Outcome net readValue ParseForm h r
      {| resp := errorResponse (corsOrigin h) "Method not allowed" 405;
         trace := corsEvents (corsOrigin h) ++ errorEvents "Method not allowed" 405 |}
| Unparsed :
    Method r = "POST" -> parsed readValue ParseForm r = None ->
    Outcome net readValue ParseForm h r
      {| resp := errorResponse (corsOrigin h) (parseFailure r) 400;
         trace := corsEvents (corsOrigin h) ++ [parseEvent r]
                  ++ errorEvents (parseFailure r) 400 |}
| Incomplete form :
    Method r = "POST" -> parsed readValue ParseForm r = Some form ->
    Name form = EmptyString \/ Email form = EmptyString \/ Message form = EmptyString ->
    Outcome net readValue ParseForm h r
      {| resp := errorResponse (corsOrigin h) "Name, email, and message are required" 400;
         trace := corsEvents (corsOrigin h) ++ [parseEvent r]
                  ++ errorEvents "Name, email, and message are required" 400 |}
| Undelivered form wire1 e :
    Method r = "POST" -> parsed readValue ParseForm r = Some form -> required form ->
    let N := Notification (Name form) (Email form) (Subject form) (Message form) in
    let pre := corsEvents (corsOrigin h) ++ [parseEvent r; EvDispatch N] in
    sends net (emailSender h) (RecipientEmail (email.config (emailSender h)))
          (email.recipientSubject (Subject form))
          (email.recipientBody (Name form) (Email form) (Subject form) (Message form))
          pre (Some e) wire1 ->
    Outcome net readValue ParseForm h r
      {| resp := errorResponse (corsOrigin h) "Failed to send email" 500;
         trace := pre ++ wire1
                  ++ [EvDispatchDone N (Some e); EvLog (failureLine N e)]
                  ++ errorEvents "Failed to send email" 500 |}
| Delivered form wire1 wire2 err2 :
    Method r = "POST" -> parsed readValue ParseForm r = Some form -> required form ->
    let N := Notification (Name form) (Email form) (Subject form) (Message form) in
    let C := Confirmation (Name form) (Email form) (Message form) in
    let pre := corsEvents (corsOrigin h) ++ [parseEvent r; EvDispatch N] in
    sends net (emailSender h) (RecipientEmail (email.config (emailSender h)))
          (email.recipientSubject (Subject form))
          (email.recipientBody (Name form) (Email form) (Subject form) (Message form))
          pre None wire1 ->
    sends net (emailSender h) (Email form) email.confirmationSubject
          (email.confirmationBody (Name form) (Message form))
          (pre ++ wire1 ++ [EvDispatchDone N None; EvDispatch C]) err2 wire2 ->
    Outcome net readValue ParseForm h r
      {| resp := successResponse (corsOrigin h);
         trace := pre ++ wire1 ++ [EvDispatchDone N None; EvDispatch C]
                  ++ wire2 ++ [EvDispatchDone C err2]
                  ++ match err2 with
                     | Some e => [EvLog (failureLine C e)]
                     | None => []
                     end
                  ++ successEvents |}.

(** The calls of the SMTP client in a wire, with what they returned. *)
Definition calls (wire : list Event) : list (smtp_op * error) :=
  flat_map (fun e => match e with EvSmtp op err => [(op, err)] | _ => [] end) wire.

(** The address [host:port] of the configured server, and the credentials
    [Send] authenticates with. *)
Definition address (s : email.Sender) : string :=
  SMTPHost (email.config s) +:+ ":" +:+ SMTPPort (email.config s).

Definition credentials (s : email.Sender) : Auth :=
  PlainAuth EmptyString (SMTPUser (email.config s)) (SMTPPassword (email.config s))
            (SMTPHost (email.config s)).

(** The calls of [Send] in the order of its text, up to the deferred
    [Close]; [tls] tells whether the server offers STARTTLS. *)
Definition script (s : email.Sender) (to subject body : string) (tls : bool)
  : list smtp_op :=
  [smtp_Dial (address s); client_Hello (SMTPHost (email.config s))]
  ++ (if tls then [client_StartTLS (SMTPHost (email.config s))] else [])
  ++ [client_Auth (credentials s);
      client_Mail (FromEmail (email.config s));
      client_Rcpt to;
      client_Data;
      data_Write (email.msg s to subject body);
      data_Close;
      client_Quit].

(** The text [Send] puts before the error of a call that failed; the error
    of [Quit] is returned as it is. *)
Definition wrapOf (op : smtp_op) : string :=
  match op with
  | smtp_Dial _ => "failed to connect to SMTP server: "
  | client_Hello _ => "failed to send HELLO: "
  | client_StartTLS _ => "failed to start TLS: "
  | client_Auth _ => "authentication failed: "
  | client_Mail _ => "failed to set sender: "
  | client_Rcpt _ => "failed to set recipient: "
  | client_Data => "failed to open data writer: "
  | data_Write _ => "failed to write message: "
  | data_Close => "failed to close data writer: "
  | _ => EmptyString
  end.

(** Calls that returned [nil]. *)
Definition passed (ops : list smtp_op) : list (smtp_op * error) :=
  map (fun op => (op, None)) ops.

(** The environment that sets the eight variables to the fields of [cfg]. *)
Definition environ (cfg : Config) : gmap string string :=
  {[ "SMTP_HOST" := SMTPHost cfg;
     "SMTP_PORT" := SMTPPort cfg;
     "SMTP_USER" := SMTPUser cfg;
     "SMTP_PASSWORD" := SMTPPassword cfg;
     "RECIPIENT_EMAIL" := RecipientEmail cfg;
     "FROM_EMAIL" := FromEmail cfg;
     "SERVER_PORT" := ServerPort cfg;
     "CORS_ORIGIN" := CORSOrigin cfg ]}.

(** More example data: requests without a body, a POST request whose
    fields are in the query of its URL, the session with the server that
    refuses the submitter's address, and two more JSON bodies. *)
Definition exampleSender : email.Sender := email.NewSender exampleConfig.

Definition methodRequest (method : string) : Request :=
  {| Method := method; Header := ∅; RawQuery := EmptyString; Body := EmptyString |}.

Definition queryRequest (contentType query : string) : Request :=
  {| Method := "POST";
     Header := {[ "Content-Type" := [contentType] ]};
     RawQuery := query;
     Body := EmptyString |}.

Definition bouncedWire : list Event :=
  [EvSmtp (smtp_Dial "smtp.example.com:587") None;
   EvSmtp (client_Hello "smtp.example.com") None;
   EvExtension "STARTTLS" false;
   EvSmtp (client_Auth (PlainAuth EmptyString "mailer" "secret" "smtp.example.com")) None;
   EvSmtp (client_Mail "noreply@example.com") None;
   EvSmtp (client_Rcpt "ada@example.com") (Some "550 no such user");
   EvSmtp client_Close None].

Definition nullJSON : string := "null".

Definition numberJSON : string :=
  "{" +:+ dq +:+ "name" +:+ dq +:+ ":5,"
  +:+ dq +:+ "email" +:+ dq +:+ ":" +:+ dq +:+ "ada@example.com" +:+ dq +:+ ","
  +:+ dq +:+ "message" +:+ dq +:+ ":" +:+ dq +:+ "Hello" +:+ dq +:+ "}".

(** * Tactics *)

Ltac oracle :=
  repeat match goal with
  | |- context [reply ?n ?t ?op] =>
      let E := fresh "E" in destruct (reply n t op) eqn:E; simpl
  | |- context [extension ?n ?t ?x] =>
      let E := fresh "X" in destruct (extension n t x) eqn:E; simpl
  end.

Ltac each_byte c :=
  destruct c as [[] [] [] [] [] [] [] []].

Ltac send_unfold :=
  unfold email.Send, orReturn, defer, bind, email.smtp, email.Extension, observe, ret;
  simpl.

(** * Lemmas *)

(** ** The monad *)

Lemma bind_run {A B} (c : IO A) (k : A -> IO B) w a w' :
  c w = (a, w') -> bind c k w = k a w'.
Proof. intros H. unfold bind. by rewrite H. Qed.

(** ** The SMTP session of [Send] *)

Lemma sends_total net s to subject body t :
  exists err wire, sends net s to subject body t err wire.
Proof.
  unfold sends. send_unfold.
  oracle; rewrite <- ?app_assoc; simpl; do 2 eexists; intros rw; reflexivity.
Qed.

Lemma sends_wire net s to subject body t err wire :
  sends net s to subject body t err wire -> forallb isWire wire = true.
Proof.
  intros H. specialize (H newResponse). revert H. send_unfold.
  oracle; rewrite <- ?app_assoc; simpl; intros H; inversion H as [[He Ht]];
  apply app_inv_head in Ht; subst; reflexivity.
Qed.

Lemma sends_success net s to subject body t wire :
  sends net s to subject body t None wire ->
  exists tls closed, wire = sessionOK s to subject body tls closed.
Proof.
  intros H. specialize (H newResponse). revert H. send_unfold.
  oracle; rewrite <- ?app_assoc; simpl; intros H; inversion H as [[Ht]];
  apply app_inv_head in Ht; subst; unfold sessionOK.
  - exists true. eexists. reflexivity.
  - exists true. eexists. reflexivity.
  - exists false. eexists. reflexivity.
  - exists false. eexists. reflexivity.
Qed.

Lemma sends_envelope net s to subject body t err wire :
  sends net s to subject body t err wire ->
  forallb (envelopeOK s to subject body) wire = true.
Proof.
  intros H. specialize (H newResponse). revert H. send_unfold.
  oracle; rewrite <- ?app_assoc; simpl; intros H; inversion H as [[He Ht]];
  apply app_inv_head in Ht; subst; simpl; rewrite ?String.eqb_refl; reflexivity.
Qed.

(** A server that accepts everything lets the session go through. *)
Lemma sends_accepting net s to subject body t :
  (forall t' op, reply net t' op = None) ->
  sends net s to subject body t None
        (sessionOK s to subject body (extension net
           (t ++ [EvSmtp (smtp_Dial (Sprintf "%s:%s" [SMTPHost (email.config s);
                                                      SMTPPort (email.config s)])) None;
                  EvSmtp (client_Hello (SMTPHost (email.config s))) None])
           "STARTTLS") None).
Proof.
  intros Hok rw. send_unfold. rewrite !Hok. simpl. rewrite <- !app_assoc. simpl.
  destruct (extension net _ _); simpl; rewrite ?Hok; simpl;
    rewrite <- ?app_assoc; reflexivity.
Qed.

Lemma notify_run net s name email subject message w err wire :
  sends net s (RecipientEmail (email.config s)) (email.recipientSubject subject)
        (email.recipientBody name email subject message)
        (trace w ++ [EvDispatch (Notification name email subject message)]) err wire ->
  email.SendContactNotification net s name email subject message w =
    (err, {| resp := resp w;
             trace := trace w ++ [EvDispatch (Notification name email subject message)]
                      ++ wire ++ [EvDispatchDone (Notification name email subject message) err] |}).
Proof.
  intros H. unfold email.SendContactNotification.
  erewrite bind_run by reflexivity.
  erewrite bind_run by (cbn [resp trace]; apply H).
  erewrite bind_run by reflexivity.
  unfold ret. cbn [resp trace]. by rewrite <- !app_assoc.
Qed.

Lemma confirm_run net s name email message w err wire :
  sends net s email email.confirmationSubject (email.confirmationBody name message)
        (trace w ++ [EvDispatch (Confirmation name email message)]) err wire ->
  email.SendConfirmation net s name email message w =
    (err, {| resp := resp w;
             trace := trace w ++ [EvDispatch (Confirmation name email message)]
                      ++ wire ++ [EvDispatchDone (Confirmation name email message) err] |}).
Proof.
  intros H. unfold email.SendConfirmation.
  erewrite bind_run by reflexivity.
  erewrite bind_run by (cbn [resp trace]; apply H).
  erewrite bind_run by reflexivity.
  unfold ret. cbn [resp trace]. by rewrite <- !app_assoc.
Qed.

(** ** The branches of [ServeHTTP] *)

Section Branches.
Variable net : Network.
Variable readValue : string -> json.Value + string.
Variable ParseForm : Request -> gmap string (list string) * error.

Local Abbreviation run := (run net readValue ParseForm).
Local Abbreviation parsed := (parsed readValue ParseForm).

Lemma parsed_eq r :
  parsed r =
    if Contains (Header_Get (Header r) "Content-Type") "application/json" then
      match json.Decode jsonFields readValue (Body r) zeroContactForm with
      | (form, None) => Some form
      | (_, Some _) => None
      end
    else
      match ParseForm r with
      | (Form, None) => Some {| Name := FormValue Form "name";
                                Email := FormValue Form "email";
                                Subject := FormValue Form "subject";
                                Message := FormValue Form "message" |}
      | (_, Some _) => None
      end.
Proof.
  unfold parsed, parseBody.
  destruct (Contains _ _); unfold bind, emit, ret; cbn [fst snd].
  - by destruct (json.Decode _ _ _ _) as [f [e|]].
  - by destruct (ParseForm _) as [f [e|]].
Qed.

Lemma parseBody_ok r w form :
  parsed r = Some form ->
  parseBody readValue ParseForm r w =
    (Some form, {| resp := resp w; trace := trace w ++ [parseEvent r] |}).
Proof.
  unfold parsed, parseBody, parseEvent.
  destruct (Contains _ _); unfold bind, emit, ret.
  - destruct (json.Decode _ _ _ _) as [f [e|]]; simpl; [discriminate|].
    by intros [= ->].
  - destruct (ParseForm _) as [f [e|]]; simpl; [discriminate|].
    by intros [= <-].
Qed.

Lemma run_options h r :
  Method r = "OPTIONS" ->
  run h r = {| resp := {| header := corsHeader (corsOrigin h);
                          status := Some 200; body := [] |};
               trace := corsEvents (corsOrigin h) ++ [EvWriteHeader 200] |}.
Proof.
  intros HM. unfold run, ServeHTTP.
  do 3 (erewrite bind_run by reflexivity).
  rewrite HM. reflexivity.
Qed.

Lemma run_not_allowed h r :
  Method r <> "OPTIONS" -> Method r <> "POST" ->
  run h r = {| resp := errorResponse (corsOrigin h) "Method not allowed" 405;
               trace := corsEvents (corsOrigin h)
                        ++ errorEvents "Method not allowed" 405 |}.
Proof.
  intros HO HP. unfold run, ServeHTTP.
  do 3 (erewrite bind_run by reflexivity).
  apply String.eqb_neq in HO, HP. unfold MethodOptions, MethodPost.
  rewrite HO, HP. reflexivity.
Qed.

Lemma run_parse_failed h r :
  Method r = "POST" -> parsed r = None ->
  run h r = {| resp := errorResponse (corsOrigin h) (parseFailure r) 400;
               trace := corsEvents (corsOrigin h) ++ [parseEvent r]
                        ++ errorEvents (parseFailure r) 400 |}.
Proof.
  intros HM HP. unfold run, ServeHTTP.
  do 3 (erewrite bind_run by reflexivity).
  rewrite HM. change (String.eqb "POST" MethodOptions) with false.
  change (String.eqb "POST" MethodPost) with true. cbn [negb].
  revert HP. unfold parsed, parseBody, parseEvent, parseFailure.
  destruct (Contains _ _).
  - unfold bind at 1 3 4. unfold emit at 1 2.
    destruct (json.Decode _ _ _ _) as [f [e|]]; [|discriminate].
    intros _. reflexivity.
  - unfold bind at 1 3 4. unfold emit at 1 2.
    destruct (ParseForm _) as [f [e|]]; [|discriminate].
    intros _. reflexivity.
Qed.

Lemma run_invalid h r form :
  Method r = "POST" -> parsed r = Some form ->
  Name form = EmptyString \/ Email form = EmptyString \/ Message form = EmptyString ->
  run h r = {| resp := errorResponse (corsOrigin h)
                         "Name, email, and message are required" 400;
               trace := corsEvents (corsOrigin h) ++ [parseEvent r]
                        ++ errorEvents "Name, email, and message are required" 400 |}.
Proof.
  intros HM HP Hempty. unfold run, ServeHTTP.
  do 3 (erewrite bind_run by reflexivity).
  rewrite HM. change (String.eqb "POST" MethodOptions) with false.
  change (String.eqb "POST" MethodPost) with true. cbn [negb].
  erewrite bind_run by (apply parseBody_ok; exact HP).
  cbn beta iota.
  assert (String.eqb (Name form) EmptyString
          || String.eqb (Email form) EmptyString
          || String.eqb (Message form) EmptyString = true) as ->.
  { destruct Hempty as [-> | [-> | ->]]; rewrite ?orb_true_r; reflexivity. }
  reflexivity.
Qed.
Lemma run_valid h r form :
  Method r = "POST" -> parsed r = Some form ->
  Name form <> EmptyString -> Email form <> EmptyString -> Message form <> EmptyString ->
  let s := emailSender h in
  let N := Notification (Name form) (Email form) (Subject form) (Message form) in
  let C := Confirmation (Name form) (Email form) (Message form) in
  let pre := corsEvents (corsOrigin h) ++ [parseEvent r; EvDispatch N] in
  exists err1 wire1,
    sends net s (RecipientEmail (email.config s)) (email.recipientSubject (Subject form))
          (email.recipientBody (Name form) (Email form) (Subject form) (Message form))
          pre err1 wire1 /\
    match err1 with
    | Some e =>
        run h r =
          {| resp := errorResponse (corsOrigin h) "Failed to send email" 500;
             trace := pre ++ wire1
                      ++ [EvDispatchDone N (Some e);
                          EvLog (Sprintf "Failed to send email to recipient: %v" [e])]
                      ++ errorEvents "Failed to send email" 500 |}
    | None =>
        exists err2 wire2,
          sends net s (Email form) email.confirmationSubject
                (email.confirmationBody (Name form) (Message form))
                (pre ++ wire1 ++ [EvDispatchDone N None; EvDispatch C]) err2 wire2 /\
          run h r =
            {| resp := successResponse (corsOrigin h);
               trace := pre ++ wire1 ++ [EvDispatchDone N None; EvDispatch C]
                        ++ wire2 ++ [EvDispatchDone C err2]
                        ++ match err2 with
                           | Some e => [EvLog (Sprintf "Failed to send confirmation email to customer: %v" [e])]
                           | None => []
                           end
                        ++ successEvents |}
    end.
Proof.
  intros HM HP Hn He Hm s N C pre.
  destruct (sends_total net s (RecipientEmail (email.config s))
              (email.recipientSubject (Subject form))
              (email.recipientBody (Name form) (Email form) (Subject form) (Message form))
              pre) as (err1 & wire1 & H1).
  exists err1, wire1. split; [exact H1|].
  assert (Hrun : run h r = snd (
    (err <- email.SendContactNotification net (emailSender h)
                 (Name form) (Email form) (Subject form) (Message form) ;;
        match err with
        | Some e =>
            log_Printf "Failed to send email to recipient: %v" [e] ;;
            http_Error "Failed to send email" StatusInternalServerError
        | None =>
            err <- email.SendConfirmation net (emailSender h)
                     (Name form) (Email form) (Message form) ;;
            match err with
            | Some e =>
                log_Printf "Failed to send confirmation email to customer: %v" [e]
            | None => ret tt
            end ;;
            w_Header_Set "Content-Type" "application/json" ;;
            w_WriteHeader StatusOK ;;
            Encode successBody
        end)%io
     {| resp := {| header := corsHeader (corsOrigin h); status := None; body := [] |};
        trace := corsEvents (corsOrigin h) ++ [parseEvent r] |})).
  { unfold run, ServeHTTP.
    do 3 (erewrite bind_run by reflexivity).
    rewrite HM. change (String.eqb "POST" MethodOptions) with false.
    change (String.eqb "POST" MethodPost) with true. cbn [negb].
    erewrite bind_run by (apply parseBody_ok; exact HP).
    cbn beta iota.
    apply String.eqb_neq in Hn, He, Hm. rewrite Hn, He, Hm. cbn [orb].
    reflexivity. }
  rewrite Hrun. clear Hrun.
  erewrite bind_run by (apply notify_run; cbn [trace]; rewrite <- app_assoc; exact H1).
  cbn [resp trace].
  destruct err1 as [e|].
  - unfold log_Printf, http_Error.
    repeat (erewrite bind_run by reflexivity).
    unfold w_Write. cbn [snd resp trace header status body].
    unfold errorResponse, errorEvents. f_equal.
    subst pre. rewrite <- !app_assoc. reflexivity.
  - destruct (sends_total net s (Email form) email.confirmationSubject
              (email.confirmationBody (Name form) (Message form))
              (pre ++ wire1 ++ [EvDispatchDone N None; EvDispatch C])) as (err2 & wire2 & H2).
    exists err2, wire2. split; [exact H2|].
    erewrite bind_run.
    2:{ apply confirm_run. cbn [trace]. subst pre. rewrite <- !app_assoc.
        rewrite <- !app_assoc in H2. exact H2. }
    cbn [resp trace].
    destruct err2 as [e|].
    + unfold log_Printf, Encode.
      repeat (erewrite bind_run by reflexivity).
      unfold w_Write. cbn [snd resp trace header status body].
      unfold successResponse, successEvents. f_equal.
      subst pre. rewrite <- !app_assoc. reflexivity.
    + unfold Encode.
      repeat (erewrite bind_run by reflexivity).
      unfold w_Write. cbn [snd resp trace header status body].
      unfold successResponse, successEvents. f_equal.
      subst pre. rewrite <- !app_assoc. reflexivity.
Qed.

End Branches.

(** ** Projections of a trace *)

Lemma mail_app t u : mail (t ++ u) = mail t ++ mail u.
Proof. unfold mail. apply List.filter_app. Qed.

Lemma mail_wire wire : forallb isWire wire = true -> mail wire = wire.
Proof.
  unfold mail. induction wire as [|e wire IH]; simpl; [done|].
  intros [He Hw]%andb_true_iff. destruct e; try discriminate; simpl; by rewrite IH.
Qed.

Lemma mail_cors origin : mail (corsEvents origin) = [].
Proof. reflexivity. Qed.

Lemma mail_parseEvent r : mail [parseEvent r] = [].
Proof. unfold parseEvent. by destruct (Contains _ _). Qed.

Lemma mail_errorEvents msg code : mail (errorEvents msg code) = [].
Proof. reflexivity. Qed.

Lemma mail_successEvents : mail successEvents = [].
Proof. reflexivity. Qed.

(** The mail events of a valid submission's run: the notification and its
    wire, and after its return, if it went through, the confirmation and
    its wire. *)
Lemma mail_valid net readValue ParseForm h r form :
  Method r = "POST" -> parsed readValue ParseForm r = Some form ->
  Name form <> EmptyString -> Email form <> EmptyString -> Message form <> EmptyString ->
  let s := emailSender h in
  let N := Notification (Name form) (Email form) (Subject form) (Message form) in
  let C := Confirmation (Name form) (Email form) (Message form) in
  let w := run net readValue ParseForm h r in
  exists wire1, forallb isWire wire1 = true /\
    ((exists e, mail (trace w) = EvDispatch N :: wire1 ++ [EvDispatchDone N (Some e)] /\
                resp w = errorResponse (corsOrigin h) "Failed to send email" 500)
     \/
     (exists wire2 err2, forallb isWire wire2 = true /\
        mail (trace w) = EvDispatch N :: wire1
                         ++ [EvDispatchDone N None; EvDispatch C]
                         ++ wire2 ++ [EvDispatchDone C err2] /\
        resp w = successResponse (corsOrigin h))).
Proof.
  intros HM HP Hn He Hm s N C w.
  destruct (run_valid net readValue ParseForm h r form HM HP Hn He Hm)
    as (err1 & wire1 & H1 & Hrun).
  exists wire1. pose proof (sends_wire _ _ _ _ _ _ _ _ H1) as Hw1.
  split; [exact Hw1|].
  destruct err1 as [e|].
  - left. exists e. subst w. rewrite Hrun. cbn [trace resp]. split; [|reflexivity].
    rewrite !mail_app, mail_cors, (mail_wire _ Hw1), mail_errorEvents.
    cbn [app]. unfold mail at 1. cbn [List.filter isMail].
    unfold parseEvent. destruct (Contains _ _); reflexivity.
  - right. destruct Hrun as (err2 & wire2 & H2 & Hrun).
    pose proof (sends_wire _ _ _ _ _ _ _ _ H2) as Hw2.
    exists wire2, err2. split; [exact Hw2|].
    subst w. rewrite Hrun. cbn [trace resp]. split; [|reflexivity].
    rewrite !mail_app, mail_cors, (mail_wire _ Hw1), (mail_wire _ Hw2), mail_successEvents.
    cbn [app]. rewrite app_nil_r.
    unfold parseEvent. destruct (Contains _ _); destruct err2; reflexivity.
Qed.

Lemma in_mail e t : isMail e = true -> In e t -> In e (mail t).
Proof. intros He Hin. unfold mail. apply List.filter_In. by split. Qed.

Lemma in_wire e wire : forallb isWire wire = true -> In e wire -> isWire e = true.
Proof. intros Hw Hin. rewrite forallb_forall in Hw. by apply Hw. Qed.

(** Settles whether a dispatch event is in a list of mail events given by
    its elements and its wire segments. *)
Ltac in_mail_cases H :=
  repeat (first
    [ apply in_app_or in H; destruct H as [H|H]
    | destruct H as [H|H]
    | (match type of H with In _ ?w =>
         match goal with Hw : forallb isWire w = true |- _ =>
           apply (in_wire _ _ Hw) in H end end) ]);
  try discriminate; try (inversion H; fail); try contradiction.

Lemma parses_app t u : parses (t ++ u) = parses t ++ parses u.
Proof. unfold parses. apply List.filter_app. Qed.

Lemma parses_wire wire : forallb isWire wire = true -> parses wire = [].
Proof.
  unfold parses. induction wire as [|e wire IH]; simpl; [done|].
  intros [He Hw]%andb_true_iff. destruct e; try discriminate; simpl; by rewrite IH.
Qed.

Lemma parses_parseEvent r : parses [parseEvent r] = [parseEvent r].
Proof. unfold parseEvent. by destruct (Contains _ _). Qed.

Lemma in_parses e t : isParse e = true -> In e t <-> In e (parses t).
Proof.
  intros He. unfold parses. rewrite List.filter_In. tauto.
Qed.

(** The body of a POST request is read once, by the reader its content type
    selects. *)
Lemma parses_post net readValue ParseForm h r :
  Method r = "POST" ->
  parses (trace (run net readValue ParseForm h r)) = [parseEvent r].
Proof.
  intros HM.
  destruct (parsed readValue ParseForm r) as [form|] eqn:HP.
  - destruct (String.eqb_spec (Name form) EmptyString) as [Hn|Hn];
      [|destruct (String.eqb_spec (Email form) EmptyString) as [He|He];
        [|destruct (String.eqb_spec (Message form) EmptyString) as [Hm|Hm]]].
    1-3: erewrite run_invalid by eauto; cbn [trace];
         rewrite !parses_app, parses_parseEvent; reflexivity.
    destruct (run_valid net readValue ParseForm h r form HM HP Hn He Hm)
      as (err1 & wire1 & H1 & Hrun).
    pose proof (sends_wire _ _ _ _ _ _ _ _ H1) as Hw1.
    destruct err1 as [e|].
    + rewrite Hrun. cbn [trace].
      rewrite !parses_app, (parses_wire _ Hw1). cbn [app].
      unfold parses at 1. cbn [List.filter isParse corsEvents app].
      unfold parseEvent. destruct (Contains _ _); reflexivity.
    + destruct Hrun as (err2 & wire2 & H2 & Hrun).
      pose proof (sends_wire _ _ _ _ _ _ _ _ H2) as Hw2.
      rewrite Hrun. cbn [trace].
      rewrite !parses_app, (parses_wire _ Hw1), (parses_wire _ Hw2). cbn [app].
      unfold parseEvent. destruct (Contains _ _); destruct err2; reflexivity.
  - rewrite run_parse_failed by done. cbn [trace].
    rewrite !parses_app, parses_parseEvent. reflexivity.
Qed.

Lemma corsSet_corsHeader origin : corsSet origin (corsHeader origin).
Proof. unfold corsSet, corsHeader, Header_Set. by simplify_map_eq. Qed.

Lemma corsSet_errorResponse origin msg code :
  corsSet origin (header (errorResponse origin msg code)).
Proof.
  unfold corsSet, errorResponse, corsHeader, Header_Set, Header_Del. cbn [header].
  by simplify_map_eq.
Qed.

Lemma corsSet_successResponse origin : corsSet origin (header (successResponse origin)).
Proof.
  unfold corsSet, successResponse, corsHeader, Header_Set. cbn [header].
  by simplify_map_eq.
Qed.

(** Every run starts by setting the three CORS headers, and ends with them
    in the response's header map. *)
Lemma run_cors net readValue ParseForm h r :
  (exists rest, trace (run net readValue ParseForm h r) = corsEvents (corsOrigin h) ++ rest) /\
  corsSet (corsOrigin h) (header (resp (run net readValue ParseForm h r))).
Proof.
  destruct (String.eqb_spec (Method r) "OPTIONS") as [HO|HO].
  { rewrite run_options by done. cbn [trace resp header].
    split; [by eexists | apply corsSet_corsHeader]. }
  destruct (String.eqb_spec (Method r) "POST") as [HM|HM].
  2:{ rewrite run_not_allowed by done. cbn [trace resp].
      split; [by eexists | apply corsSet_errorResponse]. }
  destruct (parsed readValue ParseForm r) as [form|] eqn:HP.
  2:{ rewrite run_parse_failed by done. cbn [trace resp].
      split; [by eexists | apply corsSet_errorResponse]. }
  destruct (String.eqb_spec (Name form) EmptyString) as [Hn|Hn];
    [|destruct (String.eqb_spec (Email form) EmptyString) as [He|He];
      [|destruct (String.eqb_spec (Message form) EmptyString) as [Hm|Hm]]].
  1-3: erewrite run_invalid by eauto; cbn [trace resp];
       (split; [by eexists | apply corsSet_errorResponse]).
  destruct (run_valid net readValue ParseForm h r form HM HP Hn He Hm)
    as (err1 & wire1 & H1 & Hrun).
  destruct err1 as [e|].
  - rewrite Hrun. cbn [trace resp]. rewrite <- app_assoc.
    split; [by eexists | apply corsSet_errorResponse].
  - destruct Hrun as (err2 & wire2 & H2 & Hrun).
    rewrite Hrun. cbn [trace resp]. rewrite <- app_assoc.
    split; [by eexists | apply corsSet_successResponse].
Qed.

(** ** Strings *)

Lemma append_empty_r s : s +:+ EmptyString = s.
Proof.
  induction s as [|c s IH]; [done|].
  change (String c (s +:+ EmptyString) = String c s). by rewrite IH.
Qed.

Lemma HasPrefix_app x b : HasPrefix (x +:+ b) x = true.
Proof. induction x as [|c x IH]; simpl; [done|]. by rewrite Ascii.eqb_refl. Qed.

Lemma Contains_head x b : Contains (x +:+ b) x = true.
Proof.
  destruct (x +:+ b) eqn:E; simpl; rewrite <- E, HasPrefix_app; reflexivity.
Qed.

Lemma Contains_cons c s x : Contains s x = true -> Contains (String c s) x = true.
Proof. intros H. simpl. rewrite H. apply orb_true_r. Qed.

Lemma Contains_app_r a s x : Contains s x = true -> Contains (a +:+ s) x = true.
Proof.
  intros H. induction a as [|c a IH]; simpl; [done|]. rewrite IH. apply orb_true_r.
Qed.

Ltac contains :=
  repeat first [apply Contains_head | apply Contains_cons | apply Contains_app_r].

(** [strings.ReplaceAll(s, "\n", "<br>")] replaces every line feed. *)
Lemma ReplaceAll_breaks s : ReplaceAll s LF "<br>" = newlinesToBreaks s.
Proof.
  unfold ReplaceAll. induction s as [|c s IH]; [done|].
  cbn [replaceFrom newlinesToBreaks].
  change (String.length LF - 1) with 0. rewrite IH.
  change (HasPrefix (String c s) LF) with (if Ascii.eqb c (ascii_of_nat 10) then true else false).
  by destruct (Ascii.eqb c (ascii_of_nat 10)).
Qed.

(** ** The mails the dispatcher builds *)

Lemma msg_eq s to subject body :
  email.msg s to subject body =
    "From: " +:+ FromEmail (email.config s) +:+ CRLF +:+
    "To: " +:+ to +:+ CRLF +:+
    "Subject: " +:+ subject +:+ CRLF +:+
    "MIME-Version: 1.0" +:+ CRLF +:+
    "Content-Type: text/html; charset=UTF-8" +:+ CRLF +:+
    CRLF +:+ body +:+ CRLF.
Proof. reflexivity. Qed.

Lemma recipientSubject_eq subject :
  email.recipientSubject subject = "New Contact Form Submission: " +:+ subject.
Proof.
  unfold email.recipientSubject.
  change (Sprintf "New Contact Form Submission: %s" [subject])
    with ("New Contact Form Submission: " +:+ (subject +:+ EmptyString)).
  by rewrite append_empty_r.
Qed.

Lemma recipientBody_contains name email subject message :
  let html := email.recipientBody name email subject message in
  Contains html name = true /\ Contains html email = true /\
  Contains html subject = true /\ Contains html (newlinesToBreaks message) = true.
Proof.
  intros html. subst html. unfold email.recipientBody. rewrite ReplaceAll_breaks.
  generalize (newlinesToBreaks message). intros m.
  cbn. repeat split; contains.
Qed.

Lemma sessionOK_mail s to subject body tls closed :
  let wire := sessionOK s to subject body tls closed in
  envelopeFrom wire = [FromEmail (email.config s)] /\
  envelopeTo wire = [to] /\
  dataSent wire = [email.msg s to subject body].
Proof. by destruct tls. Qed.

(** ** The fuel of the JSON scanner

    [readValue] scans with a fuel of the input's length plus one.  A scan
    that succeeds needs no more fuel than the bytes it reads, so this fuel
    is enough: with more, the scan gives the same. *)

Module json_fuel.
Import json.

Lemma prepend_Some p r str rest :
  prepend p r = Some (str, rest) -> exists str', r = Some (str', rest).
Proof. destruct r as [[s' r']|]; [|discriminate]. intros [= _ <-]. by eexists. Qed.

Lemma skipSpace_length s : String.length (skipSpace s) <= String.length s.
Proof.
  induction s as [|c s IH]; [done|]. cbn [skipSpace].
  destruct (isSpace c); cbn [String.length]; lia.
Qed.

Lemma skipSpace_cons s c rest :
  skipSpace s = String c rest -> String.length rest < String.length s.
Proof.
  intros H. pose proof (skipSpace_length s) as Hl. rewrite H in Hl.
  cbn [String.length] in Hl. lia.
Qed.

(** A string literal ends before the input does. *)
Lemma scanString_shorter n : forall s k str rest,
  String.length s <= n ->
  scanString k s = Some (str, rest) -> String.length rest < String.length s.
Proof.
  induction n as [|n IH]; intros s k str rest Hn H.
  - destruct s; [discriminate|]. cbn [String.length] in Hn. lia.
  - destruct s as [|c s]; [discriminate|].
    cbn [String.length] in Hn |- *.
    assert (Hrec : forall k' p t, String.length t <= String.length s ->
              prepend p (scanString k' t) = Some (str, rest) ->
              String.length rest < S (String.length s)).
    { intros k' p t Ht Hp. apply prepend_Some in Hp as [str' Hp].
      apply IH in Hp; lia. }
    cbn [scanString] in H. destruct k as [|k]; [|by eapply Hrec].
    destruct (Ascii.eqb c quote).
    { injection H as _ <-. lia. }
    destruct (Ascii.eqb c backslash).
    { destruct s as [|e s2]; [discriminate|]. cbn [String.length] in *.
      assert (Hrec2 : forall k' p t, String.length t <= String.length s2 ->
                prepend p (scanString k' t) = Some (str, rest) ->
                String.length rest < S (S (String.length s2))).
      { intros k' p t Ht Hp. apply (Hrec k' p t) in Hp; lia. }
      repeat match type of H with
             | (if ?b then _ else _) = _ => destruct b; [by eapply Hrec2|]
             end.
      destruct (Ascii.eqb e "u"); [|discriminate].
      destruct s2 as [|h1 [|h2 [|h3 [|h4 s6]]]]; try discriminate.
      cbn [String.length] in *.
      destruct (getu4 h1 h2 h3 h4) as [rr|]; [|discriminate].
      destruct (isSurrogate rr).
      2:{ apply (Hrec2 _ _ s6) in H; lia. }
      destruct s6 as [|b1 [|u1 [|g1 [|g2 [|g3 [|g4 s12]]]]]];
        try (apply (Hrec2 _ _ _) in H; cbn [String.length] in *; lia).
      cbn [String.length] in *.
      destruct (if Ascii.eqb b1 backslash && Ascii.eqb u1 "u" then getu4 g1 g2 g3 g4 else None)
        as [rr1|].
      - destruct (utf16_DecodeRune rr rr1 =? 65533)%N;
          apply (Hrec2 _ _ _) in H; cbn [String.length] in *; lia.
      - apply (Hrec2 _ _ _) in H; cbn [String.length] in *; lia. }
    destruct (code c <? 32)%N; [discriminate|].
    destruct (code c <? 128)%N; [by eapply Hrec|].
    destruct (runeTail c s); by eapply Hrec.
Qed.

Lemma digits_length s : String.length (snd (digits s)) <= String.length s.
Proof.
  induction s as [|c s IH]; [done|]. cbn [digits].
  destruct (isDigit c); [|done].
  destruct (digits s) as [d r]. cbn [snd String.length] in *. lia.
Qed.

Lemma scanInt_shorter s i rest :
  scanInt s = Some (i, rest) -> String.length rest < String.length s.
Proof.
  destruct s as [|c s]; [discriminate|]. cbn [scanInt String.length].
  destruct (Ascii.eqb c "0"); [intros [= _ <-]; lia|].
  destruct (between 49 57 c); [|discriminate].
  pose proof (digits_length s). destruct (digits s) as [d r].
  intros [= _ <-]. cbn [snd] in *. lia.
Qed.

Lemma scanFrac_length s f rest :
  scanFrac s = Some (f, rest) -> String.length rest <= String.length s.
Proof.
  unfold scanFrac. destruct s as [|c s]; [intros [= _ <-]; done|].
  destruct (Ascii.eqb_spec c ".") as [->|Hc].
  - pose proof (digits_length s). destruct (digits s) as [[|d0 d] r];
      [discriminate|]. intros [= _ <-]. cbn [snd String.length] in *. lia.
  - intros H. assert (Some (EmptyString, String c s) = Some (f, rest)) as [= _ <-]; [|done].
    rewrite <- H. clear H. each_byte c; try reflexivity. by destruct Hc.
Qed.

Lemma scanExp_length s e rest :
  scanExp s = Some (e, rest) -> String.length rest <= String.length s.
Proof.
  unfold scanExp. destruct s as [|c s]; [intros [= _ <-]; done|].
  destruct (Ascii.eqb c "e" || Ascii.eqb c "E"); [|intros [= _ <-]; done].
  assert (Hsign : String.length (snd (match s with
            | String g rest1 =>
                if Ascii.eqb g "+" || Ascii.eqb g "-" then (str1 g, rest1)
                else (EmptyString, s)
            | EmptyString => (EmptyString, s)
            end)) <= String.length s).
  { destruct s as [|g s1]; [done|].
    destruct (Ascii.eqb g "+" || Ascii.eqb g "-"); cbn [snd String.length]; lia. }
  destruct (match s with
            | String g rest1 => _
            | EmptyString => _
            end) as [sign rest1].
  pose proof (digits_length rest1). destruct (digits rest1) as [[|d0 d] r];
    [discriminate|]. intros [= _ <-]. cbn [snd String.length] in *. lia.
Qed.

Lemma scanNumber_shorter s lit rest :
  scanNumber s = Some (lit, rest) -> String.length rest < String.length s.
Proof.
  unfold scanNumber.
  assert (Hsign : String.length (snd (match s with
            | String "-" rest => ("-", rest)
            | _ => (EmptyString, s)
            end)) <= String.length s).
  { destruct s as [|c s]; [done|]. each_byte c; cbn [snd String.length]; lia. }
  destruct (match s with
            | String "-" rest => ("-", rest)
            | _ => (EmptyString, s)
            end) as [sign s1].
  cbn [snd] in Hsign.
  destruct (scanInt s1) as [[i s2]|] eqn:Hi; [|discriminate].
  destruct (scanFrac s2) as [[f s3]|] eqn:Hf; [|discriminate].
  destruct (scanExp s3) as [[e s4]|] eqn:He; [|discriminate].
  intros [= _ <-].
  apply scanInt_shorter in Hi. apply scanFrac_length in Hf. apply scanExp_length in He. lia.
Qed.

Lemma dropBytes_length n s : String.length (dropBytes n s) <= String.length s.
Proof.
  revert s. induction n as [|n IH]; intros s; [by destruct s|].
  destruct s as [|c s]; [done|]. cbn [dropBytes String.length].
  specialize (IH s). lia.
Qed.

(** What a scan leaves is shorter than what it was given. *)
Lemma scan_shorter n :
  (forall d s v rest, scanValue n d s = Some (v, rest) ->
     String.length rest < String.length s) /\
  (forall d s ms rest, scanMembers n d s = Some (ms, rest) ->
     String.length rest < String.length s) /\
  (forall d s vs rest, scanElements n d s = Some (vs, rest) ->
     String.length rest < String.length s).
Proof.
  induction n as [|n (IHv & IHm & IHe)]; [repeat split; discriminate|].
  repeat split.
  - intros d s v rest. cbn [scanValue].
    destruct (skipSpace s) as [|c s0] eqn:Hs; [discriminate|].
    apply skipSpace_cons in Hs.
    destruct (Ascii.eqb c "{").
    { destruct (maxNestingDepth <=? d)%N; [discriminate|].
      destruct (skipSpace s0) as [|c1 s1] eqn:Hs0.
      - destruct (scanMembers n (d + 1) s0) as [[ms r]|] eqn:Hm; [|discriminate].
        intros [= _ <-]. apply IHm in Hm. lia.
      - apply skipSpace_cons in Hs0.
        destruct (Ascii.eqb_spec c1 "}") as [->|Hc].
        + intros [= _ <-]. lia.
        + intros H.
          assert (match scanMembers n (d + 1) s0 with
                  | Some (ms, rest') => Some (JObject ms, rest')
                  | None => None
                  end = Some (v, rest)) as H'.
          { rewrite <- H. clear H. each_byte c1; try reflexivity. by destruct Hc. }
          destruct (scanMembers n (d + 1) s0) as [[ms r]|] eqn:Hm; [|discriminate].
          injection H' as _ <-. apply IHm in Hm. lia. }
    destruct (Ascii.eqb c "[").
    { destruct (maxNestingDepth <=? d)%N; [discriminate|].
      destruct (skipSpace s0) as [|c1 s1] eqn:Hs0.
      - destruct (scanElements n (d + 1) s0) as [[vs r]|] eqn:He; [|discriminate].
        intros [= _ <-]. apply IHe in He. lia.
      - apply skipSpace_cons in Hs0.
        destruct (Ascii.eqb_spec c1 "]") as [->|Hc].
        + intros [= _ <-]. lia.
        + intros H.
          assert (match scanElements n (d + 1) s0 with
                  | Some (vs, rest') => Some (JArray vs, rest')
                  | None => None
                  end = Some (v, rest)) as H'.
          { rewrite <- H. clear H. each_byte c1; try reflexivity. by destruct Hc. }
          destruct (scanElements n (d + 1) s0) as [[vs r]|] eqn:He; [|discriminate].
          injection H' as _ <-. apply IHe in He. lia. }
    destruct (Ascii.eqb c quote).
    { destruct (scanString 0 s0) as [[str r]|] eqn:Hstr; [|discriminate].
      intros [= _ <-]. apply (scanString_shorter _ _ _ _ _ (le_n _)) in Hstr. lia. }
    destruct (HasPrefix (String c s0) "true").
    { intros [= _ <-]. pose proof (dropBytes_length 3 s0).
      cbn [dropBytes] in *. lia. }
    destruct (HasPrefix (String c s0) "false").
    { intros [= _ <-]. pose proof (dropBytes_length 4 s0).
      cbn [dropBytes] in *. lia. }
    destruct (HasPrefix (String c s0) "null").
    { intros [= _ <-]. pose proof (dropBytes_length 3 s0).
      cbn [dropBytes] in *. lia. }
    destruct (scanNumber (String c s0)) as [[lit r]|] eqn:Hnum; [|discriminate].
    intros [= _ <-]. apply scanNumber_shorter in Hnum. cbn [String.length] in Hnum. lia.
  - intros d s ms rest. cbn [scanMembers].
    destruct (skipSpace s) as [|c s0] eqn:Hs; [discriminate|].
    apply skipSpace_cons in Hs.
    destruct (Ascii.eqb c quote); [|discriminate].
    destruct (scanString 0 s0) as [[key s1]|] eqn:Hkey; [|discriminate].
    apply (scanString_shorter _ _ _ _ _ (le_n _)) in Hkey.
    destruct (skipSpace s1) as [|c2 s2] eqn:Hs1; [discriminate|].
    apply skipSpace_cons in Hs1.
    destruct (Ascii.eqb_spec c2 ":") as [->|Hc].
    2:{ intros H. exfalso. revert H. each_byte c2; try discriminate. by destruct Hc. }
    destruct (scanValue n d s2) as [[v s3]|] eqn:Hv; [|discriminate].
    apply IHv in Hv.
    destruct (skipSpace s3) as [|c4 s4] eqn:Hs3; [discriminate|].
    apply skipSpace_cons in Hs3.
    destruct (Ascii.eqb_spec c4 ",") as [->|Hc4].
    { destruct (scanMembers n d s4) as [[ms' s5]|] eqn:Hm; [|discriminate].
      intros [= _ <-]. apply IHm in Hm. lia. }
    destruct (Ascii.eqb_spec c4 "}") as [->|Hc5].
    { intros [= _ <-]. lia. }
    intros H. exfalso. revert H. each_byte c4; try discriminate;
      [by destruct Hc4 | by destruct Hc5].
  - intros d s vs rest. cbn [scanElements].
    destruct (scanValue n d s) as [[v s1]|] eqn:Hv; [|discriminate].
    apply IHv in Hv.
    destruct (skipSpace s1) as [|c2 s2] eqn:Hs1; [discriminate|].
    apply skipSpace_cons in Hs1.
    destruct (Ascii.eqb_spec c2 ",") as [->|Hc].
    { destruct (scanElements n d s2) as [[vs' s3]|] eqn:He; [|discriminate].
      intros [= _ <-]. apply IHe in He. lia. }
    destruct (Ascii.eqb_spec c2 "]") as [->|Hc'].
    { intros [= _ <-]. lia. }
    intros H. exfalso. revert H. each_byte c2; try discriminate;
      [by destruct Hc | by destruct Hc'].
Qed.

(** A scan that succeeds succeeds with any fuel that is at least the number
    of bytes it reads. *)
Lemma scan_enough n :
  (forall d s v rest, scanValue n d s = Some (v, rest) ->
     forall k, String.length s <= k + String.length rest ->
     scanValue k d s = Some (v, rest)) /\
  (forall d s ms rest, scanMembers n d s = Some (ms, rest) ->
     forall k, String.length s <= k + String.length rest ->
     scanMembers k d s = Some (ms, rest)) /\
  (forall d s vs rest, scanElements n d s = Some (vs, rest) ->
     forall k, String.length s <= k + String.length rest ->
     scanElements k d s = Some (vs, rest)).
Proof.
  induction n as [|n (IHv & IHm & IHe)]; [repeat split; discriminate|].
  destruct (scan_shorter n) as (Sv & Sm & Se).
  repeat split.
  - intros d s v rest H k Hk.
    pose proof (proj1 (scan_shorter (S n)) d s v rest H) as Hlt.
    destruct k as [|k]; [lia|]. revert H. cbn [scanValue].
    destruct (skipSpace s) as [|c s0] eqn:Hs; [done|].
    apply skipSpace_cons in Hs.
    destruct (Ascii.eqb c "{").
    { destruct (maxNestingDepth <=? d)%N; [done|].
      assert (Hstep :
        match scanMembers n (d + 1) s0 with
        | Some (ms, r) => Some (JObject ms, r)
        | None => None
        end = Some (v, rest) ->
        match scanMembers k (d + 1) s0 with
        | Some (ms, r) => Some (JObject ms, r)
        | None => None
        end = Some (v, rest)).
      { destruct (scanMembers n (d + 1) s0) as [[ms r]|] eqn:Hm; [|done].
        intros [= <- <-]. pose proof (Sm _ _ _ _ Hm).
        by rewrite (IHm _ _ _ _ Hm k) by lia. }
      destruct (skipSpace s0) as [|c1 s1]; [exact Hstep|].
      each_byte c1; first [exact Hstep | done]. }
    destruct (Ascii.eqb c "[").
    { destruct (maxNestingDepth <=? d)%N; [done|].
      assert (Hstep :
        match scanElements n (d + 1) s0 with
        | Some (vs, r) => Some (JArray vs, r)
        | None => None
        end = Some (v, rest) ->
        match scanElements k (d + 1) s0 with
        | Some (vs, r) => Some (JArray vs, r)
        | None => None
        end = Some (v, rest)).
      { destruct (scanElements n (d + 1) s0) as [[vs r]|] eqn:He; [|done].
        intros [= <- <-]. pose proof (Se _ _ _ _ He).
        by rewrite (IHe _ _ _ _ He k) by lia. }
      destruct (skipSpace s0) as [|c1 s1]; [exact Hstep|].
      each_byte c1; first [exact Hstep | done]. }
    done.
  - intros d s ms rest H k Hk.
    pose proof (proj1 (proj2 (scan_shorter (S n))) d s ms rest H) as Hlt.
    destruct k as [|k]; [lia|]. revert H. cbn [scanMembers].
    destruct (skipSpace s) as [|c s0] eqn:Hs; [done|].
    apply skipSpace_cons in Hs.
    destruct (Ascii.eqb c quote); [|done].
    destruct (scanString 0 s0) as [[key s1]|] eqn:Hkey; [|done].
    apply (scanString_shorter _ _ _ _ _ (le_n _)) in Hkey.
    destruct (skipSpace s1) as [|c2 s2] eqn:Hs1; [done|].
    apply skipSpace_cons in Hs1.
    destruct (Ascii.eqb_spec c2 ":") as [->|Hc].
    2:{ intros H. exfalso. revert H. clear -Hc. each_byte c2; try discriminate.
        by destruct Hc. }
    destruct (scanValue n d s2) as [[v s3]|] eqn:Hv; [|done].
    pose proof (Sv _ _ _ _ Hv) as Hs3lt.
    destruct (skipSpace s3) as [|c4 s4] eqn:Hs3; [done|].
    pose proof (skipSpace_cons _ _ _ Hs3) as Hs4.
    destruct (Ascii.eqb_spec c4 ",") as [->|Hc4].
    { destruct (scanMembers n d s4) as [[ms' s5]|] eqn:Hm; [|done].
      pose proof (Sm _ _ _ _ Hm) as Hs5.
      intros [= <- <-].
      rewrite (IHv _ _ _ _ Hv k) by lia. rewrite Hs3.
      by rewrite (IHm _ _ _ _ Hm k) by lia. }
    destruct (Ascii.eqb_spec c4 "}") as [->|Hc5].
    { intros [= <- <-]. rewrite (IHv _ _ _ _ Hv k) by lia. by rewrite Hs3. }
    intros H. exfalso. revert H. clear -Hc4 Hc5. each_byte c4; try discriminate;
      [by destruct Hc4 | by destruct Hc5].
  - intros d s vs rest H k Hk.
    pose proof (proj2 (proj2 (scan_shorter (S n))) d s vs rest H) as Hlt.
    destruct k as [|k]; [lia|]. revert H. cbn [scanElements].
    destruct (scanValue n d s) as [[v s1]|] eqn:Hv; [|done].
    pose proof (Sv _ _ _ _ Hv) as Hs1lt.
    destruct (skipSpace s1) as [|c2 s2] eqn:Hs1; [done|].
    pose proof (skipSpace_cons _ _ _ Hs1) as Hs2.
    destruct (Ascii.eqb_spec c2 ",") as [->|Hc].
    { destruct (scanElements n d s2) as [[vs' s3]|] eqn:He; [|done].
      pose proof (Se _ _ _ _ He) as Hs3.
      intros [= <- <-].
      rewrite (IHv _ _ _ _ Hv k) by lia. rewrite Hs1.
      by rewrite (IHe _ _ _ _ He k) by lia. }
    destruct (Ascii.eqb_spec c2 "]") as [->|Hc'].
    { intros [= <- <-]. rewrite (IHv _ _ _ _ Hv k) by lia. by rewrite Hs1. }
    intros H. exfalso. revert H. clear -Hc Hc'. each_byte c2; try discriminate;
      [by destruct Hc | by destruct Hc'].
Qed.

(** [readValue] reads with fuel enough: more fuel reads the same. *)
Lemma readValue_fuel input fuel :
  String.length input < fuel ->
  scanValue fuel 0 input = scanValue (S (String.length input)) 0 input.
Proof.
  intros Hfuel.
  destruct (scanValue fuel 0 input) as [[v rest]|] eqn:H.
  - symmetry. apply (proj1 (scan_enough fuel) _ _ _ _ H). lia.
  - destruct (scanValue (S (String.length input)) 0 input) as [[v rest]|] eqn:H'; [|done].
    rewrite (proj1 (scan_enough _) _ _ _ _ H' fuel) in H by lia. discriminate.
Qed.

End json_fuel.

(** ** A quoted string reads back as the string *)

Lemma scanString_ascii c t :
  (json.code c <? 128)%N = true ->
  json.scanString 0 (jsonEscapeByte c +:+ t) =
    json.prepend (json.str1 c) (json.scanString 0 t).
Proof.
  each_byte c; intros H; try discriminate H; reflexivity.
Qed.

Lemma scanString_high c t :
  (json.code c <? 128)%N = false ->
  json.scanString 0 (String c t) =
    match json.runeTail c t with
    | Some k => json.prepend (json.str1 c) (json.scanString k t)
    | None => json.prepend json.replacementChar (json.scanString 0 t)
    end.
Proof.
  each_byte c; intros H; try discriminate H; reflexivity.
Qed.

Lemma jsonEscapeByte_high c :
  (json.code c <? 128)%N = false -> jsonEscapeByte c = json.str1 c.
Proof.
  each_byte c; intros H; try discriminate H; reflexivity.
Qed.

Lemma isCont_high c : json.isCont c = true -> (json.code c <? 128)%N = false.
Proof.
  unfold json.isCont, json.between. intros [H _]%andb_true_iff.
  apply N.leb_le in H. apply N.ltb_ge. exact H.
Qed.

Lemma second_high c lo hi k c1 :
  json.second c = Some (lo, hi, k) -> json.between lo hi c1 = true ->
  (json.code c1 <? 128)%N = false.
Proof.
  unfold json.second. intros Hs Hb.
  assert (128 <= lo)%N as Hlo.
  { repeat match type of Hs with
           | (if ?b then _ else _) = _ => destruct b
           end; inversion Hs; subst; lia. }
  unfold json.between in Hb. apply andb_true_iff in Hb as [H _].
  apply N.leb_le in H. apply N.ltb_ge. lia.
Qed.

Lemma jsonEscape_high c s u :
  (json.code c <? 128)%N = false ->
  jsonEscape (String c s) +:+ u = String c (jsonEscape s +:+ u).
Proof.
  intros H. cbn [jsonEscape]. rewrite (jsonEscapeByte_high c H). reflexivity.
Qed.

Lemma runeTail_escape c s k u :
  json.runeTail c s = Some k ->
  json.runeTail c (jsonEscape s +:+ u) = Some k.
Proof.
  unfold json.runeTail.
  destruct (json.second c) as [[[lo hi] k0]|] eqn:Hs; [|discriminate].
  destruct s as [|c1 s1]; [discriminate|].
  destruct (json.between lo hi c1) eqn:Hb1; [|discriminate].
  rewrite (jsonEscape_high c1 s1 u (second_high _ _ _ _ _ Hs Hb1)). rewrite Hb1.
  destruct k0 as [|[|[|[|k0]]]]; try discriminate; try done.
  - destruct s1 as [|c2 s2]; [discriminate|].
    destruct (json.isCont c2) eqn:Hc2; [|discriminate].
    rewrite (jsonEscape_high c2 s2 u (isCont_high _ Hc2)). by rewrite Hc2.
  - destruct s1 as [|c2 [|c3 s3]]; try discriminate.
    destruct (json.isCont c2) eqn:Hc2; [|discriminate].
    destruct (json.isCont c3) eqn:Hc3; [|discriminate].
    rewrite (jsonEscape_high c2 _ u (isCont_high _ Hc2)).
    rewrite (jsonEscape_high c3 _ u (isCont_high _ Hc3)).
    by rewrite Hc2, Hc3.
Qed.

Lemma append_assoc a b c : (a +:+ b) +:+ c = a +:+ (b +:+ c).
Proof.
  induction a as [|x a IH]; [done|].
  change (String x ((a +:+ b) +:+ c) = String x (a +:+ (b +:+ c))). by rewrite IH.
Qed.

(** A quoted string reads back as the string. *)
Lemma scanString_escape s : forall k t,
  wellFormed k s = true ->
  json.scanString k (jsonEscape s +:+ String json.quote t) = Some (s, t).
Proof.
  induction s as [|c s IH]; intros k t Hwf.
  - destruct k; [reflexivity | discriminate].
  - destruct k as [|k].
    + cbn [wellFormed] in Hwf.
      destruct (json.code c <? 128)%N eqn:Hc.
      * cbn [jsonEscape]. rewrite append_assoc, (scanString_ascii c _ Hc).
        by rewrite (IH 0 t Hwf).
      * destruct (json.runeTail c s) as [k|] eqn:Hr; [|discriminate].
        rewrite (jsonEscape_high c s _ Hc), (scanString_high c _ Hc).
        rewrite (runeTail_escape c s k _ Hr). by rewrite (IH k t Hwf).
    + cbn [wellFormed] in Hwf. apply andb_true_iff in Hwf as [Hc Hwf].
      rewrite (jsonEscape_high c s _ (isCont_high _ Hc)).
      change (json.prepend (json.str1 c)
                (json.scanString k (jsonEscape s +:+ String json.quote t))
              = Some (String c s, t)).
      by rewrite (IH k t Hwf).
Qed.

Lemma jsonQuote_app s rest :
  jsonQuote s +:+ rest = String json.quote (jsonEscape s +:+ String json.quote rest).
Proof.
  unfold jsonQuote, dq. rewrite !append_assoc. reflexivity.
Qed.

Lemma scanValue_quote fuel depth X :
  json.scanValue (S fuel) depth (String json.quote X) =
    match json.scanString 0 X with
    | Some (str, rest') => Some (json.JString str, rest')
    | None => None
    end.
Proof. reflexivity. Qed.

Lemma scanValue_string fuel depth s rest :
  validUTF8 s ->
  json.scanValue (S fuel) depth (jsonQuote s +:+ rest) = Some (json.JString s, rest).
Proof.
  intros Hs. rewrite jsonQuote_app, scanValue_quote.
  by rewrite (scanString_escape s 0 rest Hs).
Qed.

Lemma scanMembers_quote fuel depth X :
  json.scanMembers (S fuel) depth (String json.quote X) =
    match json.scanString 0 X with
    | Some (key, rest1) =>
      match json.skipSpace rest1 with
      | String ":" rest2 =>
        match json.scanValue fuel depth rest2 with
        | Some (v, rest3) =>
          match json.skipSpace rest3 with
          | String "," rest4 =>
              match json.scanMembers fuel depth rest4 with
              | Some (ms, rest5) => Some ((key, v) :: ms, rest5)
              | None => None
              end
          | String "}" rest4 => Some ([(key, v)], rest4)
          | _ => None
          end
        | None => None
        end
      | _ => None
      end
    | None => None
    end.
Proof. reflexivity. Qed.

Lemma skipSpace_colon Y : json.skipSpace (":" +:+ Y) = String ":" Y.
Proof. reflexivity. Qed.

Lemma skipSpace_comma Y : json.skipSpace ("," +:+ Y) = String "," Y.
Proof. reflexivity. Qed.

Lemma skipSpace_brace Y : json.skipSpace ("}" +:+ Y) = String "}" Y.
Proof. reflexivity. Qed.

Lemma scanMembers_next fuel depth key s rest :
  validUTF8 key -> validUTF8 s ->
  json.scanMembers (S (S fuel)) depth
     (jsonQuote key +:+ ":" +:+ jsonQuote s +:+ "," +:+ rest) =
    match json.scanMembers (S fuel) depth rest with
    | Some (ms, rest') => Some ((key, json.JString s) :: ms, rest')
    | None => None
    end.
Proof.
  intros Hk Hs. rewrite jsonQuote_app, scanMembers_quote.
  rewrite (scanString_escape key 0 _ Hk), skipSpace_colon.
  rewrite (scanValue_string fuel depth s _ Hs), skipSpace_comma.
  reflexivity.
Qed.

Lemma scanMembers_last fuel depth key s rest :
  validUTF8 key -> validUTF8 s ->
  json.scanMembers (S (S fuel)) depth
     (jsonQuote key +:+ ":" +:+ jsonQuote s +:+ "}" +:+ rest) =
    Some ([(key, json.JString s)], rest).
Proof.
  intros Hk Hs. rewrite jsonQuote_app, scanMembers_quote.
  rewrite (scanString_escape key 0 _ Hk), skipSpace_colon.
  rewrite (scanValue_string fuel depth s _ Hs), skipSpace_brace.
  reflexivity.
Qed.

Lemma scanValue_object fuel X :
  json.scanValue (S fuel) 0 ("{" +:+ String json.quote X) =
    match json.scanMembers fuel 1 (String json.quote X) with
    | Some (ms, rest') => Some (json.JObject ms, rest')
    | None => None
    end.
Proof. reflexivity. Qed.

Lemma readValue_jsonEncode p :
  validUTF8 (Name p) -> validUTF8 (Email p) -> validUTF8 (Subject p) -> validUTF8 (Message p) ->
  json.readValue (jsonEncode p) = inl (json.JObject (payloadMembers p)).
Proof.
  intros Hn He Hs Hm. unfold json.readValue.
  assert (Hlen : exists n, String.length (jsonEncode p) = 5 + n).
  { unfold jsonEncode. rewrite !jsonQuote_app. by eexists. }
  destruct Hlen as [n ->].
  assert (Hscan : json.scanValue (S (5 + n)) 0 (jsonEncode p)
                  = Some (json.JObject (payloadMembers p), EmptyString)).
  { unfold jsonEncode.
    rewrite (jsonQuote_app "name"), scanValue_object, <- (jsonQuote_app "name").
    change (5 + n) with (S (S (S (S (S n))))).
    rewrite !scanMembers_next by (assumption || reflexivity).
    change (jsonQuote (Message p) +:+ "}")
      with (jsonQuote (Message p) +:+ "}" +:+ EmptyString).
    rewrite scanMembers_last by (assumption || reflexivity).
    reflexivity. }
  by rewrite Hscan.
Qed.

(** ** An escaped form value reads back as the value *)

Lemma lacks_app x a b : lacks x (a +:+ b) = lacks x a && lacks x b.
Proof.
  induction a as [|c a IH]; [done|].
  change (negb (Ascii.eqb c x) && lacks x (a +:+ b)
          = negb (Ascii.eqb c x) && lacks x a && lacks x b).
  by rewrite IH, andb_assoc.
Qed.

Lemma queryEscapeByte_lacks c :
  lacks "&" (queryEscapeByte c) = true /\ lacks ";" (queryEscapeByte c) = true.
Proof. each_byte c; split; reflexivity. Qed.

Lemma QueryEscape_lacks s :
  lacks "&" (QueryEscape s) = true /\ lacks ";" (QueryEscape s) = true.
Proof.
  induction s as [|c s [IH1 IH2]]; [done|].
  cbn [QueryEscape]. rewrite !lacks_app, IH1, IH2.
  destruct (queryEscapeByte_lacks c) as [-> ->]. done.
Qed.

Lemma QueryUnescape_byte c t :
  url.QueryUnescape (queryEscapeByte c +:+ t) =
    match url.QueryUnescape t with
    | inl u => inl (String c u)
    | inr e => inr e
    end.
Proof. each_byte c; reflexivity. Qed.

Lemma QueryUnescape_escape s : url.QueryUnescape (QueryEscape s) = inl s.
Proof.
  induction s as [|c s IH]; [done|].
  cbn [QueryEscape]. by rewrite QueryUnescape_byte, IH.
Qed.

Lemma Split_nonempty s sep : url.Split s sep <> [].
Proof.
  destruct s as [|c s]; [done|]. cbn [url.Split].
  destruct (Ascii.eqb c sep); [done|]. by destruct (url.Split s sep).
Qed.

Lemma Split_app a Y sep :
  lacks sep a = true ->
  url.Split (a +:+ Y) sep =
    match url.Split Y sep with
    | piece :: pieces => (a +:+ piece) :: pieces
    | [] => [a]
    end.
Proof.
  induction a as [|c a IH]; intros H.
  - change (EmptyString +:+ Y) with Y.
    pose proof (Split_nonempty Y sep). by destruct (url.Split Y sep).
  - cbn [lacks] in H. apply andb_true_iff in H as [Hc Ha].
    change (String c a +:+ Y) with (String c (a +:+ Y)). cbn [url.Split].
    apply negb_true_iff in Hc. rewrite Hc, (IH Ha).
    pose proof (Split_nonempty Y sep). by destruct (url.Split Y sep).
Qed.

Lemma Split_one a sep : lacks sep a = true -> url.Split a sep = [a].
Proof.
  intros H. rewrite <- (append_empty_r a) at 1. rewrite (Split_app a _ sep H).
  change (url.Split EmptyString sep) with [EmptyString].
  cbv beta iota. by rewrite append_empty_r.
Qed.

Lemma Split_amp a Y :
  lacks "&" a = true ->
  url.Split (a +:+ "&" +:+ Y) "&" = a :: url.Split Y "&".
Proof.
  intros H. rewrite (Split_app a _ "&" H).
  change (url.Split ("&" +:+ Y) "&") with (EmptyString :: url.Split Y "&").
  cbv beta iota. by rewrite append_empty_r.
Qed.

Lemma Contains_semicolon s : lacks ";" s = true -> Contains s ";" = false.
Proof.
  induction s as [|c s IH]; [done|]. cbn [lacks]. intros [Hc Hs]%andb_true_iff.
  cbn [Contains]. rewrite (IH Hs), orb_false_r.
  apply negb_true_iff in Hc. cbn [HasPrefix]. by rewrite Hc.
Qed.

(** One field of the form: the key is a literal made of letters. *)
Lemma parsePair_field m err key v :
  lacks ";" key = true -> lacks "=" key = true -> key <> EmptyString ->
  url.QueryUnescape key = inl key ->
  url.parsePair (m, err) (key +:+ "=" +:+ QueryEscape v) =
    (<[key := default [] (m !! key) ++ [v]]> m, err).
Proof.
  intros Hsemi Heq Hne Hkey. unfold url.parsePair.
  rewrite Contains_semicolon.
  2:{ rewrite !lacks_app, Hsemi. by destruct (QueryEscape_lacks v) as [_ ->]. }
  assert (String.eqb (key +:+ "=" +:+ QueryEscape v) EmptyString = false) as ->.
  { destruct key; [done|reflexivity]. }
  assert (url.Cut (key +:+ "=" +:+ QueryEscape v) "=" = (key, QueryEscape v)) as ->.
  { clear Hsemi Hne Hkey. induction key as [|c key IH]; [reflexivity|].
    cbn [lacks] in Heq. apply andb_true_iff in Heq as [Hc Hk].
    change (String c key +:+ "=" +:+ QueryEscape v)
      with (String c (key +:+ "=" +:+ QueryEscape v)).
    cbn [url.Cut]. apply negb_true_iff in Hc. by rewrite Hc, (IH Hk). }
  by rewrite Hkey, QueryUnescape_escape.
Qed.

Lemma ParseQuery_formEncode p :
  url.ParseQuery (formEncode p) = (payloadValues p, None).
Proof.
  unfold url.ParseQuery, formEncode.
  destruct (QueryEscape_lacks (Name p)) as [Hn _].
  destruct (QueryEscape_lacks (Email p)) as [He _].
  destruct (QueryEscape_lacks (Subject p)) as [Hs _].
  destruct (QueryEscape_lacks (Message p)) as [Hm _].
  change ("name=" +:+ QueryEscape (Name p) +:+ "&email=" +:+ QueryEscape (Email p)
          +:+ "&subject=" +:+ QueryEscape (Subject p)
          +:+ "&message=" +:+ QueryEscape (Message p))
    with (("name" +:+ "=" +:+ QueryEscape (Name p)) +:+ "&"
          +:+ ("email" +:+ "=" +:+ QueryEscape (Email p)) +:+ "&"
          +:+ ("subject" +:+ "=" +:+ QueryEscape (Subject p)) +:+ "&"
          +:+ ("message" +:+ "=" +:+ QueryEscape (Message p))).
  assert (Hl : forall key v, lacks "&" key = true ->
                 lacks "&" (key +:+ "=" +:+ QueryEscape v) = true).
  { intros key v Hk. rewrite !lacks_app, Hk.
    by destruct (QueryEscape_lacks v) as [-> _]. }
  rewrite (Split_amp _ _ (Hl "name" (Name p) eq_refl)).
  rewrite (Split_amp _ _ (Hl "email" (Email p) eq_refl)).
  rewrite (Split_amp _ _ (Hl "subject" (Subject p) eq_refl)).
  rewrite (Split_one _ _ (Hl "message" (Message p) eq_refl)).
  cbn [fold_left].
  rewrite (parsePair_field _ _ "name") by done.
  rewrite (parsePair_field _ _ "email") by done.
  rewrite (parsePair_field _ _ "subject") by done.
  rewrite (parsePair_field _ _ "message") by done.
  unfold payloadValues. by simplify_map_eq.
Qed.

Lemma copyValues_empty m : http.copyValues m ∅ = m.
Proof. unfold http.copyValues. apply (right_id ∅ _). Qed.

Lemma Decode_jsonEncode p :
  validUTF8 (Name p) -> validUTF8 (Email p) -> validUTF8 (Subject p) -> validUTF8 (Message p) ->
  json.Decode jsonFields json.readValue (jsonEncode p) zeroContactForm = (p, None).
Proof.
  intros Hn He Hs Hm. unfold json.Decode.
  rewrite (readValue_jsonEncode p Hn He Hs Hm). by destruct p.
Qed.

Lemma FormValue_copyValues m Q key v :
  m !! key = Some [v] -> FormValue (http.copyValues m Q) key = v.
Proof.
  intros H. unfold FormValue, http.copyValues.
  rewrite lookup_union_with, H. by destruct (Q !! key).
Qed.

Lemma payloadValues_copy_fields p Q :
  {| Name := FormValue (http.copyValues (payloadValues p) Q) "name";
     Email := FormValue (http.copyValues (payloadValues p) Q) "email";
     Subject := FormValue (http.copyValues (payloadValues p) Q) "subject";
     Message := FormValue (http.copyValues (payloadValues p) Q) "message" |} = p.
Proof.
  rewrite (FormValue_copyValues _ Q "name" (Name p)),
          (FormValue_copyValues _ Q "email" (Email p)),
          (FormValue_copyValues _ Q "subject" (Subject p)),
          (FormValue_copyValues _ Q "message" (Message p));
    try (unfold payloadValues; by simplify_map_eq).
  by destruct p.
Qed.

Lemma ParseForm_form mt r p ct Q :
  Method r = "POST" ->
  Header_Get (Header r) "Content-Type" = ct -> ct <> EmptyString ->
  mt ct = ("application/x-www-form-urlencoded", None) ->
  Body r = formEncode p ->
  (http.lengthN (formEncode p) <=? 10485760)%N = true ->
  url.ParseQuery (RawQuery r) = (Q, None) ->
  http.ParseForm mt r = (http.copyValues (payloadValues p) Q, None).
Proof.
  intros HM Hct Hne Hmt Hbody Hsize HQ. unfold http.ParseForm, http.parsePostForm.
  rewrite HM, Hct, Hbody, HQ.
  change (String.eqb "POST" "POST") with true. cbn [orb].
  apply String.eqb_neq in Hne. rewrite Hne, Hmt.
  change (String.eqb "application/x-www-form-urlencoded" "application/x-www-form-urlencoded")
    with true.
  cbv beta iota.
  assert ((10485760 <? http.lengthN (formEncode p))%N = false) as ->.
  { apply N.ltb_ge. by apply N.leb_le. }
  by rewrite ParseQuery_formEncode.
Qed.

(** ** The members of an object reach the fields their tags name *)

Lemma ContactForm_eq f g :
  (forall key, In key tags -> field key f = field key g) -> f = g.
Proof.
  intros H. destruct f as [n e s m], g as [n' e' s' m'].
  pose proof (H "name") as H1. pose proof (H "email") as H2.
  pose proof (H "subject") as H3. pose proof (H "message") as H4.
  cbn in H1, H2, H3, H4. rewrite H1, H2, H3, H4; auto 10.
Qed.

(** Storing string members under the four tags, each at most once. *)
Lemma object_strings members : forall v,
  (forall key val, In (key, val) members ->
     In key tags /\ exists s, val = json.JString s) ->
  List.NoDup (List.map fst members) ->
  exists v', json.object jsonFields members v None = (v', None) /\
    forall key, In key tags ->
      (forall s, In (key, json.JString s) members -> field key v' = s) /\
      (~ In key (List.map fst members) -> field key v' = field key v).
Proof.
  induction members as [|[k0 val0] members IH]; intros v Hall Hnd.
  - exists v. split; [reflexivity|]. intros key _. split; [intros s []|done].
  - destruct (Hall k0 val0 (or_introl eq_refl)) as [Hk0 [s0 ->]].
    inversion Hnd as [|? ? Hnotin Hnd']; subst.
    assert (Hstep : exists set, json.findField jsonFields k0 = Some set /\
               field k0 (set v s0) = s0 /\
               forall key, In key tags -> key <> k0 -> field key (set v s0) = field key v).
    { cbn in Hk0. destruct Hk0 as [<- | [<- | [<- | [<- | []]]]];
        eexists; (split; [reflexivity|]); (split; [reflexivity|]);
        intros key Hkey Hne; cbn in Hkey;
        destruct Hkey as [<- | [<- | [<- | [<- | []]]]]; try done. }
    destruct Hstep as (set & Hfind & Hset & Hother).
    destruct (IH (set v s0)) as (v' & Hobj & Hfields).
    { intros key val Hin. apply Hall. by right. }
    { exact Hnd'. }
    exists v'. split.
    { cbn [json.object]. rewrite Hfind. exact Hobj. }
    intros key Hkey. destruct (Hfields key Hkey) as [Hin Hout]. split.
    + intros s [Heq | Hmem].
      * injection Heq as -> ->. destruct (Hfields key Hkey) as [_ Hout'].
        rewrite (Hout' Hnotin). exact Hset.
      * by apply Hin.
    + intros Hnot. cbn [List.map fst In] in Hnot.
      rewrite Hout by tauto. apply Hother; [done|]. intros ->. tauto.
Qed.

Lemma Decode_payload readValue input p members :
  readValue input = inl (json.JObject members) ->
  members ≡ₚ payloadMembers p ->
  json.Decode jsonFields readValue input zeroContactForm = (p, None).
Proof.
  intros Hread Hperm. unfold json.Decode. rewrite Hread. cbn [json.unmarshal].
  destruct (object_strings members zeroContactForm) as (v' & -> & Hfields).
  - intros key val Hin. apply list_elem_of_In in Hin. rewrite Hperm in Hin.
    apply list_elem_of_In in Hin. cbn in Hin.
    destruct Hin as [Heq | [Heq | [Heq | [Heq | []]]]]; inversion Heq; subst;
      (split; [cbn; tauto | by eexists]).
  - apply NoDup_ListNoDup. rewrite Hperm. cbn.
    repeat (apply NoDup_cons_2;
            [rewrite ?elem_of_cons, elem_of_nil; intuition discriminate|]).
    apply NoDup_nil_2.
  - f_equal. apply ContactForm_eq. intros key Hkey.
    destruct (Hfields key Hkey) as [Hin _].
    cbn in Hkey. destruct Hkey as [<- | [<- | [<- | [<- | []]]]]; apply Hin;
      apply list_elem_of_In; rewrite Hperm; apply list_elem_of_In; cbn; tauto.
Qed.

(** * The claims *)

Section Claims.
Variable net : Network.
Variable readValue : string -> json.Value + string.
Variable ParseForm : Request -> gmap string (list string) * error.

Local Abbreviation run := (run net readValue ParseForm).
Local Abbreviation parsed := (parsed readValue ParseForm).

(** C1.  For a POST request that parses to non-empty name, email and
    message: if the notification dispatch returns an error, the response has
    status 500 and the body "Failed to send email", and the confirmation
    dispatch is not invoked. *)
Theorem notification_failure_answers_500 h r form e :
  Method r = "POST" -> parsed r = Some form ->
  Name form <> EmptyString -> Email form <> EmptyString -> Message form <> EmptyString ->
  In (EvDispatchDone (Notification (Name form) (Email form) (Subject form) (Message form))
                     (Some e))
     (trace (run h r)) ->
  status (resp (run h r)) = Some 500 /\
  body (resp (run h r)) = [Println "Failed to send email"] /\
  forall name email message,
    ~ In (EvDispatch (Confirmation name email message)) (trace (run h r)).
Proof.
  intros HM HP Hn He Hm Hdone.
  destruct (mail_valid net readValue ParseForm h r form HM HP Hn He Hm)
    as (wire1 & Hw1 & [(e' & Hmail & Hresp) | (wire2 & err2 & Hw2 & Hmail & Hresp)]).
  - rewrite Hresp. split; [reflexivity|]. split; [reflexivity|].
    intros name email message Hin. apply in_mail in Hin; [|reflexivity].
    rewrite Hmail in Hin. in_mail_cases Hin.
  - exfalso. apply in_mail in Hdone; [|reflexivity].
    rewrite Hmail in Hdone. in_mail_cases Hdone.
Qed.

(** C2.  For a POST request that parses to non-empty name, email and
    message: if the notification dispatch succeeds and the confirmation
    dispatch returns an error, the response still has status 200 and the
    JSON body with status "success" and message "Your message has been sent
    successfully". *)
Theorem confirmation_failure_answers_200 h r form e :
  Method r = "POST" -> parsed r = Some form ->
  Name form <> EmptyString -> Email form <> EmptyString -> Message form <> EmptyString ->
  In (EvDispatchDone (Notification (Name form) (Email form) (Subject form) (Message form))
                     None)
     (trace (run h r)) ->
  In (EvDispatchDone (Confirmation (Name form) (Email form) (Message form)) (Some e))
     (trace (run h r)) ->
  status (resp (run h r)) = Some 200 /\
  body (resp (run h r)) =
    [JSONLine {[ "status" := "success";
                 "message" := "Your message has been sent successfully" ]}].
Proof.
  intros HM HP Hn He Hm Hdone1 Hdone2.
  destruct (mail_valid net readValue ParseForm h r form HM HP Hn He Hm)
    as (wire1 & Hw1 & [(e' & Hmail & Hresp) | (wire2 & err2 & Hw2 & Hmail & Hresp)]).
  - exfalso. apply in_mail in Hdone2; [|reflexivity].
    rewrite Hmail in Hdone2. in_mail_cases Hdone2.
  - rewrite Hresp. split; reflexivity.
Qed.

(** C3.  For a valid submission (a POST request that parses, with non-empty
    name, email and message) the mail events of the run are: the
    notification dispatch, its SMTP traffic and its return; and then, if and
    only if it returned no error, the confirmation dispatch, its SMTP
    traffic and its return.  So there is exactly one notification dispatch,
    at most one confirmation attempt, and the confirmation is attempted only
    after the notification has returned, and exactly when it succeeded. *)
Theorem dispatch_sequence h r form :
  Method r = "POST" -> parsed r = Some form ->
  Name form <> EmptyString -> Email form <> EmptyString -> Message form <> EmptyString ->
  let N := Notification (Name form) (Email form) (Subject form) (Message form) in
  let C := Confirmation (Name form) (Email form) (Message form) in
  exists wire1, forallb isWire wire1 = true /\
    ((exists e, mail (trace (run h r)) =
                  EvDispatch N :: wire1 ++ [EvDispatchDone N (Some e)])
     \/
     (exists wire2 err2, forallb isWire wire2 = true /\
        mail (trace (run h r)) =
          EvDispatch N :: wire1 ++ [EvDispatchDone N None; EvDispatch C]
          ++ wire2 ++ [EvDispatchDone C err2])).
Proof.
  intros HM HP Hn He Hm N C.
  destruct (mail_valid net readValue ParseForm h r form HM HP Hn He Hm)
    as (wire1 & Hw1 & [(e' & Hmail & Hresp) | (wire2 & err2 & Hw2 & Hmail & Hresp)]).
  - exists wire1. split; [done|]. left. by exists e'.
  - exists wire1. split; [done|]. right. by exists wire2, err2.
Qed.

(** C4.  For a POST request whose body parses: if one of name, email and
    message is the empty string, the response has status 400 and the body
    "Name, email, and message are required", and the run has no mail event
    (neither dispatch method is called, nothing goes on the wire); and if
    none of the three is the empty string, whatever else they hold (white
    space only, say), the request passes the check and the notification is
    dispatched. *)
Theorem empty_field_answers_400 h r form :
  Method r = "POST" -> parsed r = Some form ->
  (Name form = EmptyString \/ Email form = EmptyString \/ Message form = EmptyString ->
   status (resp (run h r)) = Some 400 /\
   body (resp (run h r)) = [Println "Name, email, and message are required"] /\
   mail (trace (run h r)) = []) /\
  (Name form <> EmptyString -> Email form <> EmptyString -> Message form <> EmptyString ->
   In (EvDispatch (Notification (Name form) (Email form) (Subject form) (Message form)))
      (trace (run h r))).
Proof.
  intros HM HP. split.
  - intros Hempty. rewrite (run_invalid net readValue ParseForm h r form HM HP Hempty).
    cbn [resp trace status body errorResponse].
    split; [reflexivity|]. split; [reflexivity|].
    rewrite !mail_app, mail_cors, mail_parseEvent, mail_errorEvents. reflexivity.
  - intros Hn He Hm.
    destruct (run_valid net readValue ParseForm h r form HM HP Hn He Hm)
      as (err1 & wire1 & H1 & Hrun).
    destruct err1 as [e|]; [|destruct Hrun as (err2 & wire2 & H2 & Hrun)];
      rewrite Hrun; cbn [trace]; rewrite <- app_assoc;
      apply in_or_app; right; apply in_or_app; left; simpl; auto.
Qed.

(** C6.  For a POST request, the body is read as JSON exactly when the
    Content-Type header contains "application/json", and as a URL-encoded
    form otherwise (an absent header reads as the empty string); the fields
    are those the selected reader gives.  When the JSON decoder fails the
    response has status 400 and body "Invalid JSON format"; when the form
    parser fails it has status 400 and body "Failed to parse form"; and in
    both cases the run has no mail event. *)
Theorem body_read_by_content_type h r :
  Method r = "POST" ->
  let isJSON := Contains (Header_Get (Header r) "Content-Type") "application/json" in
  (In EvDecodeJSON (trace (run h r)) <-> isJSON = true) /\
  (In EvParseForm (trace (run h r)) <-> isJSON = false) /\
  parsed r =
    (if isJSON then
       match json.Decode jsonFields readValue (Body r) zeroContactForm with
       | (form, None) => Some form
       | (_, Some _) => None
       end
     else
       match ParseForm r with
       | (Form, None) => Some {| Name := FormValue Form "name";
                                 Email := FormValue Form "email";
                                 Subject := FormValue Form "subject";
                                 Message := FormValue Form "message" |}
       | (_, Some _) => None
       end) /\
  (isJSON = true ->
   forall e, snd (json.Decode jsonFields readValue (Body r) zeroContactForm) = Some e ->
   status (resp (run h r)) = Some 400 /\
   body (resp (run h r)) = [Println "Invalid JSON format"] /\
   mail (trace (run h r)) = []) /\
  (isJSON = false ->
   forall e, snd (ParseForm r) = Some e ->
   status (resp (run h r)) = Some 400 /\
   body (resp (run h r)) = [Println "Failed to parse form"] /\
   mail (trace (run h r)) = []).
Proof.
  intros HM isJSON.
  pose proof (parses_post net readValue ParseForm h r HM) as Hparses.
  pose proof (parsed_eq readValue ParseForm r) as Hparsed.
  fold isJSON in Hparsed.
  assert (Hfail : parsed r = None ->
            status (resp (run h r)) = Some 400 /\
            body (resp (run h r)) = [Println (parseFailure r)] /\
            mail (trace (run h r)) = []).
  { intros HP. rewrite (run_parse_failed net readValue ParseForm h r HM HP).
    cbn [resp trace status body errorResponse].
    split; [reflexivity|]. split; [reflexivity|].
    rewrite !mail_app, mail_cors, mail_parseEvent, mail_errorEvents. reflexivity. }
  unfold parseEvent in Hparses. unfold parseFailure in Hfail.
  fold isJSON in Hparses, Hfail.
  split; [|split; [|split; [exact Hparsed|split]]].
  - rewrite (in_parses EvDecodeJSON) by reflexivity. rewrite Hparses.
    destruct isJSON; simpl; split; intros H; auto; try discriminate.
    by destruct H.
  - rewrite (in_parses EvParseForm) by reflexivity. rewrite Hparses.
    destruct isJSON; simpl; split; intros H; auto; try discriminate.
    by destruct H.
  - intros HJ e Herr. rewrite HJ in Hparsed, Hfail. apply Hfail.
    rewrite Hparsed. destruct (json.Decode _ _ _ _) as [f [e'|]]; [done|discriminate].
  - intros HJ e Herr. rewrite HJ in Hparsed, Hfail. apply Hfail.
    rewrite Hparsed. destruct (ParseForm r) as [f [e'|]]; [done|discriminate].
Qed.

(** C7.  On every invocation of the handler, whatever the request's method
    and whichever way the run ends, the first three events are the setting
    of Access-Control-Allow-Origin to the configured origin, of
    Access-Control-Allow-Methods to "POST, OPTIONS" and of
    Access-Control-Allow-Headers to "Content-Type", and the three headers
    are in the response's header map at the end. *)
Theorem cors_headers_first h r :
  (exists rest,
     trace (run h r) =
       [EvSetHeader "Access-Control-Allow-Origin" (corsOrigin h);
        EvSetHeader "Access-Control-Allow-Methods" "POST, OPTIONS";
        EvSetHeader "Access-Control-Allow-Headers" "Content-Type"] ++ rest) /\
  header (resp (run h r)) !! "Access-Control-Allow-Origin" = Some [corsOrigin h] /\
  header (resp (run h r)) !! "Access-Control-Allow-Methods" = Some ["POST, OPTIONS"] /\
  header (resp (run h r)) !! "Access-Control-Allow-Headers" = Some ["Content-Type"].
Proof.
  destruct (run_cors net readValue ParseForm h r) as [Htrace Hset].
  split; [exact Htrace | exact Hset].
Qed.

(** C5.  For a valid submission the notification is a mail to the
    configured recipient address: whatever the session puts on the wire
    between the dispatch and its return has that address as recipient, and
    as data the message with the subject "New Contact Form Submission: "
    followed by the submitted subject and the HTML body built from the
    submission; when the dispatch goes through, the wire is that of one
    complete session, with this one recipient and this one message, and the
    response has status 200 and the JSON body with status "success" and
    message "Your message has been sent successfully".  The HTML body
    contains the submitted name, email and subject, and the message with
    every line feed replaced by "<br>": for the message of the two lines
    Hello and World it contains "Hello<br>World". *)
Theorem notification_mail h r form :
  Method r = "POST" -> parsed r = Some form ->
  Name form <> EmptyString -> Email form <> EmptyString -> Message form <> EmptyString ->
  let s := emailSender h in
  let rcpt := RecipientEmail (email.config s) in
  let subject := "New Contact Form Submission: " +:+ Subject form in
  let html := email.recipientBody (Name form) (Email form) (Subject form) (Message form) in
  let N := Notification (Name form) (Email form) (Subject form) (Message form) in
  (exists parseEv wire err rest,
     trace (run h r) =
       corsEvents (corsOrigin h) ++ [parseEv; EvDispatch N] ++ wire
       ++ EvDispatchDone N err :: rest /\
     forallb isWire wire = true /\
     forallb (envelopeOK s rcpt subject html) wire = true /\
     (err = None ->
      (exists tls closed, wire = sessionOK s rcpt subject html tls closed) /\
      envelopeTo wire = [rcpt] /\
      dataSent wire =
        ["From: " +:+ FromEmail (email.config s) +:+ CRLF +:+
         "To: " +:+ rcpt +:+ CRLF +:+
         "Subject: " +:+ subject +:+ CRLF +:+
         "MIME-Version: 1.0" +:+ CRLF +:+
         "Content-Type: text/html; charset=UTF-8" +:+ CRLF +:+
         CRLF +:+ html +:+ CRLF] /\
      status (resp (run h r)) = Some 200 /\
      body (resp (run h r)) =
        [JSONLine {[ "status" := "success";
                     "message" := "Your message has been sent successfully" ]}])) /\
  Contains html (Name form) = true /\
  Contains html (Email form) = true /\
  Contains html (Subject form) = true /\
  Contains html (ReplaceAll (Message form) LF "<br>") = true /\
  ReplaceAll (Message form) LF "<br>" = newlinesToBreaks (Message form) /\
  Contains (email.recipientBody "Ada" "ada@example.com" "Hi" ("Hello" +:+ LF +:+ "World"))
           "Hello<br>World" = true.
Proof.
  intros HM HP Hn He Hm s rcpt subject html N.
  destruct (recipientBody_contains (Name form) (Email form) (Subject form) (Message form))
    as (Hc1 & Hc2 & Hc3 & Hc4).
  split; [|rewrite ReplaceAll_breaks; repeat split; try assumption; reflexivity].
  destruct (run_valid net readValue ParseForm h r form HM HP Hn He Hm)
    as (err1 & wire1 & H1 & Hrun).
  rewrite recipientSubject_eq in H1. fold s rcpt subject html in H1.
  pose proof (sends_wire _ _ _ _ _ _ _ _ H1) as Hw1.
  pose proof (sends_envelope _ _ _ _ _ _ _ _ H1) as He1.
  destruct err1 as [e|].
  - exists (parseEvent r), wire1, (Some e). eexists.
    split; [rewrite Hrun; cbn [trace]; rewrite <- !app_assoc; reflexivity|].
    split; [exact Hw1|]. split; [exact He1|]. discriminate.
  - destruct Hrun as (err2 & wire2 & H2 & Hrun).
    exists (parseEvent r), wire1, None. eexists.
    split; [rewrite Hrun; cbn [trace]; rewrite <- !app_assoc; reflexivity|].
    split; [exact Hw1|]. split; [exact He1|]. intros _.
    destruct (sends_success _ _ _ _ _ _ _ H1) as (tls & closed & ->).
    split; [by exists tls, closed|].
    destruct (sessionOK_mail s rcpt subject html tls closed) as (_ & Hto & Hdata).
    rewrite Hrun. cbn [resp status body successResponse].
    split; [exact Hto|]. split; [exact Hdata|]. split; reflexivity.
Qed.

End Claims.

(** C9.  The two revisions of [Sender] (the explicit SMTP session and the
    one on [smtp.SendMail]) compose, for every destination, subject and
    body and the same configuration, the same message bytes: the From, To,
    Subject, MIME-Version and Content-Type header lines, an empty line, the
    body and a final CRLF.  They use the same envelope: the [SendMail]
    revision passes the configured sender and the one recipient to
    [smtp.SendMail] with that message; whatever the session revision puts
    through [Mail], [Rcpt] and [Write] are that sender, that recipient and
    that message, and a session that goes through puts each through once.
    Their two dispatch methods hand the same recipient, subject and HTML body
    to [Send]. *)
Theorem revisions_compose_the_same_mail (net : Network) (cfg : Config)
    (to subject body : string) (w : World) :
  let s1 := email.NewSender cfg in
  let s2 := email_sendmail.NewSender cfg in
  let m := "From: " +:+ FromEmail cfg +:+ CRLF +:+
           "To: " +:+ to +:+ CRLF +:+
           "Subject: " +:+ subject +:+ CRLF +:+
           "MIME-Version: 1.0" +:+ CRLF +:+
           "Content-Type: text/html; charset=UTF-8" +:+ CRLF +:+
           CRLF +:+ body +:+ CRLF in
  email.msg s1 to subject body = m /\
  email_sendmail.msg s2 to subject body = m /\
  (exists err addr auth,
     email_sendmail.Send net s2 to subject body w =
       (err, {| resp := resp w;
                trace := trace w ++ [EvSmtp (smtp_SendMail addr auth (FromEmail cfg) [to] m) err] |}) /\
     envelopeFrom [EvSmtp (smtp_SendMail addr auth (FromEmail cfg) [to] m) err] = [FromEmail cfg] /\
     envelopeTo [EvSmtp (smtp_SendMail addr auth (FromEmail cfg) [to] m) err] = [to] /\
     dataSent [EvSmtp (smtp_SendMail addr auth (FromEmail cfg) [to] m) err] = [m]) /\
  (exists err wire,
     email.Send net s1 to subject body w =
       (err, {| resp := resp w; trace := trace w ++ wire |}) /\
     forallb (envelopeOK s1 to subject body) wire = true /\
     (err = None ->
      envelopeFrom wire = [FromEmail cfg] /\ envelopeTo wire = [to] /\ dataSent wire = [m])) /\
  (forall name email subject message,
     email.recipientSubject subject = email_sendmail.recipientSubject subject /\
     email.recipientBody name email subject message
       = email_sendmail.recipientBody name email subject message /\
     email.confirmationSubject = email_sendmail.confirmationSubject /\
     email.confirmationBody name message = email_sendmail.confirmationBody name message /\
     email.SendContactNotification net s1 name email subject message =
       (emit (EvDispatch (Notification name email subject message)) ;;
        err <- email.Send net s1 (RecipientEmail cfg)
                 (email.recipientSubject subject)
                 (email.recipientBody name email subject message) ;;
        emit (EvDispatchDone (Notification name email subject message) err) ;;
        ret err)%io /\
     email_sendmail.SendContactNotification net s2 name email subject message =
       (emit (EvDispatch (Notification name email subject message)) ;;
        err <- email_sendmail.Send net s2 (RecipientEmail cfg)
                 (email.recipientSubject subject)
                 (email.recipientBody name email subject message) ;;
        emit (EvDispatchDone (Notification name email subject message) err) ;;
        ret err)%io /\
     email.SendConfirmation net s1 name email message =
       (emit (EvDispatch (Confirmation name email message)) ;;
        err <- email.Send net s1 email email.confirmationSubject
                 (email.confirmationBody name message) ;;
        emit (EvDispatchDone (Confirmation name email message) err) ;;
        ret err)%io /\
     email_sendmail.SendConfirmation net s2 name email message =
       (emit (EvDispatch (Confirmation name email message)) ;;
        err <- email_sendmail.Send net s2 email email.confirmationSubject
                 (email.confirmationBody name message) ;;
        emit (EvDispatchDone (Confirmation name email message) err) ;;
        ret err)%io).
Proof.
  intros s1 s2 m.
  split; [reflexivity|]. split; [reflexivity|]. split; [|split].
  - unfold email_sendmail.Send, email_sendmail.smtp, observe.
    do 3 eexists. split; [reflexivity|]. repeat split.
  - destruct (sends_total net s1 to subject body (trace w)) as (err & wire & H).
    exists err, wire. split; [destruct w as [rw t]; apply H|].
    split; [by eapply sends_envelope|].
    intros ->. destruct (sends_success _ _ _ _ _ _ _ H) as (tls & closed & ->).
    apply (sessionOK_mail s1 to subject body tls closed).
  - intros name email subject' message. repeat split.
Qed.

(** C10.  Startup ends in the fatal configuration error exactly when one
    of SMTPUser, SMTPPassword and RecipientEmail is the empty string;
    FromEmail has no part in it.  So with the three set, FROM_EMAIL empty or
    not set, and the listener up, the process serves /contact with a sender
    whose FromEmail is empty: every message it composes starts with the
    header line "From: " and nothing after it, and every session gives the
    empty string as envelope sender. *)
Theorem startup_validation (env : gmap string string) (ListenAndServe : string -> error) :
  let cfg := Load env in
  ((exists line, server.main env ListenAndServe = server.FatalConfig line) <->
   (SMTPUser cfg = EmptyString \/ SMTPPassword cfg = EmptyString
    \/ RecipientEmail cfg = EmptyString)) /\
  FromEmail cfg = Getenv env "FROM_EMAIL" /\
  (SMTPUser cfg <> EmptyString -> SMTPPassword cfg <> EmptyString ->
   RecipientEmail cfg <> EmptyString ->
   Getenv env "FROM_EMAIL" = EmptyString ->
   ListenAndServe (":" +:+ ServerPort cfg) = None ->
   let s := email.NewSender cfg in
   server.main env ListenAndServe =
     server.Serving {[ "/contact" := NewContactHandler s (CORSOrigin cfg) ]}
                    (":" +:+ ServerPort cfg) /\
   FromEmail (email.config s) = EmptyString /\
   forall net to subject body t err wire,
     sends net s to subject body t err wire ->
     HasPrefix (email.msg s to subject body) ("From: " +:+ CRLF) = true /\
     (forall from e, In (EvSmtp (client_Mail from) e) wire -> from = EmptyString) /\
     (err = None -> envelopeFrom wire = [EmptyString])).
Proof.
  intros cfg.
  assert (HF : FromEmail cfg = Getenv env "FROM_EMAIL").
  { subst cfg. unfold Load, getEnv. cbn [FromEmail].
    by destruct (String.eqb_spec (Getenv env "FROM_EMAIL") EmptyString). }
  split; [|split; [exact HF|]].
  - unfold server.main. fold cfg.
    destruct (String.eqb_spec (SMTPUser cfg) EmptyString) as [HU|HU]; cbn [orb].
    { split; [by left | by eexists]. }
    destruct (String.eqb_spec (SMTPPassword cfg) EmptyString) as [HP|HP]; cbn [orb].
    { split; [by right; left | by eexists]. }
    destruct (String.eqb_spec (RecipientEmail cfg) EmptyString) as [HR|HR].
    { split; [by right; right | by eexists]. }
    split.
    + intros [line H]. by destruct (ListenAndServe _).
    + intros [H | [H | H]]; contradiction.
  - intros HU HP HR Hfrom Hlisten s.
    unfold server.main. fold cfg.
    apply String.eqb_neq in HU, HP, HR. rewrite HU, HP, HR, Hlisten. cbn [orb].
    split; [reflexivity|].
    assert (Hempty : FromEmail (email.config s) = EmptyString).
    { subst s. cbn [email.config email.NewSender]. by rewrite HF. }
    split; [exact Hempty|].
    intros net to subject body t err wire Hsends.
    split; [rewrite msg_eq, Hempty; reflexivity|]. split.
    + intros from e Hin.
      pose proof (sends_envelope _ _ _ _ _ _ _ _ Hsends) as Henv.
      rewrite forallb_forall in Henv. specialize (Henv _ Hin).
      cbn [envelopeOK] in Henv. apply String.eqb_eq in Henv. by rewrite Henv.
    + intros ->. destruct (sends_success _ _ _ _ _ _ _ Hsends) as (tls & closed & ->).
      destruct (sessionOK_mail s to subject body tls closed) as (Hfrom' & _ & _).
      by rewrite Hfrom', Hempty.
Qed.

(** C8.  A payload parses to the same four fields in both encodings.
    First, whatever the two readers are: when the JSON body of one request
    reads as the object with the four string members name, email, subject
    and message (in any order), and the form of another request parses to
    values whose first ones under these four keys are the same strings, the
    two requests parse to the same fields, those of the payload.  Then, for
    the standard readers: for every payload of well-formed UTF-8 strings
    whose form body is within the 10 MB the form parser reads, a request
    with the JSON text of the payload as body and a Content-Type containing
    "application/json", and a POST request with the URL-encoded form of the
    payload as body and a Content-Type of media type
    application/x-www-form-urlencoded (and a URL whose query parses), both
    parse to the payload.  In particular the form body
    name=Ada&email=ada%40example.com&subject=Hi&message=Hello and its JSON
    counterpart parse to the same fields. *)
Theorem encodings_agree :
  (forall (readValue : string -> json.Value + string)
          (ParseForm : Request -> gmap string (list string) * error)
          (rj rf : Request) (p : ContactForm)
          (members : list (string * json.Value)) (Form : gmap string (list string)),
     Contains (Header_Get (Header rj) "Content-Type") "application/json" = true ->
     Contains (Header_Get (Header rf) "Content-Type") "application/json" = false ->
     readValue (Body rj) = inl (json.JObject members) ->
     members ≡ₚ payloadMembers p ->
     ParseForm rf = (Form, None) ->
     (exists more, Form !! "name" = Some (Name p :: more)) ->
     (exists more, Form !! "email" = Some (Email p :: more)) ->
     (exists more, Form !! "subject" = Some (Subject p :: more)) ->
     (exists more, Form !! "message" = Some (Message p :: more)) ->
     parsed readValue ParseForm rj = Some p /\
     parsed readValue ParseForm rf = Some p) /\
  (forall (ParseMediaType : string -> string * error) (rj rf : Request)
          (p : ContactForm) (contentType : string) (query : gmap string (list string)),
     validUTF8 (Name p) -> validUTF8 (Email p) ->
     validUTF8 (Subject p) -> validUTF8 (Message p) ->
     Contains (Header_Get (Header rj) "Content-Type") "application/json" = true ->
     Body rj = jsonEncode p ->
     Method rf = "POST" ->
     Header_Get (Header rf) "Content-Type" = contentType ->
     contentType <> EmptyString ->
     Contains contentType "application/json" = false ->
     ParseMediaType contentType = ("application/x-www-form-urlencoded", None) ->
     Body rf = formEncode p ->
     (http.lengthN (formEncode p) <=? 10485760)%N = true ->
     url.ParseQuery (RawQuery rf) = (query, None) ->
     parsed json.readValue (http.ParseForm ParseMediaType) rj = Some p /\
     parsed json.readValue (http.ParseForm ParseMediaType) rf = Some p) /\
  (forall (ParseMediaType : string -> string * error),
     ParseMediaType "application/x-www-form-urlencoded"
       = ("application/x-www-form-urlencoded", None) ->
     parsed json.readValue (http.ParseForm ParseMediaType) (formRequest helloFormBody)
       = Some helloForm /\
     parsed json.readValue (http.ParseForm ParseMediaType) (jsonRequest helloJSON)
       = Some helloForm).
Proof.
  assert (Hstd : forall ParseMediaType rj rf p contentType query,
     validUTF8 (Name p) -> validUTF8 (Email p) ->
     validUTF8 (Subject p) -> validUTF8 (Message p) ->
     Contains (Header_Get (Header rj) "Content-Type") "application/json" = true ->
     Body rj = jsonEncode p ->
     Method rf = "POST" ->
     Header_Get (Header rf) "Content-Type" = contentType ->
     contentType <> EmptyString ->
     Contains contentType "application/json" = false ->
     ParseMediaType contentType = ("application/x-www-form-urlencoded", None) ->
     Body rf = formEncode p ->
     (http.lengthN (formEncode p) <=? 10485760)%N = true ->
     url.ParseQuery (RawQuery rf) = (query, None) ->
     parsed json.readValue (http.ParseForm ParseMediaType) rj = Some p /\
     parsed json.readValue (http.ParseForm ParseMediaType) rf = Some p).
  { intros mt rj rf p ct Q Hn He Hs Hm HJ Hbj HM Hct Hne HF Hmt Hbf Hsize HQ.
    rewrite !parsed_eq. split.
    - rewrite HJ, Hbj. by rewrite (Decode_jsonEncode p Hn He Hs Hm).
    - rewrite Hct, HF. rewrite (ParseForm_form mt rf p ct Q HM Hct Hne Hmt Hbf Hsize HQ).
      by rewrite payloadValues_copy_fields. }
  split; [|split; [exact Hstd|]].
  - intros readValue ParseForm rj rf p members Form HJ HF Hread Hperm Hform
           [mn Hn] [me He] [ms Hs] [mm Hm].
    rewrite !parsed_eq, HJ, HF. split.
    + by rewrite (Decode_payload readValue (Body rj) p members Hread Hperm).
    + rewrite Hform. unfold FormValue. rewrite Hn, He, Hs, Hm. by destruct p.
  - intros mt Hmt.
    destruct (Hstd mt (jsonRequest helloJSON) (formRequest helloFormBody) helloForm
                "application/x-www-form-urlencoded" ∅) as [HJ HF];
      try reflexivity; try done.
Qed.

(** * Instances

    The claims at concrete requests, servers and environments, with the
    standard readers ([json.readValue] and [http.ParseForm]). *)

Lemma notification_failure_answers_500_witness :
  let w := run unreachable json.readValue (http.ParseForm plainMediaType)
               exampleHandler (jsonRequest adaJSON) in
  status (resp w) = Some 500 /\
  body (resp w) = [Println "Failed to send email"] /\
  forall name email message, ~ In (EvDispatch (Confirmation name email message)) (trace w).
Proof.
  apply (notification_failure_answers_500 unreachable json.readValue
           (http.ParseForm plainMediaType) exampleHandler (jsonRequest adaJSON) adaForm
           "failed to connect to SMTP server: dial tcp: connection refused").
  - reflexivity.
  - vm_compute. reflexivity.
  - discriminate.
  - discriminate.
  - discriminate.
  - vm_compute. tauto.
Defined.

Lemma confirmation_failure_answers_200_witness :
  let w := run bouncing json.readValue (http.ParseForm plainMediaType)
               exampleHandler (jsonRequest adaJSON) in
  status (resp w) = Some 200 /\
  body (resp w) =
    [JSONLine {[ "status" := "success";
                 "message" := "Your message has been sent successfully" ]}].
Proof.
  apply (confirmation_failure_answers_200 bouncing json.readValue
           (http.ParseForm plainMediaType) exampleHandler (jsonRequest adaJSON) adaForm
           "failed to set recipient: 550 no such user").
  - reflexivity.
  - vm_compute. reflexivity.
  - discriminate.
  - discriminate.
  - discriminate.
  - vm_compute. tauto.
  - vm_compute. tauto.
Defined.

Lemma dispatch_sequence_witness :
  let w := run accepting json.readValue (http.ParseForm plainMediaType)
               exampleHandler (formRequest helloFormBody) in
  let N := Notification "Ada" "ada@example.com" "Hi" "Hello" in
  let C := Confirmation "Ada" "ada@example.com" "Hello" in
  exists wire1, forallb isWire wire1 = true /\
    ((exists e, mail (trace w) = EvDispatch N :: wire1 ++ [EvDispatchDone N (Some e)])
     \/
     (exists wire2 err2, forallb isWire wire2 = true /\
        mail (trace w) =
          EvDispatch N :: wire1 ++ [EvDispatchDone N None; EvDispatch C]
          ++ wire2 ++ [EvDispatchDone C err2])).
Proof.
  apply (dispatch_sequence accepting json.readValue (http.ParseForm plainMediaType)
           exampleHandler (formRequest helloFormBody) helloForm).
  - reflexivity.
  - vm_compute. reflexivity.
  - discriminate.
  - discriminate.
  - discriminate.
Defined.

Lemma empty_field_answers_400_witness :
  (let w := run accepting json.readValue (http.ParseForm plainMediaType)
                exampleHandler (jsonRequest namelessJSON) in
   status (resp w) = Some 400 /\
   body (resp w) = [Println "Name, email, and message are required"] /\
   mail (trace w) = []) /\
  (let w := run accepting json.readValue (http.ParseForm plainMediaType)
                exampleHandler (formRequest blankFormBody) in
   In (EvDispatch (Notification " " " " EmptyString " ")) (trace w)).
Proof.
  split.
  - apply (empty_field_answers_400 accepting json.readValue (http.ParseForm plainMediaType)
             exampleHandler (jsonRequest namelessJSON) namelessForm).
    + reflexivity.
    + vm_compute. reflexivity.
    + left. reflexivity.
  - apply (empty_field_answers_400 accepting json.readValue (http.ParseForm plainMediaType)
             exampleHandler (formRequest blankFormBody) blankForm).
    + reflexivity.
    + vm_compute. reflexivity.
    + discriminate.
    + discriminate.
    + discriminate.
Defined.

Lemma notification_mail_witness :
  let w := run accepting json.readValue (http.ParseForm plainMediaType)
               exampleHandler (jsonRequest adaJSON) in
  let s := email.NewSender exampleConfig in
  let subject := "New Contact Form Submission: Hi" in
  let html := email.recipientBody "Ada" "ada@example.com" "Hi" ("Hello" +:+ LF +:+ "World") in
  let N := Notification "Ada" "ada@example.com" "Hi" ("Hello" +:+ LF +:+ "World") in
  (exists parseEv wire err rest,
     trace w = corsEvents "*" ++ [parseEv; EvDispatch N] ++ wire
               ++ EvDispatchDone N err :: rest /\
     forallb isWire wire = true /\
     forallb (envelopeOK s "owner@example.com" subject html) wire = true /\
     (err = None ->
      (exists tls closed, wire = sessionOK s "owner@example.com" subject html tls closed) /\
      envelopeTo wire = ["owner@example.com"] /\
      dataSent wire =
        ["From: noreply@example.com" +:+ CRLF +:+
         "To: owner@example.com" +:+ CRLF +:+
         "Subject: New Contact Form Submission: Hi" +:+ CRLF +:+
         "MIME-Version: 1.0" +:+ CRLF +:+
         "Content-Type: text/html; charset=UTF-8" +:+ CRLF +:+
         CRLF +:+ html +:+ CRLF] /\
      status (resp w) = Some 200 /\
      body (resp w) =
        [JSONLine {[ "status" := "success";
                     "message" := "Your message has been sent successfully" ]}])) /\
  Contains html "Ada" = true /\
  Contains html "ada@example.com" = true /\
  Contains html "Hi" = true /\
  Contains html (ReplaceAll ("Hello" +:+ LF +:+ "World") LF "<br>") = true /\
  ReplaceAll ("Hello" +:+ LF +:+ "World") LF "<br>" = "Hello<br>World" /\
  Contains html "Hello<br>World" = true.
Proof.
  apply (notification_mail accepting json.readValue (http.ParseForm plainMediaType)
           exampleHandler (jsonRequest adaJSON) adaForm).
  - reflexivity.
  - vm_compute. reflexivity.
  - discriminate.
  - discriminate.
  - discriminate.
Defined.

Lemma body_read_by_content_type_witness :
  (let w := run accepting json.readValue (http.ParseForm plainMediaType)
                exampleHandler (jsonRequest brokenJSON) in
   In EvDecodeJSON (trace w) /\
   status (resp w) = Some 400 /\
   body (resp w) = [Println "Invalid JSON format"] /\
   mail (trace w) = []) /\
  (let w := run accepting json.readValue (http.ParseForm plainMediaType)
                exampleHandler (formRequest brokenFormBody) in
   In EvParseForm (trace w) /\
   status (resp w) = Some 400 /\
   body (resp w) = [Println "Failed to parse form"] /\
   mail (trace w) = []).
Proof.
  split.
  - destruct (body_read_by_content_type accepting json.readValue
                (http.ParseForm plainMediaType) exampleHandler (jsonRequest brokenJSON))
      as (Hj & _ & _ & Hfail & _); [reflexivity|].
    split; [apply Hj; reflexivity|].
    apply (Hfail eq_refl "invalid or incomplete JSON value"). reflexivity.
  - destruct (body_read_by_content_type accepting json.readValue
                (http.ParseForm plainMediaType) exampleHandler (formRequest brokenFormBody))
      as (_ & Hf & _ & _ & Hfail); [reflexivity|].
    split; [apply Hf; reflexivity|].
    apply (Hfail eq_refl "invalid URL escape"). reflexivity.
Defined.

Lemma startup_validation_witness :
  let cfg := Load exampleEnv in
  let s := email.NewSender cfg in
  server.main exampleEnv listening =
    server.Serving {[ "/contact" := NewContactHandler s "*" ]} ":8080" /\
  FromEmail (email.config s) = EmptyString /\
  forall net to subject body t err wire,
    sends net s to subject body t err wire ->
    HasPrefix (email.msg s to subject body) ("From: " +:+ CRLF) = true /\
    (forall from e, In (EvSmtp (client_Mail from) e) wire -> from = EmptyString) /\
    (err = None -> envelopeFrom wire = [EmptyString]).
Proof.
  apply (startup_validation exampleEnv listening).
  - discriminate.
  - discriminate.
  - discriminate.
  - reflexivity.
  - reflexivity.
Defined.

Lemma encodings_agree_witness :
  parsed json.readValue (http.ParseForm plainMediaType) (jsonRequest (jsonEncode adaForm))
    = Some adaForm /\
  parsed json.readValue (http.ParseForm plainMediaType) (formRequest (formEncode adaForm))
    = Some adaForm /\
  parsed json.readValue (http.ParseForm plainMediaType) (formRequest helloFormBody)
    = Some helloForm /\
  parsed json.readValue (http.ParseForm plainMediaType) (jsonRequest helloJSON)
    = Some helloForm.
Proof.
  destruct encodings_agree as (_ & Hstd & Hhello).
  destruct (Hstd plainMediaType (jsonRequest (jsonEncode adaForm))
              (formRequest (formEncode adaForm)) adaForm
              "application/x-www-form-urlencoded" ∅) as [HJ HF];
    try reflexivity; try discriminate.
  destruct (Hhello plainMediaType eq_refl) as [HF' HJ'].
  repeat split; assumption.
Defined.

Lemma revisions_compose_the_same_mail_witness :
  let s1 := email.NewSender exampleConfig in
  let m := "From: noreply@example.com" +:+ CRLF +:+
           "To: ada@example.com" +:+ CRLF +:+
           "Subject: Hi" +:+ CRLF +:+
           "MIME-Version: 1.0" +:+ CRLF +:+
           "Content-Type: text/html; charset=UTF-8" +:+ CRLF +:+
           CRLF +:+ "<p>Hello</p>" +:+ CRLF in
  exists wire,
    email.Send accepting s1 "ada@example.com" "Hi" "<p>Hello</p>" newWorld
      = (None, {| resp := newResponse; trace := wire |}) /\
    envelopeFrom wire = ["noreply@example.com"] /\
    envelopeTo wire = ["ada@example.com"] /\
    dataSent wire = [m].
Proof.
  destruct (revisions_compose_the_same_mail accepting exampleConfig
              "ada@example.com" "Hi" "<p>Hello</p>" newWorld)
    as (_ & _ & _ & (err & wire & Hsend & _ & Hok) & _).
  assert (Herr : err = None).
  { revert Hsend. vm_compute. intros H. by injection H. }
  subst err. destruct (Hok eq_refl) as (Hfrom & Hto & Hdata).
  exists wire. split; [exact Hsend|]. split; [exact Hfrom|]. split; [exact Hto|exact Hdata].
Defined.

(** * Further properties

    Properties of the handler, of the SMTP session, of the configuration and
    of startup beyond the claims above. *)

(** ** More projections of a trace *)

Lemma quiet_wire wire : forallb isWire wire = true -> forallb quiet wire = true.
Proof.
  rewrite !forallb_forall. intros H e Hin. specialize (H e Hin). by destruct e.
Qed.

Lemma quiet_parseEvent r : quiet (parseEvent r) = true.
Proof. unfold parseEvent. by destruct (Contains _ _). Qed.

Lemma logs_app t u : logs (t ++ u) = logs t ++ logs u.
Proof. unfold logs. apply flat_map_app. Qed.

Lemma logs_wire wire : forallb isWire wire = true -> logs wire = [].
Proof.
  induction wire as [|e wire IH]; simpl; [done|].
  intros [He Hw]%andb_true_iff. destruct e; try discriminate; simpl; by apply IH.
Qed.

Lemma logs_parseEvent r : logs [parseEvent r] = [].
Proof. unfold parseEvent. by destruct (Contains _ _). Qed.

Lemma in_logs line t : In (EvLog line) t <-> In line (logs t).
Proof.
  unfold logs. rewrite in_flat_map. split.
  - intros Hin. exists (EvLog line). split; [exact Hin | by left].
  - intros (e & Hin & He). destruct e; try contradiction.
    destruct He as [He|[]]. by subst.
Qed.

Lemma dones_app t u : dones (t ++ u) = dones t ++ dones u.
Proof. unfold dones. apply flat_map_app. Qed.

Lemma dones_wire wire : forallb isWire wire = true -> dones wire = [].
Proof.
  induction wire as [|e wire IH]; simpl; [done|].
  intros [He Hw]%andb_true_iff. destruct e; try discriminate; simpl; by apply IH.
Qed.

Lemma dones_parseEvent r : dones [parseEvent r] = [].
Proof. unfold parseEvent. by destruct (Contains _ _). Qed.

Lemma dones_prefix h r d :
  dones (corsEvents (corsOrigin h) ++ [parseEvent r; EvDispatch d]) = [].
Proof. unfold parseEvent. by destruct (Contains _ _). Qed.

Lemma in_dones d err t : In (EvDispatchDone d err) t <-> In (d, err) (dones t).
Proof.
  unfold dones. rewrite in_flat_map. split.
  - intros Hin. exists (EvDispatchDone d err). split; [exact Hin | by left].
  - intros (e & Hin & He). destruct e; try contradiction.
    destruct He as [He|[]]. by inversion He; subst.
Qed.

Lemma in_calls op e wire : In (EvSmtp op e) wire <-> In (op, e) (calls wire).
Proof.
  unfold calls. rewrite in_flat_map. split.
  - intros Hin. exists (EvSmtp op e). split; [exact Hin | by left].
  - intros (ev & Hin & He). destruct ev; try contradiction.
    destruct He as [He|[]]. by inversion He; subst.
Qed.

Lemma not_smtp_parseEvent r op e : ~ In (EvSmtp op e) [parseEvent r].
Proof. unfold parseEvent. destruct (Contains _ _); cbn; intuition discriminate. Qed.

Lemma envelopeFrom_app t u : envelopeFrom (t ++ u) = envelopeFrom t ++ envelopeFrom u.
Proof. unfold envelopeFrom. apply flat_map_app. Qed.

Lemma envelopeTo_app t u : envelopeTo (t ++ u) = envelopeTo t ++ envelopeTo u.
Proof. unfold envelopeTo. apply flat_map_app. Qed.

Lemma dataSent_app t u : dataSent (t ++ u) = dataSent t ++ dataSent u.
Proof. unfold dataSent. apply flat_map_app. Qed.

Lemma envelope_parseEvent r :
  envelopeFrom [parseEvent r] = [] /\ envelopeTo [parseEvent r] = [] /\
  dataSent [parseEvent r] = [].
Proof. unfold parseEvent. by destruct (Contains _ _). Qed.

(** ** More on the strings the program formats *)

Lemma log_notification e :
  Sprintf "Failed to send email to recipient: %v" [e]
  = "Failed to send email to recipient: " +:+ e.
Proof.
  change (Sprintf "Failed to send email to recipient: %v" [e])
    with ("Failed to send email to recipient: " +:+ (e +:+ EmptyString)).
  by rewrite append_empty_r.
Qed.

Lemma log_confirmation e :
  Sprintf "Failed to send confirmation email to customer: %v" [e]
  = "Failed to send confirmation email to customer: " +:+ e.
Proof.
  change (Sprintf "Failed to send confirmation email to customer: %v" [e])
    with ("Failed to send confirmation email to customer: " +:+ (e +:+ EmptyString)).
  by rewrite append_empty_r.
Qed.

Lemma address_eq s :
  Sprintf "%s:%s" [SMTPHost (email.config s); SMTPPort (email.config s)] = address s.
Proof.
  unfold address.
  change (Sprintf "%s:%s" [SMTPHost (email.config s); SMTPPort (email.config s)])
    with (SMTPHost (email.config s) +:+ ":" +:+ (SMTPPort (email.config s) +:+ EmptyString)).
  by rewrite append_empty_r.
Qed.

Lemma confirmationBody_contains name message :
  let html := email.confirmationBody name message in
  Contains html name = true /\ Contains html (newlinesToBreaks message) = true.
Proof.
  intros html. subst html. unfold email.confirmationBody. rewrite ReplaceAll_breaks.
  generalize (newlinesToBreaks message). intros m.
  cbn. split; contains.
Qed.

(** ** The shape of a session *)

(** [fmt.Errorf] with the text of a step and [%w] gives the text followed
    by the error's. *)
Ltac wrapped :=
  unfold Errorf;
  first
    [ reflexivity
    | match goal with
      | |- Some _ = Some (_ +:+ ?e) => rewrite <- (append_empty_r e) at 2; reflexivity
      end ].

(** The session failed at the call number [k] of the script. *)
Ltac fails_at k s to subject body tls :=
  right; exists (firstn k (script s to subject body tls));
  match eval cbn in (skipn k (script s to subject body tls)) with
  | ?op :: ?rest => exists op, rest
  end;
  eexists; split; [reflexivity|]; split; [|reflexivity]; wrapped.

Ltac in_extension :=
  let Hin := fresh "Hin" in
  intros ? ? Hin; cbn in Hin;
  repeat (destruct Hin as [Hin|Hin]; [try discriminate; inversion Hin; subst; tauto|]);
  try contradiction.

(** The sessions of [Send], one for each way the server may answer. *)
Ltac session_cases H :=
  specialize (H newResponse); revert H;
  unfold email.Send; rewrite address_eq; send_unfold;
  oracle; rewrite <- ?app_assoc; simpl; intros H; inversion H as [[He Ht]];
  apply app_inv_head in Ht; subst; clear H.

(** Every session: the calls up to the first one that fails are those of
    the script, in order; the deferred [Close] follows if the connection was
    opened. *)
Lemma sends_script net s to subject body t err wire :
  sends net s to subject body t err wire ->
  exists tls closing,
    (forall ext ok, In (EvExtension ext ok) wire -> ext = "STARTTLS" /\ ok = tls) /\
    ((err = None /\
      calls wire = passed (script s to subject body tls) ++ [(client_Close, closing)])
     \/
     (exists done op rest e,
        script s to subject body tls = done ++ op :: rest /\
        err = Some (wrapOf op +:+ e) /\
        calls wire = passed done ++ (op, Some e)
                     :: match done with [] => [] | _ => [(client_Close, closing)] end)).
Proof.
  intros H. session_cases H.
  all: lazymatch goal with
    | X : extension _ _ _ = ?b |- _ => exists b
    | |- _ => exists false
    end.
  all: lazymatch goal with
    | X : reply _ _ client_Close = ?c |- _ => exists c
    | |- _ => exists None
    end.
  all: split; [in_extension|].
  all: first
    [ left; split; reflexivity
    | fails_at 0 s to subject body true
    | fails_at 1 s to subject body true
    | fails_at 2 s to subject body true
    | fails_at 3 s to subject body true
    | fails_at 4 s to subject body true
    | fails_at 5 s to subject body true
    | fails_at 6 s to subject body true
    | fails_at 7 s to subject body true
    | fails_at 8 s to subject body true
    | fails_at 9 s to subject body true
    | fails_at 0 s to subject body false
    | fails_at 1 s to subject body false
    | fails_at 2 s to subject body false
    | fails_at 3 s to subject body false
    | fails_at 4 s to subject body false
    | fails_at 5 s to subject body false
    | fails_at 6 s to subject body false
    | fails_at 7 s to subject body false
    | fails_at 8 s to subject body false ].
Qed.

Lemma script_open s to subject body tls op :
  In op (script s to subject body tls) -> op <> client_Close.
Proof.
  intros Hin ->. destruct tls; cbn in Hin; intuition discriminate.
Qed.

Lemma script_NoDup s to subject body tls : List.NoDup (script s to subject body tls).
Proof.
  destruct tls; cbn; repeat constructor; cbn; intuition discriminate.
Qed.

Lemma in_passed op err ops : In (op, err) (passed ops) -> err = None /\ In op ops.
Proof.
  unfold passed. rewrite in_map_iff. intros (op' & Heq & Hin). by inversion Heq; subst.
Qed.

Lemma fst_passed ops : map fst (passed ops) = ops.
Proof. unfold passed. rewrite map_map. cbn. apply map_id. Qed.

(** The calls of a session are those of its script, and [Close]. *)
Lemma sends_ops net s to subject body t err wire op e :
  sends net s to subject body t err wire ->
  In (EvSmtp op e) wire ->
  op = client_Close \/ exists tls, In op (script s to subject body tls).
Proof.
  intros H Hin. apply in_calls in Hin.
  destruct (sends_script _ _ _ _ _ _ _ _ H)
    as (tls & closing & _ & [[-> Hcalls] | (done & op' & rest & e' & Hscript & -> & Hcalls)]);
    rewrite Hcalls in Hin.
  - apply in_app_or in Hin as [Hin|Hin].
    + apply in_passed in Hin as [_ Hin]. right. by exists tls.
    + destruct Hin as [Hin|[]]. left. by inversion Hin.
  - apply in_app_or in Hin as [Hin|Hin].
    + apply in_passed in Hin as [_ Hin]. right. exists tls. rewrite Hscript.
      apply in_or_app. by left.
    + destruct Hin as [Hin|Hin].
      * inversion Hin; subst. right. exists tls. rewrite Hscript.
        apply in_or_app. right. by left.
      * destruct done; [destruct Hin|]. destruct Hin as [Hin|[]]. left. by inversion Hin.
Qed.

(** What [Send] returns and puts on the wire is a function of the server's
    answers. *)
Lemma sends_functional net s to subject body t err wire err' wire' :
  sends net s to subject body t err wire ->
  sends net s to subject body t err' wire' ->
  err = err' /\ wire = wire'.
Proof.
  intros H H'. specialize (H newResponse). specialize (H' newResponse).
  rewrite H in H'. inversion H' as [[He Ht]]. apply app_inv_head in Ht. by split.
Qed.

Lemma sends_unreachable net s to subject body t e :
  reply net t (smtp_Dial (address s)) = Some e ->
  sends net s to subject body t
        (Some ("failed to connect to SMTP server: " +:+ e))
        [EvSmtp (smtp_Dial (address s)) (Some e)].
Proof.
  intros Hdial rw. unfold email.Send. rewrite address_eq.
  unfold bind, email.smtp, observe. cbn [trace resp]. rewrite Hdial.
  unfold ret, Errorf. do 2 f_equal.
  rewrite <- (append_empty_r e) at 2. reflexivity.
Qed.

(** ** Storing the members of a JSON object *)

(** An error saved while storing the members of an object stays. *)
Lemma object_saved members : forall (v : ContactForm) e,
  exists v' e', json.object jsonFields members v (Some e) = (v', Some e').
Proof.
  induction members as [|[k val] members IH]; intros v e; cbn [json.object].
  - by exists v, e.
  - destruct (json.findField jsonFields k) as [set|]; [|apply IH].
    destruct val; cbn [json.saveError]; apply IH.
Qed.

Lemma findField_tag key :
  In key tags -> exists set, json.findField jsonFields key = Some set.
Proof.
  cbn. intros [<- | [<- | [<- | [<- | []]]]]; by eexists.
Qed.

Lemma object_wrong_type members key val : forall (v : ContactForm) saved,
  In (key, val) members -> In key tags ->
  (forall s, val <> json.JString s) -> val <> json.JNull ->
  exists v' e, json.object jsonFields members v saved = (v', Some e).
Proof.
  induction members as [|[k0 val0] members IH]; intros v saved Hin Hkey Hs Hn; [destruct Hin|].
  cbn [json.object]. destruct Hin as [Heq|Hin].
  - inversion Heq; subst. destruct (findField_tag key Hkey) as [set ->].
    destruct val; try (by destruct (Hs s)); try done;
      destruct saved; cbn [json.saveError]; apply object_saved.
  - destruct (json.findField jsonFields k0) as [set|]; [|by apply IH].
    destruct val0; by apply IH.
Qed.

Lemma copyValues_empty_l m : http.copyValues ∅ m = m.
Proof. unfold http.copyValues. apply (left_id ∅ _). Qed.

(** ** The environment *)

Lemma getEnv_nonempty env key d : d <> EmptyString -> getEnv env key d <> EmptyString.
Proof.
  intros Hd. unfold getEnv.
  destruct (String.eqb_spec (Getenv env key) EmptyString); done.
Qed.

Lemma getEnv_set env key d :
  Getenv env key <> EmptyString -> getEnv env key d = Getenv env key.
Proof.
  intros H. unfold getEnv. by destruct (String.eqb_spec (Getenv env key) EmptyString).
Qed.

Lemma getEnv_optional env key : getEnv env key EmptyString = Getenv env key.
Proof.
  unfold getEnv. by destruct (String.eqb_spec (Getenv env key) EmptyString).
Qed.

Lemma Getenv_empty env key k :
  Getenv (<[key := EmptyString]> env) k = Getenv (delete key env) k.
Proof.
  unfold Getenv. destruct (decide (k = key)) as [->|Hne].
  - by rewrite lookup_insert_eq, lookup_delete_eq.
  - by rewrite lookup_insert_ne, lookup_delete_ne.
Qed.

Lemma main_serving env ListenAndServe routes addr :
  server.main env ListenAndServe = server.Serving routes addr ->
  SMTPUser (Load env) <> EmptyString /\ SMTPPassword (Load env) <> EmptyString /\
  RecipientEmail (Load env) <> EmptyString /\
  addr = ":" +:+ ServerPort (Load env) /\
  routes = {[ "/contact" := NewContactHandler (email.NewSender (Load env))
                                              (CORSOrigin (Load env)) ]}.
Proof.
  unfold server.main.
  destruct (String.eqb_spec (SMTPUser (Load env)) EmptyString) as [HU|HU]; cbn [orb];
    [discriminate|].
  destruct (String.eqb_spec (SMTPPassword (Load env)) EmptyString) as [HP|HP]; cbn [orb];
    [discriminate|].
  destruct (String.eqb_spec (RecipientEmail (Load env)) EmptyString) as [HR|HR];
    [discriminate|].
  destruct (ListenAndServe _); [discriminate|].
  intros Heq. inversion Heq; subst. by repeat split.
Qed.

(** ** The runs of the handler *)

Section Runs.
Variable net : Network.
Variable readValue : string -> json.Value + string.
Variable ParseForm : Request -> gmap string (list string) * error.

Local Abbreviation run := (run net readValue ParseForm).
Local Abbreviation parsed := (parsed readValue ParseForm).

(** Every run goes one of the six ways. *)
Lemma run_outcome h r : Outcome net readValue ParseForm h r (run h r).
Proof.
  destruct (String.eqb_spec (Method r) "OPTIONS") as [HO|HO].
  { rewrite run_options by done. by constructor. }
  destruct (String.eqb_spec (Method r) "POST") as [HM|HM].
  2:{ rewrite run_not_allowed by done. by constructor. }
  destruct (parsed r) as [form|] eqn:HP.
  2:{ rewrite run_parse_failed by done. by constructor. }
  destruct (String.eqb_spec (Name form) EmptyString) as [Hn|Hn];
    [|destruct (String.eqb_spec (Email form) EmptyString) as [He|He];
      [|destruct (String.eqb_spec (Message form) EmptyString) as [Hm|Hm]]].
  1-3: erewrite run_invalid by eauto; econstructor; eauto.
  destruct (run_valid net readValue ParseForm h r form HM HP Hn He Hm)
    as (err1 & wire1 & H1 & Hrun).
  destruct err1 as [e|].
  - rewrite Hrun, log_notification.
    by apply (Undelivered net readValue ParseForm h r form wire1 e).
  - destruct Hrun as (err2 & wire2 & H2 & Hrun). rewrite Hrun.
    pose proof (Delivered net readValue ParseForm h r form wire1 wire2 err2
                  HM HP (conj Hn (conj He Hm)) H1 H2) as HD.
    cbv zeta in HD. destruct err2 as [e|]; [rewrite log_confirmation|]; exact HD.
Qed.

(** What has been logged and which dispatches have returned an error, in
    every run: nothing, or one line for the one dispatch that failed. *)
Lemma run_logs_dones h r :
  (logs (trace (run h r)) = [] /\
   forall d e, ~ In (d, Some e) (dones (trace (run h r))))
  \/
  (exists d e, logs (trace (run h r)) = [failureLine d e] /\
     In (d, Some e) (dones (trace (run h r))) /\
     forall d' e', In (d', Some e') (dones (trace (run h r))) -> d' = d /\ e' = e).
Proof.
  destruct (run_outcome h r) as
    [HM|HO HM|HM HP|form HM HP Hempty|form wire1 e HM HP Hreq N pre H1
     |form wire1 wire2 err2 HM HP Hreq N C pre H1 H2];
    cbn [trace].
  - left. split; [reflexivity|]. cbn. tauto.
  - left. split; [reflexivity|]. cbn. tauto.
  - left. rewrite !logs_app, !dones_app, logs_parseEvent, dones_parseEvent.
    split; [reflexivity|]. cbn. tauto.
  - left. rewrite !logs_app, !dones_app, logs_parseEvent, dones_parseEvent.
    split; [reflexivity|]. cbn. tauto.
  - right. exists N, e. pose proof (sends_wire _ _ _ _ _ _ _ _ H1) as Hw1.
    subst pre. rewrite !logs_app, !dones_app, (logs_wire _ Hw1), (dones_wire _ Hw1).
    assert (logs [parseEvent r; EvDispatch N] = []) as ->
      by (unfold parseEvent; by destruct (Contains _ _)).
    assert (dones [parseEvent r; EvDispatch N] = []) as ->
      by (unfold parseEvent; by destruct (Contains _ _)).
    cbn. split; [reflexivity|]. split; [by left|].
    intros d' e' [Heq|[]]. by inversion Heq.
  - pose proof (sends_wire _ _ _ _ _ _ _ _ H1) as Hw1.
    pose proof (sends_wire _ _ _ _ _ _ _ _ H2) as Hw2.
    subst pre. rewrite !logs_app, !dones_app, (logs_wire _ Hw1), (dones_wire _ Hw1),
      (logs_wire _ Hw2), (dones_wire _ Hw2).
    assert (logs [parseEvent r; EvDispatch N] = []) as ->
      by (unfold parseEvent; by destruct (Contains _ _)).
    assert (dones [parseEvent r; EvDispatch N] = []) as ->
      by (unfold parseEvent; by destruct (Contains _ _)).
    destruct err2 as [e|]; cbn.
    + right. exists C, e. split; [reflexivity|]. split; [tauto|].
      intros d' e' [Heq|[Heq|[]]]; by inversion Heq.
    + left. split; [reflexivity|]. intros d e [Heq|[Heq|[]]]; by inversion Heq.
Qed.

(** The SMTP calls of a run are those of the two sessions of a submission
    that parsed. *)
Lemma run_smtp_ops h r op e :
  In (EvSmtp op e) (trace (run h r)) ->
  Method r = "POST" /\
  exists form tls,
    parsed r = Some form /\ required form /\
    (op = client_Close \/
     In op (script (emailSender h) (RecipientEmail (email.config (emailSender h)))
                   ("New Contact Form Submission: " +:+ Subject form)
                   (email.recipientBody (Name form) (Email form) (Subject form)
                                        (Message form)) tls) \/
     In op (script (emailSender h) (Email form) "Thank you for contacting us"
                   (email.confirmationBody (Name form) (Message form)) tls)).
Proof.
  destruct (run_outcome h r) as
    [HM|HO HM|HM HP|form HM HP Hempty|form wire1 e1 HM HP Hreq N pre H1
     |form wire1 wire2 err2 HM HP Hreq N C pre H1 H2];
    cbn [trace]; intros Hin.
  - cbn in Hin. intuition discriminate.
  - cbn in Hin. intuition discriminate.
  - exfalso. apply in_app_or in Hin as [Hin|Hin]; [cbn in Hin; intuition discriminate|].
    apply in_app_or in Hin as [Hin|Hin]; [by apply not_smtp_parseEvent in Hin|].
    cbn in Hin; intuition discriminate.
  - exfalso. apply in_app_or in Hin as [Hin|Hin]; [cbn in Hin; intuition discriminate|].
    apply in_app_or in Hin as [Hin|Hin]; [by apply not_smtp_parseEvent in Hin|].
    cbn in Hin; intuition discriminate.
  - split; [exact HM|]. rewrite recipientSubject_eq in H1.
    subst pre. rewrite <- !app_assoc in Hin.
    apply in_app_or in Hin as [Hin|Hin]; [cbn in Hin; intuition discriminate|].
    change [parseEvent r; EvDispatch N] with ([parseEvent r] ++ [EvDispatch N]) in Hin.
    rewrite <- !app_assoc in Hin.
    apply in_app_or in Hin as [Hin|Hin]; [by apply not_smtp_parseEvent in Hin|].
    apply in_app_or in Hin as [Hin|Hin]; [cbn in Hin; intuition discriminate|].
    apply in_app_or in Hin as [Hin|Hin]; [|cbn in Hin; intuition discriminate].
    destruct (sends_ops _ _ _ _ _ _ _ _ _ _ H1 Hin) as [->|[tls Hop]].
    + exists form, true. auto.
    + exists form, tls. auto.
  - split; [exact HM|]. rewrite recipientSubject_eq in H1.
    subst pre. rewrite <- !app_assoc in Hin.
    apply in_app_or in Hin as [Hin|Hin]; [cbn in Hin; intuition discriminate|].
    change [parseEvent r; EvDispatch N] with ([parseEvent r] ++ [EvDispatch N]) in Hin.
    rewrite <- !app_assoc in Hin.
    apply in_app_or in Hin as [Hin|Hin]; [by apply not_smtp_parseEvent in Hin|].
    apply in_app_or in Hin as [Hin|Hin]; [cbn in Hin; intuition discriminate|].
    apply in_app_or in Hin as [Hin|Hin].
    { destruct (sends_ops _ _ _ _ _ _ _ _ _ _ H1 Hin) as [->|[tls Hop]].
      + exists form, true. auto.
      + exists form, tls. auto. }
    apply in_app_or in Hin as [Hin|Hin]; [cbn in Hin; intuition discriminate|].
    apply in_app_or in Hin as [Hin|Hin].
    { destruct (sends_ops _ _ _ _ _ _ _ _ _ _ H2 Hin) as [->|[tls Hop]].
      + exists form, true. auto.
      + exists form, tls. auto. }
    exfalso. destruct err2; cbn in Hin; intuition discriminate.
Qed.

(** A run that ends in [http.Error] with status 400 after reading the
    body. *)
Lemma answers_400 h r msg :
  run h r = {| resp := errorResponse (corsOrigin h) msg 400;
               trace := corsEvents (corsOrigin h) ++ [parseEvent r]
                        ++ errorEvents msg 400 |} ->
  status (resp (run h r)) = Some 400 /\
  body (resp (run h r)) = [Println msg] /\
  mail (trace (run h r)) = [].
Proof.
  intros ->. cbn [resp trace status body errorResponse].
  split; [reflexivity|]. split; [reflexivity|].
  by rewrite !mail_app, mail_cors, mail_parseEvent, mail_errorEvents.
Qed.

(** X1.  A preflight request (method OPTIONS) is answered with status 200
    and an empty body: after the three CORS headers the only event is the
    writing of the status, so the body is not read, no mail is dispatched
    and no Content-Type is set; and the answer is the same for every
    OPTIONS request, whatever its headers and body. *)
Theorem preflight_answers_200 h r :
  Method r = "OPTIONS" ->
  status (resp (run h r)) = Some 200 /\
  body (resp (run h r)) = [] /\
  header (resp (run h r)) !! "Content-Type" = None /\
  trace (run h r) = corsEvents (corsOrigin h) ++ [EvWriteHeader 200] /\
  forall r', Method r' = "OPTIONS" -> run h r' = run h r.
Proof.
  intros HM. rewrite (run_options net readValue ParseForm h r HM).
  cbn [resp trace status body header]. repeat split.
  intros r' HM'. apply run_options; exact HM'.
Qed.

(** X2.  A request whose method is neither OPTIONS nor POST (the
    comparison is by bytes: a method written post is not POST) is answered
    with status 405 and the line "Method not allowed", as [http.Error]
    writes it (Content-Type text/plain; charset=utf-8 and
    X-Content-Type-Options nosniff); its body is not read and no mail is
    dispatched. *)
Theorem other_methods_answer_405 h r :
  Method r <> "OPTIONS" -> Method r <> "POST" ->
  status (resp (run h r)) = Some 405 /\
  body (resp (run h r)) = [Println "Method not allowed"] /\
  Header_Get (header (resp (run h r))) "Content-Type" = "text/plain; charset=utf-8" /\
  Header_Get (header (resp (run h r))) "X-Content-Type-Options" = "nosniff" /\
  parses (trace (run h r)) = [] /\
  mail (trace (run h r)) = [].
Proof.
  intros HO HP. rewrite (run_not_allowed net readValue ParseForm h r HO HP).
  cbn [resp trace status body header errorResponse]. repeat split.
Qed.

(** X3.  Whatever the request, the readers and the mail server, the
    response of a run (status, headers and body) is one of seven: the
    preflight answer, one of the five [http.Error] answers (405 "Method not
    allowed", 400 "Invalid JSON format", 400 "Failed to parse form", 400
    "Name, email, and message are required", 500 "Failed to send email") or
    the success answer.  So nothing of the submission and nothing of an
    error of the mail server reaches the response. *)
Theorem responses_are_fixed h r :
  In (resp (run h r))
     [preflightResponse (corsOrigin h);
      errorResponse (corsOrigin h) "Method not allowed" 405;
      errorResponse (corsOrigin h) "Invalid JSON format" 400;
      errorResponse (corsOrigin h) "Failed to parse form" 400;
      errorResponse (corsOrigin h) "Name, email, and message are required" 400;
      errorResponse (corsOrigin h) "Failed to send email" 500;
      successResponse (corsOrigin h)].
Proof.
  destruct (run_outcome h r); cbn [resp In]; auto 10.
  unfold parseFailure. destruct (Contains _ _); auto 10.
Qed.

(** X4.  In every run the status line is written exactly once, and nothing
    comes after it but the body, which is one write at most: the trace is a
    part with no [WriteHeader] and no write, then the [WriteHeader] of the
    status the response has, then the writes of the body.  So every header
    is set before the status is written, and the status is written only
    after the mail dispatches have returned. *)
Theorem status_written_once_and_last h r :
  exists pre code,
    trace (run h r) = pre ++ EvWriteHeader code :: map EvWrite (body (resp (run h r))) /\
    forallb quiet pre = true /\
    status (resp (run h r)) = Some code /\
    length (body (resp (run h r))) <= 1.
Proof.
  destruct (run_outcome h r) as
    [HM|HO HM|HM HP|form HM HP Hempty|form wire1 e HM HP Hreq N pre H1
     |form wire1 wire2 err2 HM HP Hreq N C pre H1 H2];
    cbn [resp trace body status errorResponse successResponse preflightResponse map].
  - exists (corsEvents (corsOrigin h)), 200. repeat split. simpl; lia.
  - exists (corsEvents (corsOrigin h) ++ firstn 3 (errorEvents "Method not allowed" 405)), 405.
    repeat split. simpl; lia.
  - exists (corsEvents (corsOrigin h) ++ [parseEvent r]
            ++ firstn 3 (errorEvents (parseFailure r) 400)), 400.
    split; [by rewrite <- !app_assoc|]. split; [|split; [done|simpl; lia]].
    rewrite !forallb_app. cbn. by rewrite quiet_parseEvent.
  - exists (corsEvents (corsOrigin h) ++ [parseEvent r]
            ++ firstn 3 (errorEvents "Name, email, and message are required" 400)), 400.
    split; [by rewrite <- !app_assoc|]. split; [|split; [done|simpl; lia]].
    rewrite !forallb_app. cbn. by rewrite quiet_parseEvent.
  - exists (pre ++ wire1 ++ [EvDispatchDone N (Some e); EvLog (failureLine N e)]
            ++ firstn 3 (errorEvents "Failed to send email" 500)), 500.
    split; [by rewrite <- !app_assoc|]. split; [|split; [done|simpl; lia]].
    subst pre. rewrite !forallb_app.
    rewrite (quiet_wire wire1) by (eapply sends_wire; exact H1).
    cbn. by rewrite quiet_parseEvent.
  - exists (pre ++ wire1 ++ [EvDispatchDone N None; EvDispatch C] ++ wire2
            ++ [EvDispatchDone C err2]
            ++ match err2 with Some e => [EvLog (failureLine C e)] | None => [] end
            ++ [EvSetHeader "Content-Type" "application/json"]), 200.
    split; [by rewrite <- !app_assoc|]. split; [|split; [done|simpl; lia]].
    subst pre. rewrite !forallb_app.
    rewrite (quiet_wire wire1) by (eapply sends_wire; exact H1).
    rewrite (quiet_wire wire2) by (eapply sends_wire; exact H2).
    cbn. rewrite quiet_parseEvent. by destruct err2.
Qed.

(** X5.  A run has a mail event (a call of a dispatch method, or anything
    on the SMTP wire) exactly when the request is a POST whose body parses
    to a non-empty name, email and message. *)
Theorem mail_only_for_valid_post h r :
  mail (trace (run h r)) <> [] <->
  Method r = "POST" /\
  exists form, parsed r = Some form /\
    Name form <> EmptyString /\ Email form <> EmptyString /\ Message form <> EmptyString.
Proof.
  destruct (run_outcome h r) as
    [HM|HO HM|HM HP|form HM HP Hempty|form wire1 e HM HP Hreq N pre H1
     |form wire1 wire2 err2 HM HP Hreq N C pre H1 H2];
    cbn [trace].
  - split; [by intros []|]. intros [HP _]. rewrite HM in HP. discriminate.
  - split; [by intros []|]. intros [HP _]. contradiction.
  - rewrite !mail_app, mail_cors, mail_parseEvent, mail_errorEvents.
    split; [by intros []|]. intros (_ & form & HP' & _). congruence.
  - rewrite !mail_app, mail_cors, mail_parseEvent, mail_errorEvents.
    split; [by intros []|]. intros (_ & form' & HP' & Hn & He & Hm).
    assert (form' = form) as -> by congruence. tauto.
  - split; [intros _; split; [done|by exists form]|]. intros _.
    subst pre. rewrite !mail_app, mail_cors. cbn [app].
    unfold parseEvent; destruct (Contains _ _); discriminate.
  - split; [intros _; split; [done|by exists form]|]. intros _.
    subst pre. rewrite !mail_app, mail_cors. cbn [app].
    unfold parseEvent; destruct (Contains _ _); discriminate.
Qed.

(** X6.  The handler logs exactly the dispatches that failed: a line is
    logged in a run if and only if a dispatch of the run returned an error
    and the line is "Failed to send email to recipient: " (for the
    notification) or "Failed to send confirmation email to customer: " (for
    the confirmation) followed by that error's text; and a run logs one line
    at most. *)
Theorem failed_dispatches_are_logged h r :
  (forall line, In (EvLog line) (trace (run h r)) <->
     exists d e, In (EvDispatchDone d (Some e)) (trace (run h r)) /\
                 line = failureLine d e) /\
  length (logs (trace (run h r))) <= 1.
Proof.
  destruct (run_logs_dones h r) as [[Hl Hd] | (d & e & Hl & Hin & Hd)].
  - split; [|rewrite Hl; simpl; lia]. intros line. rewrite in_logs, Hl. split; [intros []|].
    intros (d & e & Hin%in_dones & _). by apply Hd in Hin.
  - split; [|rewrite Hl; simpl; lia]. intros line. rewrite in_logs, Hl. split.
    + intros [<-|[]]. exists d, e. by rewrite in_dones.
    + intros (d' & e' & Hin'%in_dones & ->). apply Hd in Hin' as [-> ->]. by left.
Qed.

(** X7.  For a valid submission whose notification went through, the
    confirmation is a mail to the submitted email address: it is dispatched
    after the notification has returned; whatever its session puts on the
    wire has the submitted address as recipient and, as data, the message
    with the subject "Thank you for contacting us" and the HTML body built
    from the submitted name and message; when the dispatch goes through, the
    session has the configured sender, this one recipient and this one
    message.  The HTML body contains the submitted name, and the message
    with every line feed replaced by "<br>". *)
Theorem confirmation_mail h r form :
  Method r = "POST" -> parsed r = Some form ->
  Name form <> EmptyString -> Email form <> EmptyString -> Message form <> EmptyString ->
  let s := emailSender h in
  let N := Notification (Name form) (Email form) (Subject form) (Message form) in
  let C := Confirmation (Name form) (Email form) (Message form) in
  let subject := "Thank you for contacting us" in
  let html := email.confirmationBody (Name form) (Message form) in
  In (EvDispatchDone N None) (trace (run h r)) ->
  (exists before wire err after,
     trace (run h r) = before ++ [EvDispatch C] ++ wire ++ EvDispatchDone C err :: after /\
     In (EvDispatchDone N None) before /\
     forallb isWire wire = true /\
     forallb (envelopeOK s (Email form) subject html) wire = true /\
     (err = None ->
      envelopeFrom wire = [FromEmail (email.config s)] /\
      envelopeTo wire = [Email form] /\
      dataSent wire =
        ["From: " +:+ FromEmail (email.config s) +:+ CRLF +:+
         "To: " +:+ Email form +:+ CRLF +:+
         "Subject: " +:+ subject +:+ CRLF +:+
         "MIME-Version: 1.0" +:+ CRLF +:+
         "Content-Type: text/html; charset=UTF-8" +:+ CRLF +:+
         CRLF +:+ html +:+ CRLF])) /\
  Contains html (Name form) = true /\
  Contains html (newlinesToBreaks (Message form)) = true.
Proof.
  intros HM HP Hn He Hm s N C subject html Hdone.
  split; [|apply confirmationBody_contains].
  destruct (run_valid net readValue ParseForm h r form HM HP Hn He Hm)
    as (err1 & wire1 & H1 & Hrun).
  pose proof (sends_wire _ _ _ _ _ _ _ _ H1) as Hw1.
  destruct err1 as [e|].
  { exfalso. rewrite Hrun in Hdone. cbn [trace] in Hdone.
    apply in_dones in Hdone. revert Hdone.
    rewrite (dones_app (corsEvents _ ++ _)), (dones_prefix h r _), !dones_app,
      (dones_wire _ Hw1).
    cbn. intros [Heq|[]]. discriminate. }
  destruct Hrun as (err2 & wire2 & H2 & Hrun).
  pose proof (sends_wire _ _ _ _ _ _ _ _ H2) as Hw2.
  pose proof (sends_envelope _ _ _ _ _ _ _ _ H2) as He2.
  exists (corsEvents (corsOrigin h) ++ [parseEvent r; EvDispatch N] ++ wire1
          ++ [EvDispatchDone N None]), wire2, err2. eexists.
  split; [rewrite Hrun; cbn [trace]; rewrite <- !app_assoc; reflexivity|].
  split; [rewrite !in_app_iff; cbn; tauto|].
  split; [exact Hw2|]. split; [exact He2|]. intros ->.
  destruct (sends_success _ _ _ _ _ _ _ H2) as (tls & closed & ->).
  apply (sessionOK_mail s (Email form) email.confirmationSubject html tls closed).
Qed.

(** X8.  When both dispatches of a valid submission go through, the run
    puts exactly two mails on the wire, both from the configured sender: the
    notification to the configured recipient and then the confirmation to
    the submitted address, each with its message; nothing is logged and the
    response is the success answer. *)
Theorem both_mails_on_the_wire h r form :
  Method r = "POST" -> parsed r = Some form ->
  Name form <> EmptyString -> Email form <> EmptyString -> Message form <> EmptyString ->
  let s := emailSender h in
  let N := Notification (Name form) (Email form) (Subject form) (Message form) in
  let C := Confirmation (Name form) (Email form) (Message form) in
  In (EvDispatchDone N None) (trace (run h r)) ->
  In (EvDispatchDone C None) (trace (run h r)) ->
  envelopeFrom (trace (run h r)) = [FromEmail (email.config s); FromEmail (email.config s)] /\
  envelopeTo (trace (run h r)) = [RecipientEmail (email.config s); Email form] /\
  dataSent (trace (run h r)) =
    [email.msg s (RecipientEmail (email.config s))
               ("New Contact Form Submission: " +:+ Subject form)
               (email.recipientBody (Name form) (Email form) (Subject form) (Message form));
     email.msg s (Email form) "Thank you for contacting us"
               (email.confirmationBody (Name form) (Message form))] /\
  logs (trace (run h r)) = [] /\
  resp (run h r) = successResponse (corsOrigin h).
Proof.
  intros HM HP Hn He Hm s N C Hdone1 Hdone2. subst s N C.
  destruct (run_valid net readValue ParseForm h r form HM HP Hn He Hm)
    as (err1 & wire1 & H1 & Hrun).
  pose proof (sends_wire _ _ _ _ _ _ _ _ H1) as Hw1.
  destruct err1 as [e|].
  { exfalso. rewrite Hrun in Hdone1. cbn [trace] in Hdone1.
    apply in_dones in Hdone1. revert Hdone1.
    rewrite (dones_app (corsEvents _ ++ _)), (dones_prefix h r _), !dones_app,
      (dones_wire _ Hw1).
    cbn. intros [Heq|[]]. discriminate. }
  destruct Hrun as (err2 & wire2 & H2 & Hrun).
  pose proof (sends_wire _ _ _ _ _ _ _ _ H2) as Hw2.
  destruct err2 as [e|].
  { exfalso. rewrite Hrun in Hdone2. cbn [trace] in Hdone2.
    apply in_dones in Hdone2. revert Hdone2.
    rewrite (dones_app (corsEvents _ ++ _)), (dones_prefix h r _), !dones_app,
      (dones_wire _ Hw1), (dones_wire _ Hw2).
    cbn. intros [Heq|[Heq|[]]]; discriminate. }
  rewrite recipientSubject_eq in H1.
  destruct (sends_success _ _ _ _ _ _ _ H1) as (tls1 & closed1 & ->).
  destruct (sends_success _ _ _ _ _ _ _ H2) as (tls2 & closed2 & ->).
  destruct (sessionOK_mail (emailSender h) (RecipientEmail (email.config (emailSender h)))
              ("New Contact Form Submission: " +:+ Subject form)
              (email.recipientBody (Name form) (Email form) (Subject form) (Message form))
              tls1 closed1) as (Hf1 & Ht1 & Hd1).
  destruct (sessionOK_mail (emailSender h) (Email form) email.confirmationSubject
              (email.confirmationBody (Name form) (Message form)) tls2 closed2)
    as (Hf2 & Ht2 & Hd2).
  destruct (envelope_parseEvent r) as (Pf & Pt & Pd).
  rewrite Hrun. cbn [trace resp].
  change [parseEvent r; EvDispatch ?d] with ([parseEvent r] ++ [EvDispatch d]).
  rewrite !envelopeFrom_app, !envelopeTo_app, !dataSent_app, !logs_app.
  rewrite Hf1, Ht1, Hd1, Hf2, Ht2, Hd2, Pf, Pt, Pd, logs_parseEvent.
  rewrite (logs_wire _ Hw1), (logs_wire _ Hw2).
  repeat split.
Qed.

(** X9.  Every SMTP call of a run belongs to a POST request whose body
    parsed to a non-empty name, email and message, and is a call of the
    script of its notification (to the
    configured recipient, with the subject "New Contact Form Submission: "
    and the submitted subject) or of its confirmation (to the submitted
    address, with the subject "Thank you for contacting us"), or the
    deferred [Close]: the handler talks to the mail server for nothing
    else. *)
Theorem smtp_calls_of_a_run h r op e :
  In (EvSmtp op e) (trace (run h r)) ->
  Method r = "POST" /\
  exists form tls,
    parsed r = Some form /\ required form /\
    (op = client_Close \/
     In op (script (emailSender h) (RecipientEmail (email.config (emailSender h)))
                   ("New Contact Form Submission: " +:+ Subject form)
                   (email.recipientBody (Name form) (Email form) (Subject form)
                                        (Message form)) tls) \/
     In op (script (emailSender h) (Email form) "Thank you for contacting us"
                   (email.confirmationBody (Name form) (Message form)) tls)).
Proof. apply run_smtp_ops. Qed.

(** X10.  When the mail server cannot be reached for the notification of a
    valid submission, the run is: the CORS headers, the reading of the body,
    the dispatch with its one call of [Dial], its return with the error
    "failed to connect to SMTP server: " followed by the error of [Dial],
    the log line "Failed to send email to recipient: " followed by that
    error, and the answer 500 "Failed to send email".  There is no second
    attempt and no confirmation. *)
Theorem unreachable_server_run h r form e :
  Method r = "POST" -> parsed r = Some form ->
  Name form <> EmptyString -> Email form <> EmptyString -> Message form <> EmptyString ->
  let N := Notification (Name form) (Email form) (Subject form) (Message form) in
  let pre := corsEvents (corsOrigin h) ++ [parseEvent r; EvDispatch N] in
  reply net pre (smtp_Dial (address (emailSender h))) = Some e ->
  run h r =
    {| resp := errorResponse (corsOrigin h) "Failed to send email" 500;
       trace := pre
                ++ [EvSmtp (smtp_Dial (address (emailSender h))) (Some e);
                    EvDispatchDone N (Some ("failed to connect to SMTP server: " +:+ e));
                    EvLog ("Failed to send email to recipient: "
                           +:+ "failed to connect to SMTP server: " +:+ e)]
                ++ errorEvents "Failed to send email" 500 |}.
Proof.
  intros HM HP Hn He Hm N pre Hdial.
  destruct (run_valid net readValue ParseForm h r form HM HP Hn He Hm)
    as (err1 & wire1 & H1 & Hrun).
  pose proof (sends_unreachable net (emailSender h)
                (RecipientEmail (email.config (emailSender h)))
                (email.recipientSubject (Subject form))
                (email.recipientBody (Name form) (Email form) (Subject form) (Message form))
                pre e Hdial) as H1'.
  destruct (sends_functional _ _ _ _ _ _ _ _ _ _ H1 H1') as [-> ->].
  rewrite Hrun, log_notification. reflexivity.
Qed.

(** X11.  A POST request with a JSON content type whose body reads as a
    JSON value that is not an object is answered with status 400 and no
    mail: for [null], which the decoder stores as nothing, with "Name,
    email, and message are required"; for a boolean, a number, a string or
    an array, which the decoder refuses, with "Invalid JSON format". *)
Theorem json_body_that_is_no_object h r v :
  Method r = "POST" ->
  Contains (Header_Get (Header r) "Content-Type") "application/json" = true ->
  readValue (Body r) = inl v ->
  (forall members, v <> json.JObject members) ->
  status (resp (run h r)) = Some 400 /\
  body (resp (run h r)) =
    [Println match v with
             | json.JNull => "Name, email, and message are required"
             | _ => "Invalid JSON format"
             end] /\
  mail (trace (run h r)) = [].
Proof.
  intros HM HJ Hread Hobj.
  pose proof (parsed_eq readValue ParseForm r) as HP. rewrite HJ in HP.
  unfold json.Decode in HP. rewrite Hread in HP.
  destruct v; try (by destruct (Hobj members)); cbn in HP.
  1: apply answers_400; apply (run_invalid _ _ _ h r zeroContactForm HM HP); by left.
  all: apply answers_400;
       rewrite (run_parse_failed _ _ _ h r HM HP); unfold parseFailure; by rewrite HJ.
Qed.

(** X12.  A POST request with a JSON content type whose body reads as an
    object in which a member named name, email, subject or message holds
    something other than a string or [null] (a number, say) is answered with
    status 400 and "Invalid JSON format", and no mail is dispatched,
    whatever the other members hold. *)
Theorem json_member_of_wrong_type h r members key val :
  Method r = "POST" ->
  Contains (Header_Get (Header r) "Content-Type") "application/json" = true ->
  readValue (Body r) = inl (json.JObject members) ->
  In (key, val) members -> In key tags ->
  (forall s, val <> json.JString s) -> val <> json.JNull ->
  status (resp (run h r)) = Some 400 /\
  body (resp (run h r)) = [Println "Invalid JSON format"] /\
  mail (trace (run h r)) = [].
Proof.
  intros HM HJ Hread Hin Hkey Hs Hn.
  pose proof (parsed_eq readValue ParseForm r) as HP. rewrite HJ in HP.
  unfold json.Decode in HP. rewrite Hread in HP. cbn [json.unmarshal] in HP.
  destruct (object_wrong_type members key val zeroContactForm None Hin Hkey Hs Hn)
    as (v' & e & Hobj).
  rewrite Hobj in HP.
  apply answers_400.
  rewrite (run_parse_failed _ _ _ h r HM HP); unfold parseFailure; by rewrite HJ.
Qed.

(** X13.  A POST request with a JSON content type whose body reads as an
    object of string members under the names name, email, subject and
    message, each at most once, and without one of name, email and message,
    is answered with status 400 and "Name, email, and message are required",
    and no mail is dispatched: a member that is absent leaves its field
    empty. *)
Theorem json_member_missing h r members key :
  Method r = "POST" ->
  Contains (Header_Get (Header r) "Content-Type") "application/json" = true ->
  readValue (Body r) = inl (json.JObject members) ->
  (forall k val, In (k, val) members -> In k tags /\ exists s, val = json.JString s) ->
  List.NoDup (map fst members) ->
  In key ["name"; "email"; "message"] ->
  ~ In key (map fst members) ->
  status (resp (run h r)) = Some 400 /\
  body (resp (run h r)) = [Println "Name, email, and message are required"] /\
  mail (trace (run h r)) = [].
Proof.
  intros HM HJ Hread Hall Hnd Hkey Hmiss.
  pose proof (parsed_eq readValue ParseForm r) as HP. rewrite HJ in HP.
  unfold json.Decode in HP. rewrite Hread in HP. cbn [json.unmarshal] in HP.
  destruct (object_strings members zeroContactForm Hall Hnd) as (v' & Hobj & Hfields).
  rewrite Hobj in HP.
  apply answers_400. apply (run_invalid _ _ _ h r v' HM HP).
  assert (Htag : In key tags) by (cbn in *; tauto).
  destruct (Hfields key Htag) as [_ Hout]. specialize (Hout Hmiss).
  cbn in Hkey. destruct Hkey as [<- | [<- | [<- | []]]]; cbn in Hout; auto.
Qed.

End Runs.

(** X14.  With the standard readers, a POST request whose Content-Type
    does not contain "application/json" and is not of the media type
    application/x-www-form-urlencoded (or is absent) has its fields read
    from the query of its URL: [ParseForm] does not read such a body, and
    [FormValue] gives the values of the query.  So a request whose query is
    the URL-encoded form of a payload parses to that payload, whatever its
    body. *)
Theorem fields_from_url_query (ParseMediaType : string -> string * error) r p mediaType :
  Method r = "POST" ->
  Contains (Header_Get (Header r) "Content-Type") "application/json" = false ->
  ParseMediaType (if String.eqb (Header_Get (Header r) "Content-Type") EmptyString
                  then "application/octet-stream"
                  else Header_Get (Header r) "Content-Type") = (mediaType, None) ->
  mediaType <> "application/x-www-form-urlencoded" ->
  RawQuery r = formEncode p ->
  parsed json.readValue (http.ParseForm ParseMediaType) r = Some p.
Proof.
  intros HM HJ Hmt Hne HQ. rewrite parsed_eq, HJ.
  unfold http.ParseForm, http.parsePostForm. rewrite HM.
  change (String.eqb "POST" "POST") with true. cbn [orb].
  cbv zeta. rewrite Hmt. apply String.eqb_neq in Hne. rewrite Hne.
  rewrite HQ, ParseQuery_formEncode, copyValues_empty_l.
  unfold FormValue, payloadValues. simplify_map_eq. by destruct p.
Qed.

(** ** The SMTP session *)

(** X15.  When [smtp.Dial] fails, [Send] returns "failed to connect to SMTP
    server: " followed by the error of [Dial], and the call of [Dial], to
    the address host:port of the configuration, is the only thing on the
    wire: no connection was opened, so none is closed.  [Send] does nothing
    else in this case. *)
Theorem Send_unreachable net s to subject body t e :
  reply net t (smtp_Dial (address s)) = Some e ->
  sends net s to subject body t
        (Some ("failed to connect to SMTP server: " +:+ e))
        [EvSmtp (smtp_Dial (address s)) (Some e)] /\
  forall err wire,
    sends net s to subject body t err wire ->
    err = Some ("failed to connect to SMTP server: " +:+ e) /\
    wire = [EvSmtp (smtp_Dial (address s)) (Some e)].
Proof.
  intros Hdial.
  pose proof (sends_unreachable net s to subject body t e Hdial) as Hsends.
  split; [exact Hsends|].
  intros err wire H. exact (sends_functional _ _ _ _ _ _ _ _ _ _ H Hsends).
Qed.

(** X16.  Once [smtp.Dial] has succeeded, the session ends with the
    deferred [Close], whichever call fails and whatever [Send] returns:
    [Close] is the last event on the wire, and it is called once. *)
Theorem Send_closes_connection net s to subject body t err wire :
  sends net s to subject body t err wire ->
  reply net t (smtp_Dial (address s)) = None ->
  exists pre closed,
    wire = pre ++ [EvSmtp client_Close closed] /\
    forall c, ~ In (EvSmtp client_Close c) pre.
Proof.
  intros H Hdial. session_cases H; try congruence.
  all: match goal with
       | |- exists pre closed, ?w = _ /\ _ =>
           exists (removelast w); eexists; split; [reflexivity|];
           intros c Hin; cbn in Hin; intuition discriminate
       end.
Qed.

(** X17.  [Send] stops at the first call that fails.  When it returns an
    error, the calls of the session are: calls that returned [nil], then one
    call other than [Close] that failed, then nothing but the deferred
    [Close]; and the error is the text of that step ("failed to set
    recipient: " for [Rcpt], and so on; nothing for [Quit]) followed by the
    error of the call.  When it returns [nil], no call but [Close] has
    failed: what [Close] returns is dropped. *)
Theorem Send_first_failure net s to subject body t err wire :
  sends net s to subject body t err wire ->
  match err with
  | None => forall op e, In (op, Some e) (calls wire) -> op = client_Close
  | Some m =>
      exists done op e closing,
        calls wire = passed done ++ (op, Some e) :: closing /\
        op <> client_Close /\
        m = wrapOf op +:+ e /\
        (closing = [] \/ exists c, closing = [(client_Close, c)])
  end.
Proof.
  intros H.
  destruct (sends_script _ _ _ _ _ _ _ _ H)
    as (tls & closing & _ & [[-> Hcalls] | (done & op & rest & e & Hscript & -> & Hcalls)]).
  - intros op e Hin. rewrite Hcalls in Hin. apply in_app_or in Hin as [Hin|Hin].
    + apply in_passed in Hin as [? _]. discriminate.
    + destruct Hin as [Hin|[]]. by inversion Hin.
  - exists done, op, e. eexists. split; [exact Hcalls|]. split; [|split; [reflexivity|]].
    + apply (script_open s to subject body tls). rewrite Hscript.
      apply in_or_app. right. by left.
    + destruct done; [by left | right; by eexists].
Qed.

(** X18.  The calls of a session are an initial part of the script of
    [Send] (Dial, Hello, StartTLS if the server offers it, Auth, Mail, Rcpt,
    Data, Write, the closing of the data, Quit, with the arguments of the
    configuration and of the mail), followed by the deferred [Close] if
    there is one.  No call is made twice: nothing is tried again.  The only
    extension asked for is STARTTLS. *)
Theorem Send_follows_script net s to subject body t err wire :
  sends net s to subject body t err wire ->
  exists tls attempted closing,
    map fst (calls wire) = attempted ++ closing /\
    attempted `prefix_of` script s to subject body tls /\
    (closing = [] \/ closing = [client_Close]) /\
    (forall ext ok, In (EvExtension ext ok) wire -> ext = "STARTTLS" /\ ok = tls) /\
    List.NoDup (map fst (calls wire)).
Proof.
  intros H.
  destruct (sends_script _ _ _ _ _ _ _ _ H)
    as (tls & closing & Hext & [[-> Hcalls] | (done & op & rest & e & Hscript & -> & Hcalls)]).
  - exists tls, (script s to subject body tls), [client_Close].
    rewrite Hcalls, map_app, fst_passed. cbn [map fst].
    split; [reflexivity|]. split; [reflexivity|]. split; [by right|]. split; [exact Hext|].
    apply NoDup_ListNoDup, NoDup_app. split; [apply NoDup_ListNoDup, script_NoDup|].
    split; [|apply NoDup_singleton].
    intros op Hin%list_elem_of_In Hc%list_elem_of_In. destruct Hc as [<-|[]].
    by apply script_open in Hin.
  - exists tls, (done ++ [op]), (match done with [] => [] | _ => [client_Close] end).
    rewrite Hcalls, map_app, fst_passed. cbn [map fst].
    assert (Hpre : done ++ [op] `prefix_of` script s to subject body tls).
    { exists rest. rewrite Hscript, <- app_assoc. reflexivity. }
    split; [rewrite <- app_assoc; by destruct done|].
    split; [exact Hpre|]. split; [destruct done; auto|]. split; [exact Hext|].
    assert (Hnd : List.NoDup (done ++ [op])).
    { destruct Hpre as [k Hk]. pose proof (script_NoDup s to subject body tls) as Hs.
      rewrite Hk in Hs. apply NoDup_ListNoDup in Hs. apply NoDup_app in Hs as [Hs _].
      by apply NoDup_ListNoDup. }
    assert (Hopen : forall x, In x (done ++ [op]) -> x <> client_Close).
    { intros x Hin. apply (script_open s to subject body tls).
      destruct Hpre as [k ->]. apply in_or_app. by left. }
    destruct done as [|d done]; [cbn; repeat constructor; cbn; tauto|].
    cbn [map fst].
    replace ((d :: done) ++ [op; client_Close])
      with (((d :: done) ++ [op]) ++ [client_Close]) by (by rewrite <- app_assoc).
    apply NoDup_ListNoDup, NoDup_app. split; [by apply NoDup_ListNoDup|].
    split; [|apply NoDup_singleton].
    intros x Hin%list_elem_of_In Hc%list_elem_of_In.
    apply Hopen in Hin. by destruct Hc as [<-|[]].
Qed.

(** X19.  [Send] authenticates only after STARTTLS: a call of [Auth] in a
    session carries the credentials of the configuration, and before it
    either the server has answered that it does not offer STARTTLS or
    [StartTLS] has returned [nil]; and after a [StartTLS] that failed there
    is no [Auth] at all. *)
Theorem credentials_after_STARTTLS net s to subject body t err wire :
  sends net s to subject body t err wire ->
  (forall a e, In (EvSmtp (client_Auth a) e) wire ->
     a = credentials s /\
     exists pre post,
       wire = pre ++ EvSmtp (client_Auth a) e :: post /\
       (In (EvExtension "STARTTLS" false) pre \/
        In (EvSmtp (client_StartTLS (SMTPHost (email.config s))) None) pre)) /\
  (forall name e, In (EvSmtp (client_StartTLS name) (Some e)) wire ->
     forall a e', ~ In (EvSmtp (client_Auth a) e') wire).
Proof.
  intros H. session_cases H.
  all: split;
    [ intros a e Hin; cbn in Hin;
      repeat (destruct Hin as [Hin|Hin]; [try discriminate|]); try contradiction;
      inversion Hin; subst; (split; [reflexivity|]);
      match goal with
      | |- exists pre post, ?w = _ /\ _ =>
          first [ exists (firstn 3 w), (skipn 4 w); split; [reflexivity|]; cbn; tauto
                | exists (firstn 4 w), (skipn 5 w); split; [reflexivity|]; cbn; tauto ]
      end
    | intros name e Hin a e' Hauth; cbn in Hin, Hauth;
      repeat (destruct Hin as [Hin|Hin]; [try discriminate|]); try contradiction;
      repeat (destruct Hauth as [Hauth|Hauth]; [try discriminate|]); try contradiction ].
Qed.

(** X20.  In the revision on [smtp.SendMail], a dispatch is one call of
    [smtp.SendMail]: to the address host:port and with the credentials of
    the configuration, from the configured sender, to one recipient (the
    configured one for the notification, the submitted address for the
    confirmation) and with the message of the dispatch; and the dispatch
    returns what [smtp.SendMail] returned, as it is. *)
Theorem sendmail_dispatch_is_one_call net cfg name email subject message w :
  let s := email_sendmail.NewSender cfg in
  let addr := SMTPHost cfg +:+ ":" +:+ SMTPPort cfg in
  let auth := PlainAuth EmptyString (SMTPUser cfg) (SMTPPassword cfg) (SMTPHost cfg) in
  let N := Notification name email subject message in
  let C := Confirmation name email message in
  let notify :=
    smtp_SendMail addr auth (FromEmail cfg) [RecipientEmail cfg]
      (email_sendmail.msg s (RecipientEmail cfg)
         ("New Contact Form Submission: " +:+ subject)
         (email_sendmail.recipientBody name email subject message)) in
  let confirm :=
    smtp_SendMail addr auth (FromEmail cfg) [email]
      (email_sendmail.msg s email "Thank you for contacting us"
         (email_sendmail.confirmationBody name message)) in
  (let err := reply net (trace w ++ [EvDispatch N]) notify in
   email_sendmail.SendContactNotification net s name email subject message w =
     (err, {| resp := resp w;
              trace := trace w ++ [EvDispatch N; EvSmtp notify err; EvDispatchDone N err] |})) /\
  (let err := reply net (trace w ++ [EvDispatch C]) confirm in
   email_sendmail.SendConfirmation net s name email message w =
     (err, {| resp := resp w;
              trace := trace w ++ [EvDispatch C; EvSmtp confirm err; EvDispatchDone C err] |})).
Proof.
  intros s addr auth N C notify confirm.
  assert (Haddr : Sprintf "%s:%s" [SMTPHost cfg; SMTPPort cfg] = addr).
  { subst addr.
    change (Sprintf "%s:%s" [SMTPHost cfg; SMTPPort cfg])
      with (SMTPHost cfg +:+ ":" +:+ (SMTPPort cfg +:+ EmptyString)).
    by rewrite append_empty_r. }
  assert (Hsubj : email_sendmail.recipientSubject subject
                  = "New Contact Form Submission: " +:+ subject).
  { unfold email_sendmail.recipientSubject.
    change (Sprintf "New Contact Form Submission: %s" [subject])
      with ("New Contact Form Submission: " +:+ (subject +:+ EmptyString)).
    by rewrite append_empty_r. }
  split.
  - unfold email_sendmail.SendContactNotification, email_sendmail.Send.
    subst s. cbn [email_sendmail.config email_sendmail.NewSender].
    rewrite Haddr, Hsubj.
    unfold bind, emit, email_sendmail.smtp, observe, ret. cbn [trace resp].
    by rewrite <- !app_assoc.
  - unfold email_sendmail.SendConfirmation, email_sendmail.Send.
    subst s. cbn [email_sendmail.config email_sendmail.NewSender].
    rewrite Haddr.
    unfold bind, emit, email_sendmail.smtp, observe, ret. cbn [trace resp].
    by rewrite <- !app_assoc.
Qed.

(** ** Configuration and startup *)

(** X21.  A variable set to the empty string is a variable that is not
    set: [getEnv] gives the default for both, and [Load] gives the same
    configuration for an environment with the variable empty and for the
    environment without it. *)
Theorem empty_variable_is_unset env key :
  Load (<[key := EmptyString]> env) = Load (delete key env) /\
  forall d, getEnv (<[key := EmptyString]> env) key d = d /\
            getEnv (delete key env) key d = d.
Proof.
  split.
  - unfold Load, getEnv. by rewrite !Getenv_empty.
  - intros d. unfold getEnv, Getenv. by rewrite lookup_insert_eq, lookup_delete_eq.
Qed.

(** X22.  The configurations [Load] can return are exactly those whose
    SMTPHost, SMTPPort, ServerPort and CORSOrigin are not empty: these four
    have a default that fills in for an empty value, and every such
    configuration is loaded from the environment that sets the eight
    variables to its fields. *)
Theorem Load_image cfg :
  (exists env, Load env = cfg) <->
  SMTPHost cfg <> EmptyString /\ SMTPPort cfg <> EmptyString /\
  ServerPort cfg <> EmptyString /\ CORSOrigin cfg <> EmptyString.
Proof.
  split.
  - intros [env <-]. unfold Load. cbn [SMTPHost SMTPPort ServerPort CORSOrigin].
    repeat split; by apply getEnv_nonempty.
  - intros (Hh & Hp & Hs & Ho). exists (environ cfg).
    destruct cfg as [h p u pw rc fr sp co]. cbn in *.
    unfold Load. rewrite !getEnv_optional.
    rewrite !getEnv_set by (unfold Getenv, environ; by simplify_map_eq).
    unfold Getenv, environ; cbn. by simplify_map_eq.
Qed.

(** X23.  How [main] ends.  It ends in the fatal configuration error with
    the line "SMTP_USER, SMTP_PASSWORD, and RECIPIENT_EMAIL must be set",
    and then whatever the listener would do: the configuration is checked
    before anything listens.  It ends in the fatal error of the listener
    exactly when the three fields are set and [http.ListenAndServe], called
    with the address ":" followed by the server port, returns that error.
    It serves exactly when the three are set and the listener does not
    return, and then on that address and with one route, /contact, to the
    handler built from the configuration. *)
Theorem main_outcomes env ListenAndServe :
  let cfg := Load env in
  let complete := SMTPUser cfg <> EmptyString /\ SMTPPassword cfg <> EmptyString
                  /\ RecipientEmail cfg <> EmptyString in
  let addr := ":" +:+ ServerPort cfg in
  (forall line, server.main env ListenAndServe = server.FatalConfig line ->
     line = "SMTP_USER, SMTP_PASSWORD, and RECIPIENT_EMAIL must be set" /\
     forall ListenAndServe', server.main env ListenAndServe' = server.FatalConfig line) /\
  (forall line, server.main env ListenAndServe = server.FatalListen line <->
     complete /\ ListenAndServe addr = Some line) /\
  (forall routes addr', server.main env ListenAndServe = server.Serving routes addr' <->
     complete /\ ListenAndServe addr = None /\ addr' = addr /\
     routes = {[ "/contact" := NewContactHandler (email.NewSender cfg) (CORSOrigin cfg) ]}).
Proof.
  intros cfg complete addr. subst complete addr. unfold server.main. fold cfg.
  destruct (String.eqb_spec (SMTPUser cfg) EmptyString) as [HU|HU]; cbn [orb];
    [|destruct (String.eqb_spec (SMTPPassword cfg) EmptyString) as [HP|HP]; cbn [orb];
      [|destruct (String.eqb_spec (RecipientEmail cfg) EmptyString) as [HR|HR]]].
  1-3: split; [intros line [= <-]; by split|];
       split; [intros line | intros routes addr'];
       (split; [discriminate | intros [(? & ? & ?) _]; contradiction]).
  split; [intros line H; by destruct (ListenAndServe _)|].
  destruct (ListenAndServe (":" +:+ ServerPort cfg)) as [err|].
  - split; [intros line | intros routes addr'].
    + split; [intros [= <-]; by repeat split | intros [_ [= <-]]; reflexivity].
    + split; [discriminate | intros (_ & ? & _); discriminate].
  - split; [intros line | intros routes addr'].
    + split; [discriminate | intros [_ ?]; discriminate].
    + split.
      * intros Heq. inversion Heq; subst. by repeat split.
      * intros (_ & _ & -> & ->). reflexivity.
Qed.

(** X24.  What a server that has started does with the environment.  It
    listens on ":" followed by SERVER_PORT (8080 by default) and has one
    route, /contact.  Every response of its handler carries
    Access-Control-Allow-Origin with CORS_ORIGIN ("*" by default).  Every
    SMTP call of its handler uses the environment and the submission only:
    it dials SMTP_HOST:SMTP_PORT (smtp.gmail.com and 587 by default), greets
    and starts TLS with SMTP_HOST as name, authenticates with SMTP_USER and
    SMTP_PASSWORD (neither is empty), gives FROM_EMAIL as sender, and as
    recipient RECIPIENT_EMAIL or the email address the request parsed to;
    and it never calls [smtp.SendMail]. *)
Theorem served_handler_follows_environment env ListenAndServe routes addr :
  server.main env ListenAndServe = server.Serving routes addr ->
  let smtpHost := getEnv env "SMTP_HOST" "smtp.gmail.com" in
  addr = ":" +:+ getEnv env "SERVER_PORT" "8080" /\
  exists h, routes = {[ "/contact" := h ]} /\
    forall net readValue ParseForm r,
      header (resp (run net readValue ParseForm h r)) !! "Access-Control-Allow-Origin"
        = Some [getEnv env "CORS_ORIGIN" "*"] /\
      forall op e, In (EvSmtp op e) (trace (run net readValue ParseForm h r)) ->
        match op with
        | smtp_Dial a => a = smtpHost +:+ ":" +:+ getEnv env "SMTP_PORT" "587"
        | client_Hello name => name = smtpHost
        | client_StartTLS name => name = smtpHost
        | client_Auth a =>
            a = PlainAuth EmptyString (Getenv env "SMTP_USER") (Getenv env "SMTP_PASSWORD")
                          smtpHost /\
            username a <> EmptyString /\ password a <> EmptyString
        | client_Mail from => from = Getenv env "FROM_EMAIL"
        | client_Rcpt to =>
            to = Getenv env "RECIPIENT_EMAIL" \/
            exists form, parsed readValue ParseForm r = Some form /\ to = Email form
        | smtp_SendMail _ _ _ _ _ => False
        | _ => True
        end.
Proof.
  intros Hmain smtpHost.
  destruct (main_serving env ListenAndServe routes addr Hmain) as (HU & HP & HR & -> & ->).
  split; [reflexivity|]. eexists. split; [reflexivity|].
  intros net readValue ParseForm r. split.
  { apply run_cors. }
  intros op e Hin.
  destruct (run_smtp_ops net readValue ParseForm _ r op e Hin)
    as (_ & form & tls & Hparsed & _ & Hop).
  cbn [emailSender NewContactHandler email.config email.NewSender] in Hop.
  assert (Huser : SMTPUser (Load env) = Getenv env "SMTP_USER") by apply getEnv_optional.
  assert (Hpass : SMTPPassword (Load env) = Getenv env "SMTP_PASSWORD") by apply getEnv_optional.
  assert (Hrcpt : RecipientEmail (Load env) = Getenv env "RECIPIENT_EMAIL") by apply getEnv_optional.
  assert (Hfrom : FromEmail (Load env) = Getenv env "FROM_EMAIL") by apply getEnv_optional.
  destruct Hop as [-> | [Hop | Hop]]; [done| |];
    unfold script, credentials, address in Hop;
    cbn [email.config email.NewSender] in Hop;
    destruct tls; cbn [app In] in Hop;
    repeat (destruct Hop as [<- | Hop]); try contradiction; try done;
    rewrite <- ?Huser, <- ?Hpass, <- ?Hfrom, <- ?Hrcpt; auto.
  all: right; by exists form.
Qed.

(** ** Instances

    The properties above at concrete requests, servers and environments. *)

Lemma preflight_answers_200_witness :
  let w := run unreachable json.readValue (http.ParseForm plainMediaType)
               exampleHandler (methodRequest "OPTIONS") in
  status (resp w) = Some 200 /\
  body (resp w) = [] /\
  header (resp w) !! "Content-Type" = None /\
  trace w = corsEvents "*" ++ [EvWriteHeader 200] /\
  forall r', Method r' = "OPTIONS" ->
    run unreachable json.readValue (http.ParseForm plainMediaType) exampleHandler r' = w.
Proof.
  apply (preflight_answers_200 unreachable json.readValue (http.ParseForm plainMediaType)
           exampleHandler (methodRequest "OPTIONS")).
  reflexivity.
Defined.

Lemma other_methods_answer_405_witness :
  (let w := run accepting json.readValue (http.ParseForm plainMediaType)
                exampleHandler (methodRequest "GET") in
   status (resp w) = Some 405 /\
   body (resp w) = [Println "Method not allowed"] /\
   Header_Get (header (resp w)) "Content-Type" = "text/plain; charset=utf-8" /\
   Header_Get (header (resp w)) "X-Content-Type-Options" = "nosniff" /\
   parses (trace w) = [] /\
   mail (trace w) = []) /\
  (let w := run accepting json.readValue (http.ParseForm plainMediaType)
                exampleHandler (methodRequest "post") in
   status (resp w) = Some 405 /\
   body (resp w) = [Println "Method not allowed"] /\
   Header_Get (header (resp w)) "Content-Type" = "text/plain; charset=utf-8" /\
   Header_Get (header (resp w)) "X-Content-Type-Options" = "nosniff" /\
   parses (trace w) = [] /\
   mail (trace w) = []).
Proof.
  split.
  - apply (other_methods_answer_405 accepting json.readValue (http.ParseForm plainMediaType)
             exampleHandler (methodRequest "GET")); discriminate.
  - apply (other_methods_answer_405 accepting json.readValue (http.ParseForm plainMediaType)
             exampleHandler (methodRequest "post")); discriminate.
Defined.

Lemma confirmation_mail_witness :
  let w := run accepting json.readValue (http.ParseForm plainMediaType)
               exampleHandler (jsonRequest adaJSON) in
  let C := Confirmation "Ada" "ada@example.com" ("Hello" +:+ LF +:+ "World") in
  let N := Notification "Ada" "ada@example.com" "Hi" ("Hello" +:+ LF +:+ "World") in
  let html := email.confirmationBody "Ada" ("Hello" +:+ LF +:+ "World") in
  (exists before wire err after,
     trace w = before ++ [EvDispatch C] ++ wire ++ EvDispatchDone C err :: after /\
     In (EvDispatchDone N None) before /\
     forallb isWire wire = true /\
     forallb (envelopeOK exampleSender "ada@example.com" "Thank you for contacting us" html)
             wire = true /\
     (err = None ->
      envelopeFrom wire = ["noreply@example.com"] /\
      envelopeTo wire = ["ada@example.com"] /\
      dataSent wire =
        ["From: noreply@example.com" +:+ CRLF +:+
         "To: ada@example.com" +:+ CRLF +:+
         "Subject: Thank you for contacting us" +:+ CRLF +:+
         "MIME-Version: 1.0" +:+ CRLF +:+
         "Content-Type: text/html; charset=UTF-8" +:+ CRLF +:+
         CRLF +:+ html +:+ CRLF])) /\
  Contains html "Ada" = true /\
  Contains html "Hello<br>World" = true.
Proof.
  apply (confirmation_mail accepting json.readValue (http.ParseForm plainMediaType)
           exampleHandler (jsonRequest adaJSON) adaForm).
  - reflexivity.
  - vm_compute. reflexivity.
  - discriminate.
  - discriminate.
  - discriminate.
  - vm_compute. tauto.
Defined.

Lemma both_mails_on_the_wire_witness :
  let w := run accepting json.readValue (http.ParseForm plainMediaType)
               exampleHandler (formRequest helloFormBody) in
  envelopeFrom (trace w) = ["noreply@example.com"; "noreply@example.com"] /\
  envelopeTo (trace w) = ["owner@example.com"; "ada@example.com"] /\
  dataSent (trace w) =
    [email.msg exampleSender "owner@example.com" "New Contact Form Submission: Hi"
               (email.recipientBody "Ada" "ada@example.com" "Hi" "Hello");
     email.msg exampleSender "ada@example.com" "Thank you for contacting us"
               (email.confirmationBody "Ada" "Hello")] /\
  logs (trace w) = [] /\
  resp w = successResponse "*".
Proof.
  apply (both_mails_on_the_wire accepting json.readValue (http.ParseForm plainMediaType)
           exampleHandler (formRequest helloFormBody) helloForm).
  - reflexivity.
  - vm_compute. reflexivity.
  - discriminate.
  - discriminate.
  - discriminate.
  - vm_compute. tauto.
  - vm_compute. tauto.
Defined.

Lemma Send_unreachable_witness :
  sends unreachable exampleSender "ada@example.com" "Hi" "<p>Hello</p>" []
        (Some "failed to connect to SMTP server: dial tcp: connection refused")
        [EvSmtp (smtp_Dial "smtp.example.com:587") (Some "dial tcp: connection refused")] /\
  forall err wire,
    sends unreachable exampleSender "ada@example.com" "Hi" "<p>Hello</p>" [] err wire ->
    err = Some "failed to connect to SMTP server: dial tcp: connection refused" /\
    wire = [EvSmtp (smtp_Dial "smtp.example.com:587") (Some "dial tcp: connection refused")].
Proof.
  apply (Send_unreachable unreachable exampleSender "ada@example.com" "Hi" "<p>Hello</p>" []
           "dial tcp: connection refused").
  reflexivity.
Defined.

Lemma Send_closes_connection_witness :
  exists pre closed,
    bouncedWire = pre ++ [EvSmtp client_Close closed] /\
    forall c, ~ In (EvSmtp client_Close c) pre.
Proof.
  apply (Send_closes_connection bouncing exampleSender "ada@example.com" "Hi" "<p>Hello</p>"
           [] (Some "failed to set recipient: 550 no such user") bouncedWire).
  - intros rw. reflexivity.
  - reflexivity.
Defined.

Lemma Send_first_failure_witness :
  exists done op e closing,
    calls bouncedWire = passed done ++ (op, Some e) :: closing /\
    op <> client_Close /\
    "failed to set recipient: 550 no such user" = wrapOf op +:+ e /\
    (closing = [] \/ exists c, closing = [(client_Close, c)]).
Proof.
  apply (Send_first_failure bouncing exampleSender "ada@example.com" "Hi" "<p>Hello</p>"
           [] (Some "failed to set recipient: 550 no such user") bouncedWire).
  intros rw. reflexivity.
Defined.

Lemma Send_follows_script_witness :
  exists tls attempted closing,
    map fst (calls bouncedWire) = attempted ++ closing /\
    attempted `prefix_of` script exampleSender "ada@example.com" "Hi" "<p>Hello</p>" tls /\
    (closing = [] \/ closing = [client_Close]) /\
    (forall ext ok, In (EvExtension ext ok) bouncedWire -> ext = "STARTTLS" /\ ok = tls) /\
    List.NoDup (map fst (calls bouncedWire)).
Proof.
  apply (Send_follows_script bouncing exampleSender "ada@example.com" "Hi" "<p>Hello</p>"
           [] (Some "failed to set recipient: 550 no such user") bouncedWire).
  intros rw. reflexivity.
Defined.

Lemma credentials_after_STARTTLS_witness :
  let wire := sessionOK exampleSender "ada@example.com" "Hi" "<p>Hello</p>" true None in
  (forall a e, In (EvSmtp (client_Auth a) e) wire ->
     a = PlainAuth EmptyString "mailer" "secret" "smtp.example.com" /\
     exists pre post,
       wire = pre ++ EvSmtp (client_Auth a) e :: post /\
       (In (EvExtension "STARTTLS" false) pre \/
        In (EvSmtp (client_StartTLS "smtp.example.com") None) pre)) /\
  (forall name e, In (EvSmtp (client_StartTLS name) (Some e)) wire ->
     forall a e', ~ In (EvSmtp (client_Auth a) e') wire).
Proof.
  apply (credentials_after_STARTTLS accepting exampleSender "ada@example.com" "Hi"
           "<p>Hello</p>" [] None).
  intros rw. reflexivity.
Defined.

Lemma smtp_calls_of_a_run_witness :
  let r := jsonRequest adaJSON in
  Method r = "POST" /\
  exists form tls,
    parsed json.readValue (http.ParseForm plainMediaType) r = Some form /\
    required form /\
    (client_Rcpt "ada@example.com" = client_Close \/
     In (client_Rcpt "ada@example.com")
        (script exampleSender "owner@example.com"
                ("New Contact Form Submission: " +:+ Subject form)
                (email.recipientBody (Name form) (Email form) (Subject form) (Message form))
                tls) \/
     In (client_Rcpt "ada@example.com")
        (script exampleSender (Email form) "Thank you for contacting us"
                (email.confirmationBody (Name form) (Message form)) tls)).
Proof.
  apply (smtp_calls_of_a_run bouncing json.readValue (http.ParseForm plainMediaType)
           exampleHandler (jsonRequest adaJSON) (client_Rcpt "ada@example.com")
           (Some "550 no such user")).
  vm_compute. tauto.
Defined.

Lemma served_handler_follows_environment_witness :
  let routes : gmap string ContactHandler :=
    {[ "/contact" := NewContactHandler (email.NewSender (Load exampleEnv)) "*" ]} in
  server.main exampleEnv listening = server.Serving routes ":8080" /\
  ":8080" = ":" +:+ "8080" /\
  exists h, routes = {[ "/contact" := h ]} /\
    forall net readValue ParseForm r,
      header (resp (run net readValue ParseForm h r)) !! "Access-Control-Allow-Origin"
        = Some ["*"] /\
      forall op e, In (EvSmtp op e) (trace (run net readValue ParseForm h r)) ->
        match op with
        | smtp_Dial a => a = "smtp.gmail.com:587"
        | client_Hello name => name = "smtp.gmail.com"
        | client_StartTLS name => name = "smtp.gmail.com"
        | client_Auth a =>
            a = PlainAuth EmptyString "mailer" "secret" "smtp.gmail.com" /\
            username a <> EmptyString /\ password a <> EmptyString
        | client_Mail from => from = EmptyString
        | client_Rcpt to =>
            to = "owner@example.com" \/
            exists form, parsed readValue ParseForm r = Some form /\ to = Email form
        | smtp_SendMail _ _ _ _ _ => False
        | _ => True
        end.
Proof.
  split; [reflexivity|].
  apply (served_handler_follows_environment exampleEnv listening
           {[ "/contact" := NewContactHandler (email.NewSender (Load exampleEnv)) "*" ]}
           ":8080").
  reflexivity.
Defined.

Lemma json_body_that_is_no_object_witness :
  let w := run accepting json.readValue (http.ParseForm plainMediaType)
               exampleHandler (jsonRequest nullJSON) in
  status (resp w) = Some 400 /\
  body (resp w) = [Println "Name, email, and message are required"] /\
  mail (trace w) = [].
Proof.
  apply (json_body_that_is_no_object accepting json.readValue (http.ParseForm plainMediaType)
           exampleHandler (jsonRequest nullJSON) json.JNull).
  - reflexivity.
  - reflexivity.
  - reflexivity.
  - discriminate.
Defined.

Lemma json_member_of_wrong_type_witness :
  let w := run accepting json.readValue (http.ParseForm plainMediaType)
               exampleHandler (jsonRequest numberJSON) in
  status (resp w) = Some 400 /\
  body (resp w) = [Println "Invalid JSON format"] /\
  mail (trace w) = [].
Proof.
  apply (json_member_of_wrong_type accepting json.readValue (http.ParseForm plainMediaType)
           exampleHandler (jsonRequest numberJSON)
           [("name", json.JNumber "5");
            ("email", json.JString "ada@example.com");
            ("message", json.JString "Hello")]
           "name" (json.JNumber "5")).
  - reflexivity.
  - reflexivity.
  - vm_compute. reflexivity.
  - left. reflexivity.
  - left. reflexivity.
  - discriminate.
  - discriminate.
Defined.

Lemma json_member_missing_witness :
  let w := run accepting json.readValue (http.ParseForm plainMediaType)
               exampleHandler (jsonRequest namelessJSON) in
  status (resp w) = Some 400 /\
  body (resp w) = [Println "Name, email, and message are required"] /\
  mail (trace w) = [].
Proof.
  apply (json_member_missing accepting json.readValue (http.ParseForm plainMediaType)
           exampleHandler (jsonRequest namelessJSON)
           [("email", json.JString "ada@example.com"); ("message", json.JString "Hello")]
           "name").
  - reflexivity.
  - reflexivity.
  - vm_compute. reflexivity.
  - intros k val [Heq|[Heq|[]]]; inversion Heq; subst; (split; [cbn; tauto | by eexists]).
  - cbn. repeat constructor; cbn; intuition discriminate.
  - left. reflexivity.
  - cbn. intuition discriminate.
Defined.

Lemma fields_from_url_query_witness :
  parsed json.readValue (http.ParseForm plainMediaType)
         (queryRequest "text/plain" (formEncode adaForm)) = Some adaForm.
Proof.
  apply (fields_from_url_query plainMediaType (queryRequest "text/plain" (formEncode adaForm))
           adaForm "text/plain").
  - reflexivity.
  - reflexivity.
  - reflexivity.
  - discriminate.
  - reflexivity.
Defined.

Lemma unreachable_server_run_witness :
  let N := Notification "Ada" "ada@example.com" "Hi" ("Hello" +:+ LF +:+ "World") in
  run unreachable json.readValue (http.ParseForm plainMediaType)
      exampleHandler (jsonRequest adaJSON) =
    {| resp := errorResponse "*" "Failed to send email" 500;
       trace := (corsEvents "*" ++ [EvDecodeJSON; EvDispatch N])
                ++ [EvSmtp (smtp_Dial "smtp.example.com:587")
                           (Some "dial tcp: connection refused");
                    EvDispatchDone N (Some "failed to connect to SMTP server: dial tcp: connection refused");
                    EvLog "Failed to send email to recipient: failed to connect to SMTP server: dial tcp: connection refused"]
                ++ errorEvents "Failed to send email" 500 |}.
Proof.
  apply (unreachable_server_run unreachable json.readValue (http.ParseForm plainMediaType)
           exampleHandler (jsonRequest adaJSON) adaForm "dial tcp: connection refused").
  - reflexivity.
  - vm_compute. reflexivity.
  - discriminate.
  - discriminate.
  - discriminate.
  - reflexivity.
Defined.
